(** * nanovdb_convert: the command-line converter between OpenVDB and NanoVDB files

    A shallow embedding of [nanovdb/cmd/convert/nanovdb_convert.cpp].

    The program is [usage] and [main].  [main] parses [argv] from left to
    right into a handful of local variables, classifies the run by the
    extension of the last file name, asks before overwriting a non-empty output
    file, and then runs one of two loops over the input files inside a
    [try] block.  Everything that deals with grids is a call into the OpenVDB
    and NanoVDB libraries, whose headers are not part of the sources at hand:
    they are the operations of the class [Library] below.

    Effects are modelled by a writer/error monad [M]: a computation yields
    the list of the calls it made that are visible from outside (text on
    [std::cerr] and [std::cout], reads of [std::cin], file and library
    calls), together with the way it ended: a value, a call of [exit], or
    a C++ exception in flight. *)

From Stdlib Require Import String Ascii List ZArith NArith Lia Bool.
From Stdlib Require Import DecimalString.
Import ListNotations.

Local Open Scope string_scope.
Local Open Scope list_scope.

(** ** Characters and strings *)

Definition nl : string := String "010"%char EmptyString.
Definition tab : string := String "009"%char EmptyString.
Definition dquote : string := String "034"%char EmptyString.

(** [std::tolower] in the "C" locale, which is the one in effect since the
    program never calls [setlocale]. *)
Definition tolower (c : ascii) : ascii :=
  let n := N_of_ascii c in
  if (65 <=? n)%N && (n <=? 90)%N then ascii_of_N (n + 32) else c.

(** [std::transform(str.begin(), str.end(), str.begin(), tolower)] *)
Fixpoint transform_tolower (s : string) : string :=
  match s with
  | EmptyString => EmptyString
  | String c s' => String (tolower c) (transform_tolower s')
  end.

(** [arg[0] == '-']; on the empty string [arg[0]] is the terminating NUL. *)
Definition first_is_dash (arg : string) : bool :=
  match arg with
  | EmptyString => false
  | String c _ => Ascii.eqb c "-"%char
  end.

Definition empty (s : string) : bool :=
  match s with EmptyString => true | _ => false end.

(** [size_t] is 64 bits wide; [std::string::npos] is its largest value. *)
Definition size_max : Z := 2 ^ 64.
Definition npos : Z := size_max - 1.
Definition wrap (z : Z) : Z := z mod size_max.

(** [s.find_last_of(c)]: the index of the last occurrence of [c], [npos] when
    there is none.  [i] is the index of the head of [s] and [found] the last
    occurrence seen so far. *)
Fixpoint find_last_of_from (s : string) (c : ascii) (i found : Z) : Z :=
  match s with
  | EmptyString => found
  | String a s' => find_last_of_from s' c (i + 1) (if Ascii.eqb a c then i else found)
  end.

Definition find_last_of (s : string) (c : ascii) : Z :=
  find_last_of_from s c 0 npos.

Fixpoint drop (n : nat) (s : string) : string :=
  match n, s with
  | O, _ => s
  | S _, EmptyString => EmptyString
  | S n', String _ s' => drop n' s'
  end.

(** [s.substr(pos)]: the characters from [pos] on; [pos > size()] throws
    [std::out_of_range], which is [None] here. *)
Definition substr (s : string) (pos : Z) : option string :=
  if (pos <=? Z.of_nat (String.length s))%Z then Some (drop (Z.to_nat pos) s) else None.

(** [f.substr(f.find_last_of(".") + 1)]: the addition is done in [size_t],
    so that [npos + 1] is 0 and a name without a dot is its own extension. *)
Definition extension (f : string) : option string :=
  substr f (wrap (find_last_of f "."%char + 1)).

(** ** Exceptions, and the outcome of library calls *)

Inductive Exn : Type :=
| StdException (what : string)   (* anything derived from std::exception *)
| OtherException.                (* anything else, caught by catch (...) *)

Inductive thrown (A : Type) : Type :=
| Ok (a : A)
| Raise (e : Exn).
Arguments Ok {A} a.
Arguments Raise {A} e.

(** [EXIT_SUCCESS] and [EXIT_FAILURE] of <cstdlib>. *)
Definition EXIT_SUCCESS : Z := 0.
Definition EXIT_FAILURE : Z := 1.

(** ** The libraries the program is linked against

    The enumerations [nanovdb::io::Codec], [nanovdb::StatsMode] and
    [nanovdb::ChecksumMode] are declared in headers that are not at hand, so
    their types and the enumerators the program names are taken abstractly;
    nothing below assumes two enumerators to differ.  The operations read the
    files as they are when the program starts: no file is read after the
    program has written to it (the inputs are read before [file.write] in one
    direction, and are [.vdb] files distinct from the [.nvdb] output stream in
    the other).  An operation either returns or throws. *)
Class Library : Type := {
  Codec : Type;
  Codec_NONE : Codec;
  Codec_BLOSC : Codec;
  Codec_ZIP : Codec;
  StatsMode : Type;
  StatsMode_Default : StatsMode;
  StatsMode_Disable : StatsMode;
  StatsMode_BBox : StatsMode;
  StatsMode_MinMax : StatsMode;
  StatsMode_All : StatsMode;
  ChecksumMode : Type;
  ChecksumMode_Default : ChecksumMode;
  ChecksumMode_Disable : ChecksumMode;
  ChecksumMode_Partial : ChecksumMode;
  ChecksumMode_Full : ChecksumMode;
  (* openvdb::GridBase::Ptr and nanovdb::GridHandle<> *)
  OpenGrid : Type;
  GridHandle : Type;
  (* grid->getName() *)
  getName : OpenGrid -> string;
  (* handle.gridMetaData()->gridName() *)
  gridName_of : GridHandle -> string;
  (* GridHandle::operator bool: false on the empty handle *)
  handle_bool : GridHandle -> bool;
  (* openvdb::io::File file(path); file.open(false) *)
  file_open : string -> thrown unit;
  (* file.getGrids() *)
  file_getGrids : string -> thrown (list OpenGrid);
  (* file.readGrid(name) *)
  file_readGrid : string -> string -> thrown OpenGrid;
  (* nanovdb::openToNanoVDB(grid, sMode, cMode, false, verbose ? 1 : 0) *)
  openToNanoVDB : OpenGrid -> StatsMode -> ChecksumMode -> bool -> Z -> thrown GridHandle;
  (* nanovdb::io::writeGrid(os, handle, codec), os being the stream on a path *)
  writeGrid : string -> GridHandle -> Codec -> thrown unit;
  (* nanovdb::io::readGrids(path, verbose) *)
  readGrids : string -> bool -> thrown (list GridHandle);
  (* nanovdb::io::readGrid(path, name) *)
  readGrid : string -> string -> thrown GridHandle;
  (* nanoToOpenVDB(handle) *)
  nanoToOpenVDB : GridHandle -> thrown OpenGrid;
  (* openvdb::io::File file(path); file.write(grids) *)
  file_write : string -> list OpenGrid -> thrown unit;
  NANOVDB_MAJOR_VERSION_NUMBER : Z;
  NANOVDB_MINOR_VERSION_NUMBER : Z;
  NANOVDB_PATCH_VERSION_NUMBER : Z
}.

(** What the program finds outside itself besides its arguments: the files
    on disk (their bytes, [None] for a path that cannot be opened for
    reading) and the line that [getline(std::cin, answer)] delivers (empty at
    end of input). *)
Record World : Type := {
  disk : string -> option string;
  stdin_line : string
}.

Section Program.

Context {L : Library}.

(** ** Observable calls *)

Inductive Event : Type :=
| Stderr (text : string)
| Stdout (text : string)
| EvIfstream (path : string)         (* std::ifstream is(path, in | binary) and is.peek() *)
| EvGetline (line : string)          (* getline(std::cin, answer) *)
| EvInitialize                       (* openvdb::initialize() *)
| EvOfstream (path : string)         (* std::ofstream os(path, out | binary): creates or truncates *)
| EvFileOpen (path : string)
| EvGetGrids (path : string)
| EvReadGrid (path name : string)
| EvOpenToNano (grid : OpenGrid) (s : StatsMode) (c : ChecksumMode) (v : Z)
| EvWriteGrid (path : string) (handle : GridHandle) (c : Codec)
| EvNanoReadGrids (path : string) (verbose : bool)
| EvNanoReadGrid (path name : string)
| EvNanoToOpen (handle : GridHandle)
| EvFileWrite (path : string) (grids : list OpenGrid).

(** ** The monad of the program *)

Inductive step (A : Type) : Type :=
| Ret (a : A)            (* control goes on with a *)
| Exit (status : Z)      (* exit(status) was called *)
| Throw (e : Exn).       (* an exception is in flight *)
Arguments Ret {A} a.
Arguments Exit {A} status.
Arguments Throw {A} e.

Definition M (A : Type) : Type := (step A * list Event)%type.

Definition ret {A} (a : A) : M A := (Ret a, []).

Definition bind {A B} (m : M A) (k : A -> M B) : M B :=
  match m with
  | (Ret a, t) => let (r, t') := k a in (r, t ++ t')
  | (Exit s, t) => (Exit s, t)
  | (Throw e, t) => (Throw e, t)
  end.

Definition emit (e : Event) : M unit := (Ret tt, [e]).

Definition exit {A} (status : Z) : M A := (Exit status, []).

Definition throw {A} (e : Exn) : M A := (Throw e, []).

(** A library call: it is recorded, and it returns or throws. *)
Definition call {A} (e : Event) (r : thrown A) : M A :=
  match r with
  | Ok a => (Ret a, [e])
  | Raise x => (Throw x, [e])
  end.

Definition when (b : bool) (m : M unit) : M unit :=
  if b then m else ret tt.

End Program.

Arguments Ret {A} a.
Arguments Exit {A} status.
Arguments Throw {A} e.

Notation "x <- m ;; k" := (bind m (fun x => k))
  (at level 61, m at next level, right associativity).
Notation "m ;; k" := (bind m (fun _ => k))
  (at level 61, right associativity).

Section Convert.

Context {L : Library}.

(** ** [usage] *)

Definition usage_text (progName : string) : string :=
  nl ++ "Usage: " ++ progName ++ " [options] *.vdb output.nvdb" ++ nl
  ++ "Which: converts one or more OpenVDB files to a single NanoVDB file" ++ nl ++ nl
  ++ "Usage: " ++ progName ++ " [options] *.nvdb output.vdb" ++ nl
  ++ "Which: converts one or more NanoVDB files to a single OpenVDB file" ++ nl ++ nl
  ++ "Options:" ++ nl
  ++ "-b,--blosc" ++ tab ++ "Use BLOSC compression on the output file" ++ nl
  ++ "-c,--checksum mode" ++ tab ++ " where mode={none, partial, full}" ++ nl
  ++ "-f,--force" ++ tab ++ "Overwrite output file if it already exists" ++ nl
  ++ "-g,--grid name" ++ tab ++ "Convert all grids matching the specified string name" ++ nl
  ++ "-h,--help" ++ tab ++ "Prints this message" ++ nl
  ++ "-s,--stats mode" ++ tab ++ " where mode={none, bbox, extrema, all}" ++ nl
  ++ "-v,--verbose" ++ tab ++ "Print verbose information to the terminal" ++ nl
  ++ "-z,--zip" ++ tab ++ "Use ZIP compression on the output file" ++ nl.

(** [usage] does not return: it prints and calls [exit]. *)
Definition usage {A} (progName : string) (exitStatus : Z) : M A :=
  emit (Stderr (usage_text progName)) ;; exit exitStatus.

(** A line on [std::cerr] that ends in a newline and [std::endl]. *)
Definition complain (text : string) : M unit :=
  emit (Stderr (text ++ nl ++ nl)).

(** ** The local variables that the argument loop of [main] sets *)

Record Options : Type := {
  codec : Codec;
  sMode : StatsMode;
  cMode : ChecksumMode;
  verbose : bool;
  overwrite : bool;
  gridName : string;
  fileNames : list string
}.

Definition initial : Options :=
  {| codec := Codec_NONE; sMode := StatsMode_Default; cMode := ChecksumMode_Default;
     verbose := false; overwrite := false; gridName := EmptyString; fileNames := [] |}.

Definition set_codec (c : Codec) (o : Options) : Options :=
  {| codec := c; sMode := sMode o; cMode := cMode o; verbose := verbose o;
     overwrite := overwrite o; gridName := gridName o; fileNames := fileNames o |}.
Definition set_sMode (m : StatsMode) (o : Options) : Options :=
  {| codec := codec o; sMode := m; cMode := cMode o; verbose := verbose o;
     overwrite := overwrite o; gridName := gridName o; fileNames := fileNames o |}.
Definition set_cMode (m : ChecksumMode) (o : Options) : Options :=
  {| codec := codec o; sMode := sMode o; cMode := m; verbose := verbose o;
     overwrite := overwrite o; gridName := gridName o; fileNames := fileNames o |}.
Definition set_verbose (b : bool) (o : Options) : Options :=
  {| codec := codec o; sMode := sMode o; cMode := cMode o; verbose := b;
     overwrite := overwrite o; gridName := gridName o; fileNames := fileNames o |}.
Definition set_overwrite (b : bool) (o : Options) : Options :=
  {| codec := codec o; sMode := sMode o; cMode := cMode o; verbose := verbose o;
     overwrite := b; gridName := gridName o; fileNames := fileNames o |}.
Definition set_gridName (n : string) (o : Options) : Options :=
  {| codec := codec o; sMode := sMode o; cMode := cMode o; verbose := verbose o;
     overwrite := overwrite o; gridName := n; fileNames := fileNames o |}.
(* fileNames.push_back(arg) *)
Definition push_back_file (f : string) (o : Options) : Options :=
  {| codec := codec o; sMode := sMode o; cMode := cMode o; verbose := verbose o;
     overwrite := overwrite o; gridName := gridName o; fileNames := fileNames o ++ [f] |}.

(** ** The argument loop, lines 50 to 115

    [argv] is what is left of the argument vector from index [i] on, so that
    [i + 1 == argc] reads "nothing follows [arg]", and [argv[++i]] takes the
    next argument out of the vector. *)
Fixpoint parse (progName : string) (argv : list string) (o : Options) : M Options :=
  match argv with
  | [] => ret o
  | arg :: rest =>
    if first_is_dash arg then
      if (arg =? "-v") || (arg =? "--verbose") then
        parse progName rest (set_verbose true o)
      else if (arg =? "-f") || (arg =? "--force") then
        parse progName rest (set_overwrite true o)
      else if (arg =? "-h") || (arg =? "--help") then
        usage progName EXIT_SUCCESS
      else if (arg =? "-b") || (arg =? "--blosc") then
        parse progName rest (set_codec Codec_BLOSC o)
      else if (arg =? "-z") || (arg =? "--zip") then
        parse progName rest (set_codec Codec_ZIP o)
      else if (arg =? "-c") || (arg =? "--checksum") then
        match rest with
        | [] =>
          complain "Expected a mode to follow the -c,--checksum option" ;;
          usage progName EXIT_FAILURE
        | value :: rest' =>
          let str := transform_tolower value in
          if str =? "none" then parse progName rest' (set_cMode ChecksumMode_Disable o)
          else if str =? "partial" then parse progName rest' (set_cMode ChecksumMode_Partial o)
          else if str =? "full" then parse progName rest' (set_cMode ChecksumMode_Full o)
          else
            complain "Expected one of the following checksum modes: {none, partial, full}" ;;
            usage progName EXIT_FAILURE
        end
      else if (arg =? "-s") || (arg =? "--stats") then
        match rest with
        | [] =>
          complain "Expected a mode to follow the -s,--stats option" ;;
          usage progName EXIT_FAILURE
        | value :: rest' =>
          let str := transform_tolower value in
          if str =? "none" then parse progName rest' (set_sMode StatsMode_Disable o)
          else if str =? "bbox" then parse progName rest' (set_sMode StatsMode_BBox o)
          else if str =? "extrema" then parse progName rest' (set_sMode StatsMode_MinMax o)
          else if str =? "all" then parse progName rest' (set_sMode StatsMode_All o)
          else
            complain "Expected one of the following stats modes: {none, bbox, extrema, all}" ;;
            usage progName EXIT_FAILURE
        end
      else if (arg =? "-g") || (arg =? "--grid") then
        match rest with
        | [] =>
          complain "Expected a grid name to follow the -g,--grid option" ;;
          usage progName EXIT_FAILURE
        | value :: rest' => parse progName rest' (set_gridName value o)
        end
      else
        complain ("Unrecognized option: " ++ dquote ++ arg ++ dquote) ;;
        usage progName EXIT_FAILURE
    else if negb (empty arg) then
      parse progName rest (push_back_file arg o)
    else
      parse progName rest o
  end.

(** ** The overwrite guard, lines 132 to 143 *)

(** [is.peek() != traits_type::eof()]: the file could be opened and holds at
    least one byte. *)
Definition peek_not_eof (w : World) (path : string) : bool :=
  match disk w path with
  | Some (String _ _) => true
  | _ => false
  end.

(** The condition of line 138. *)
Definition refused (answer : string) : bool :=
  negb (empty answer) && negb (answer =? "Y") && negb (answer =? "y")
  && negb (answer =? "yes") && negb (answer =? "YES").

Definition overwrite_guard (w : World) (o : Options) (outputFile : string) : M unit :=
  if negb (overwrite o) then
    emit (EvIfstream outputFile) ;;
    if peek_not_eof w outputFile then
      emit (Stdout ("Overwrite the existing output file named " ++ dquote ++ outputFile
                    ++ dquote ++ "? [Y]/N: ")) ;;
      let answer := stdin_line w in
      emit (EvGetline answer) ;;
      if refused answer then
        emit (Stdout ("Please specify a different output file" ++ nl)) ;;
        exit EXIT_SUCCESS
      else ret tt
    else ret tt
  else ret tt.

(** ** The two conversion loops, lines 152 to 210 *)

(** A range-based [for] whose body changes nothing but the outside world. *)
Fixpoint for_each {A} (l : list A) (body : A -> M unit) : M unit :=
  match l with
  | [] => ret tt
  | x :: l' => body x ;; for_each l' body
  end.

(** A range-based [for] whose body also updates a local variable. *)
Fixpoint for_each_acc {A S} (l : list A) (body : S -> A -> M S) (acc : S) : M S :=
  match l with
  | [] => ret acc
  | x :: l' => acc' <- body acc x ;; for_each_acc l' body acc'
  end.

(** A throwing [substr] inside the [try] block. *)
Definition extension_or_throw (f : string) : M string :=
  match extension f with
  | Some ext => ret ext
  | None => throw (StdException "basic_string::substr")
  end.

Definition verbosity (o : Options) : Z := if verbose o then 1 else 0.

(** Lines 166 to 170, and 174 to 178: one grid to the output stream. *)
Definition encode_grid (o : Options) (outputFile : string) (grid : OpenGrid) : M unit :=
  when (verbose o)
    (emit (Stdout ("Converting OpenVDB grid named " ++ dquote ++ getName grid ++ dquote
                   ++ " to NanoVDB" ++ nl))) ;;
  handle <- call (EvOpenToNano grid (sMode o) (cMode o) (verbosity o))
                 (openToNanoVDB grid (sMode o) (cMode o) false (verbosity o)) ;;
  call (EvWriteGrid outputFile handle (codec o)) (writeGrid outputFile handle (codec o)).

(** The body of the loop of line 154. *)
Definition toNano_file (progName : string) (o : Options) (outputFile inputFile : string)
  : M unit :=
  ext <- extension_or_throw inputFile ;;
  when (negb (ext =? "vdb"))
    (complain ("Since the last file has extension .nvdb the remaining input files "
               ++ "were expected to have extensions .vdb") ;;
     usage progName EXIT_FAILURE) ;;
  when (verbose o)
    (emit (Stdout ("Opening OpenVDB file named " ++ dquote ++ inputFile ++ dquote ++ nl))) ;;
  call (EvFileOpen inputFile) (file_open inputFile) ;;
  if empty (gridName o) then
    grids <- call (EvGetGrids inputFile) (file_getGrids inputFile) ;;
    for_each grids (encode_grid o outputFile)
  else
    grid <- call (EvReadGrid inputFile (gridName o)) (file_readGrid inputFile (gridName o)) ;;
    encode_grid o outputFile grid.

(** Lines 153 to 180. *)
Definition toNano (progName : string) (o : Options) (outputFile : string)
  (inputs : list string) : M unit :=
  emit (EvOfstream outputFile) ;;
  for_each inputs (toNano_file progName o outputFile).

(** Lines 194 to 196, and 204 to 206: one more grid in [grids]. *)
Definition decode_handle (o : Options) (grids : list OpenGrid) (h : GridHandle)
  : M (list OpenGrid) :=
  when (verbose o)
    (emit (Stdout ("Converting NanoVDB grid named " ++ dquote ++ gridName_of h ++ dquote
                   ++ " to OpenVDB" ++ nl))) ;;
  grid <- call (EvNanoToOpen h) (nanoToOpenVDB h) ;;
  ret (grids ++ [grid]).

(** The body of the loop of line 184. *)
Definition toOpen_file (progName : string) (o : Options) (grids : list OpenGrid)
  (inputFile : string) : M (list OpenGrid) :=
  ext <- extension_or_throw inputFile ;;
  when (negb (ext =? "nvdb"))
    (complain ("Since the last file has extension .vdb the remaining input files "
               ++ "were expected to have extensions .nvdb") ;;
     usage progName EXIT_FAILURE) ;;
  when (verbose o)
    (emit (Stdout ("Opening NanoVDB file named " ++ dquote ++ inputFile ++ dquote ++ nl))) ;;
  if empty (gridName o) then
    handles <- call (EvNanoReadGrids inputFile (verbose o)) (readGrids inputFile (verbose o)) ;;
    for_each_acc handles (decode_handle o) grids
  else
    handle <- call (EvNanoReadGrid inputFile (gridName o)) (readGrid inputFile (gridName o)) ;;
    when (negb (handle_bool handle))
      (complain ("File did not contain a NanoVDB grid named " ++ dquote ++ gridName o ++ dquote) ;;
       usage progName EXIT_FAILURE) ;;
    decode_handle o grids handle.

(** Lines 182 to 209. *)
Definition toOpen (progName : string) (o : Options) (outputFile : string)
  (inputs : list string) : M unit :=
  grids <- for_each_acc inputs (toOpen_file progName o) [] ;;
  call (EvFileWrite outputFile grids) (file_write outputFile grids).

Definition decimal (z : Z) : string := NilZero.string_of_int (Z.to_int z).

(** Lines 211 to 215. *)
Definition version_note (o : Options) : M unit :=
  when (verbose o)
    (emit (Stdout (nl ++ "This binary was build against NanoVDB version "
                   ++ decimal NANOVDB_MAJOR_VERSION_NUMBER ++ "."
                   ++ decimal NANOVDB_MINOR_VERSION_NUMBER ++ "."
                   ++ decimal NANOVDB_PATCH_VERSION_NUMBER ++ nl))).

(** The body of the [try] block. *)
Definition convert (progName : string) (o : Options) (toNanoVDB : bool)
  (outputFile : string) (inputs : list string) : M unit :=
  (if toNanoVDB then toNano progName o outputFile inputs
   else toOpen progName o outputFile inputs) ;;
  version_note o.

(** [try body catch (const std::exception&) ... catch (...) ...]: the value is
    [exitStatus] after the block.  A call of [exit] inside the block ends the
    process and is no exception. *)
Definition try_catch (body : M unit) : M Z :=
  match body with
  | (Ret _, t) => (Ret EXIT_SUCCESS, t)
  | (Exit s, t) => (Exit s, t)
  | (Throw (StdException what), t) =>
    (Ret EXIT_FAILURE,
     t ++ [Stderr ("An exception occurred: " ++ dquote ++ what ++ dquote ++ nl)])
  | (Throw OtherException, t) =>
    (Ret EXIT_FAILURE, t ++ [Stderr ("Exception oof unexpected type caught" ++ nl)])
  end.

(** ** [main] *)

(** Lines 122 to 128: the value is [toNanoVDB]. *)
Definition classify (progName : string) (ext : string) : M bool :=
  if ext =? "nvdb" then ret true
  else if negb (ext =? "vdb") then
    complain ("Unrecognized file extension: " ++ dquote ++ ext ++ dquote) ;;
    usage progName EXIT_FAILURE
  else ret false.

(** [progName] is [argv[0]] and [args] the arguments after it.  The value is
    what [main] returns, unless [exit] ended the process first; [Throw] would
    be an exception that leaves [main].  Two calls outside the [try] block
    could raise one: the [substr] of line 121, which never does on a string
    that fits a [std::string], and [openvdb::initialize()] of line 145, which
    is taken to return here; [main_init] below does without that. *)
Definition main (progName : string) (args : list string) (w : World) : M Z :=
  o <- parse progName args initial ;;
  when (length (fileNames o) <? 2)%nat
    (complain "Expected at least an input file followed by exactly one output file" ;;
     usage progName EXIT_FAILURE) ;;
  let outputFile := last (fileNames o) EmptyString in
  ext <- match extension outputFile with
         | Some ext => ret ext
         | None => throw (StdException "basic_string::substr")
         end ;;
  toNanoVDB <- classify progName ext ;;
  let inputs := removelast (fileNames o) in
  overwrite_guard w o outputFile ;;
  emit EvInitialize ;;
  try_catch (convert progName o toNanoVDB outputFile inputs).

(** [main] with the outcome of [openvdb::initialize()] as a parameter: the
    call of line 145 stands outside the [try] block, so that nothing catches
    what it throws.  [main] is [main_init (Ok tt)]. *)
Definition main_init (init : thrown unit) (progName : string) (args : list string)
  (w : World) : M Z :=
  o <- parse progName args initial ;;
  when (length (fileNames o) <? 2)%nat
    (complain "Expected at least an input file followed by exactly one output file" ;;
     usage progName EXIT_FAILURE) ;;
  let outputFile := last (fileNames o) EmptyString in
  ext <- match extension outputFile with
         | Some ext => ret ext
         | None => throw (StdException "basic_string::substr")
         end ;;
  toNanoVDB <- classify progName ext ;;
  let inputs := removelast (fileNames o) in
  overwrite_guard w o outputFile ;;
  call EvInitialize init ;;
  try_catch (convert progName o toNanoVDB outputFile inputs).

(** The exit status of the process, [None] when it was aborted by an
    exception that nothing caught. *)
Definition exit_status (r : step Z) : option Z :=
  match r with
  | Ret s => Some s
  | Exit s => Some s
  | Throw _ => None
  end.

End Convert.

(** ** A small installation to run the program on

    Grids are known by their names only.  There are two OpenVDB files,
    [a.vdb] with the grids [density] and [temperature] and [b.vdb] with the
    grid [velocity], and one NanoVDB file, [a.nvdb], with the grids
    [density] and [temperature].  Reading any other file throws, and reading
    a named grid that a NanoVDB file does not hold gives the empty handle. *)
Module Sample.

Inductive codec : Type := none | blosc | zip.
Inductive stats : Type := stats_disable | stats_bbox | stats_minmax | stats_all.
Inductive checksum : Type := checksum_disable | checksum_partial | checksum_full.

Definition vdb_grids (path : string) : option (list string) :=
  if path =? "a.vdb" then Some ["density"; "temperature"]
  else if path =? "b.vdb" then Some ["velocity"]
  else None.

Definition nvdb_grids (path : string) : option (list string) :=
  if path =? "a.nvdb" then Some ["density"; "temperature"]
  else None.

Definition no_such_file {A} (path : string) : thrown A :=
  Raise (StdException ("Unable to open file " ++ path)).

Definition or_throw {A} (path : string) (x : option A) : thrown A :=
  match x with
  | Some a => Ok a
  | None => no_such_file path
  end.

Definition has (name : string) (l : list string) : bool :=
  existsb (String.eqb name) l.

Definition library : Library := {|
  Codec := codec;
  Codec_NONE := none;
  Codec_BLOSC := blosc;
  Codec_ZIP := zip;
  StatsMode := stats;
  StatsMode_Default := stats_all;
  StatsMode_Disable := stats_disable;
  StatsMode_BBox := stats_bbox;
  StatsMode_MinMax := stats_minmax;
  StatsMode_All := stats_all;
  ChecksumMode := checksum;
  ChecksumMode_Default := checksum_partial;
  ChecksumMode_Disable := checksum_disable;
  ChecksumMode_Partial := checksum_partial;
  ChecksumMode_Full := checksum_full;
  OpenGrid := string;
  GridHandle := option string;
  getName := fun g => g;
  gridName_of := fun h => match h with Some n => n | None => EmptyString end;
  handle_bool := fun h => match h with Some _ => true | None => false end;
  file_open := fun path => or_throw path (option_map (fun _ => tt) (vdb_grids path));
  file_getGrids := fun path => or_throw path (vdb_grids path);
  file_readGrid := fun path name =>
    match vdb_grids path with
    | Some l => if has name l then Ok name
                else Raise (StdException ("No grid named " ++ name))
    | None => no_such_file path
    end;
  openToNanoVDB := fun g _ _ _ _ => Ok (Some g);
  writeGrid := fun _ _ _ => Ok tt;
  readGrids := fun path _ => or_throw path (option_map (map Some) (nvdb_grids path));
  readGrid := fun path name =>
    match nvdb_grids path with
    | Some l => Ok (if has name l then Some name else None)
    | None => no_such_file path
    end;
  nanoToOpenVDB := fun h =>
    match h with
    | Some n => Ok n
    | None => Raise (StdException "empty handle")
    end;
  file_write := fun _ _ => Ok tt;
  NANOVDB_MAJOR_VERSION_NUMBER := 32;
  NANOVDB_MINOR_VERSION_NUMBER := 3;
  NANOVDB_PATCH_VERSION_NUMBER := 3
|}.

(** No readable file at the output path. *)
Definition fresh : World :=
  {| disk := fun _ => None; stdin_line := EmptyString |}.

(** Every path holds the four bytes [data]; [answer] is typed at the prompt. *)
Definition occupied (answer : string) : World :=
  {| disk := fun _ => Some "data"; stdin_line := answer |}.

End Sample.

(** ** The command line as its reader sees it

    The usage text gives the grammar of the command line: options without a
    value, the three options [-c], [-s] and [-g] that take the next argument
    as their value, and file names.  [items] splits an argument vector
    accordingly; it knows nothing of what the options mean. *)

(** The index of the last occurrence of a character, as one would define it
    without an accumulator. *)
Fixpoint last_index (s : string) (c : ascii) : option nat :=
  match s with
  | EmptyString => None
  | String a s' =>
    match last_index s' c with
    | Some k => Some (S k)
    | None => if Ascii.eqb a c then Some O else None
    end
  end.

(** What follows the last dot of a file name; the whole name if it has no
    dot. *)
Definition after_last_dot (f : string) : string :=
  match last_index f "."%char with
  | Some k => drop (S k) f
  | None => f
  end.

(** A file name has the extension [ext]: [ext] holds no dot, and the name is
    [ext] itself or some stem, a dot, and [ext]. *)
Definition has_extension (f ext : string) : Prop :=
  last_index ext "."%char = None
  /\ (f = ext \/ exists stem : string, f = (stem ++ String "."%char ext)%string).

Definition takes_value (arg : string) : bool :=
  (arg =? "-c") || (arg =? "--checksum") || (arg =? "-s") || (arg =? "--stats")
  || (arg =? "-g") || (arg =? "--grid").

Inductive Item : Type :=
| Flag (name : string)            (* an argument that starts with a dash and takes no value *)
| Valued (name value : string)    (* -c, -s or -g and the argument after it *)
| Dangling (name : string)        (* -c, -s or -g as the last argument *)
| Operand (path : string)         (* a file name *)
| Blank.                          (* an empty argument *)

Fixpoint items (argv : list string) : list Item :=
  match argv with
  | [] => []
  | arg :: rest =>
    if first_is_dash arg then
      if takes_value arg then
        match rest with
        | [] => [Dangling arg]
        | value :: rest' => Valued arg value :: items rest'
        end
      else Flag arg :: items rest
    else if empty arg then Blank :: items rest
    else Operand arg :: items rest
  end.

(** The file-path operands of a command line, in order. *)
Fixpoint operands_of (its : list Item) : list string :=
  match its with
  | [] => []
  | Operand p :: its' => p :: operands_of its'
  | _ :: its' => operands_of its'
  end.

Definition operands (argv : list string) : list string := operands_of (items argv).

Definition is_help (it : Item) : bool :=
  match it with
  | Flag n => (n =? "-h") || (n =? "--help")
  | _ => false
  end.

(** The help flag is among the options of the command line. *)
Definition help_given (argv : list string) : bool := existsb is_help (items argv).

Definition is_force (it : Item) : bool :=
  match it with
  | Flag n => (n =? "-f") || (n =? "--force")
  | _ => false
  end.

(** The force flag is among the options of the command line. *)
Definition force_given (argv : list string) : bool := existsb is_force (items argv).

Definition is_codec_flag (it : Item) : bool :=
  match it with
  | Flag n => (n =? "-b") || (n =? "--blosc") || (n =? "-z") || (n =? "--zip")
  | _ => false
  end.

Definition is_checksum_option (it : Item) : bool :=
  match it with
  | Valued n _ => (n =? "-c") || (n =? "--checksum")
  | _ => false
  end.

Definition is_stats_option (it : Item) : bool :=
  match it with
  | Valued n _ => (n =? "-s") || (n =? "--stats")
  | _ => false
  end.

Definition is_grid_option (it : Item) : bool :=
  match it with
  | Valued n _ => (n =? "-g") || (n =? "--grid")
  | _ => false
  end.

(** Two characters that are equal or are the two cases of one letter of
    the alphabet, and two strings that are so character by character. *)
Definition is_upper (c : ascii) : bool :=
  (65 <=? N_of_ascii c)%N && (N_of_ascii c <=? 90)%N.

Definition same_letter (a b : ascii) : bool :=
  Ascii.eqb a b
  || (is_upper a && (N_of_ascii b =? N_of_ascii a + 32)%N)
  || (is_upper b && (N_of_ascii a =? N_of_ascii b + 32)%N).

Fixpoint same_letters (s t : string) : bool :=
  match s, t with
  | EmptyString, EmptyString => true
  | String a s', String b t' => same_letter a b && same_letters s' t'
  | _, _ => false
  end.

(** The value of a mode option is one of the given words, whatever the case
    of its letters. *)
Definition is_mode_word (value : string) (words : list string) : bool :=
  existsb (same_letters value) words.

(** An answer to the overwrite prompt as the specification describes the
    affirmative ones: nothing, or [y] or [yes] in any mix of cases. *)
Definition affirmative (answer : string) : bool :=
  empty answer || same_letters answer "y" || same_letters answer "yes".

(** The answers that line 138 lets through. *)
Definition accepted_answers : list string :=
  [EmptyString; "Y"; "y"; "yes"; "YES"].

Section Meaning.

Context {L : Library}.

(** The mode words of the usage text and the enumerators they stand for,
    lines 70 to 75 and 88 to 95. *)
Definition checksum_of_word (word : string) : option ChecksumMode :=
  if word =? "none" then Some ChecksumMode_Disable
  else if word =? "partial" then Some ChecksumMode_Partial
  else if word =? "full" then Some ChecksumMode_Full
  else None.

Definition stats_of_word (word : string) : option StatsMode :=
  if word =? "none" then Some StatsMode_Disable
  else if word =? "bbox" then Some StatsMode_BBox
  else if word =? "extrema" then Some StatsMode_MinMax
  else if word =? "all" then Some StatsMode_All
  else None.

Definition codec_of_flag (name : string) : option Codec :=
  if (name =? "-b") || (name =? "--blosc") then Some Codec_BLOSC
  else if (name =? "-z") || (name =? "--zip") then Some Codec_ZIP
  else None.

(** What the argument loop does with one item. *)
Definition apply_item (progName : string) (it : Item) (o : Options) : M Options :=
  match it with
  | Flag n =>
    if (n =? "-v") || (n =? "--verbose") then ret (set_verbose true o)
    else if (n =? "-f") || (n =? "--force") then ret (set_overwrite true o)
    else if (n =? "-h") || (n =? "--help") then usage progName EXIT_SUCCESS
    else match codec_of_flag n with
         | Some c => ret (set_codec c o)
         | None =>
           complain ("Unrecognized option: " ++ dquote ++ n ++ dquote) ;;
           usage progName EXIT_FAILURE
         end
  | Valued n value =>
    if (n =? "-c") || (n =? "--checksum") then
      match checksum_of_word (transform_tolower value) with
      | Some m => ret (set_cMode m o)
      | None =>
        complain "Expected one of the following checksum modes: {none, partial, full}" ;;
        usage progName EXIT_FAILURE
      end
    else if (n =? "-s") || (n =? "--stats") then
      match stats_of_word (transform_tolower value) with
      | Some m => ret (set_sMode m o)
      | None =>
        complain "Expected one of the following stats modes: {none, bbox, extrema, all}" ;;
        usage progName EXIT_FAILURE
      end
    else if (n =? "-g") || (n =? "--grid") then ret (set_gridName value o)
    else
      complain ("Unrecognized option: " ++ dquote ++ n ++ dquote) ;;
      usage progName EXIT_FAILURE
  | Dangling n =>
    (if (n =? "-c") || (n =? "--checksum") then
       complain "Expected a mode to follow the -c,--checksum option"
     else if (n =? "-s") || (n =? "--stats") then
       complain "Expected a mode to follow the -s,--stats option"
     else complain "Expected a grid name to follow the -g,--grid option") ;;
    usage progName EXIT_FAILURE
  | Operand p => ret (push_back_file p o)
  | Blank => ret o
  end.

Definition apply_items (progName : string) (its : list Item) (o : Options) : M Options :=
  for_each_acc its (fun o it => apply_item progName it o) o.

(** ** What a run may do to the files

    The calls through which the program can change a file, and the path of
    the file: opening the output stream creates or truncates it, writing a
    grid to the stream appends to it, and [file.write] replaces it. *)
Definition written_path (e : Event) : option string :=
  match e with
  | EvOfstream p => Some p
  | EvWriteGrid p _ _ => Some p
  | EvFileWrite p _ => Some p
  | _ => None
  end.

(** The disks that a sequence of calls may leave behind: a call changes
    nothing but the file it writes.  What a write leaves in its file is not
    fixed, since that is the library's format and the stream's buffering. *)
Inductive disk_after : (string -> option string) -> list Event
                       -> (string -> option string) -> Prop :=
| disk_after_nil d : disk_after d [] d
| disk_after_read d e t d' :
    written_path e = None -> disk_after d t d' -> disk_after d (e :: t) d'
| disk_after_write d e p d1 t d' :
    written_path e = Some p -> (forall q, q <> p -> d1 q = d q) ->
    disk_after d1 t d' -> disk_after d (e :: t) d'.

Definition is_stderr (e : Event) : Prop := exists text, e = Stderr text.

Definition no_write (e : Event) : Prop := written_path e = None.

(** The NanoVDB files that the calls of a trace read, in order. *)
Fixpoint files_read (t : list Event) : list string :=
  match t with
  | [] => []
  | EvNanoReadGrids p _ :: t' => p :: files_read t'
  | EvNanoReadGrid p _ :: t' => p :: files_read t'
  | _ :: t' => files_read t'
  end.

(** The OpenVDB grids that the calls of a trace translated, in order. *)
Fixpoint translated (t : list Event) : list OpenGrid :=
  match t with
  | [] => []
  | EvNanoToOpen h :: t' =>
    match nanoToOpenVDB h with
    | Ok g => g :: translated t'
    | Raise _ => translated t'
    end
  | _ :: t' => translated t'
  end.

(** Every grid that a call of the trace encodes is handed, in the very next
    call, to [writeGrid] on the stream of [outputFile] with the codec [c]. *)
Fixpoint streamed (outputFile : string) (c : Codec) (t : list Event) : Prop :=
  match t with
  | [] => True
  | EvOpenToNano g s k v :: t' =>
    match openToNanoVDB g s k false v with
    | Ok h =>
      match t' with
      | e :: _ => e = EvWriteGrid outputFile h c
      | [] => False
      end
    | Raise _ => True
    end /\ streamed outputFile c t'
  | _ :: t' => streamed outputFile c t'
  end.

(** Calls that touch no grid: text on the console, the look at the output
    file, the line from [std::cin], and the set-up of OpenVDB. *)
Definition plain (e : Event) : Prop :=
  match e with
  | Stderr _ | Stdout _ | EvIfstream _ | EvGetline _ | EvInitialize => True
  | _ => False
  end.

Definition is_encode (e : Event) : Prop :=
  match e with
  | EvOpenToNano _ _ _ _ => True
  | _ => False
  end.

Definition is_file_write (e : Event) : Prop :=
  match e with
  | EvFileWrite _ _ => True
  | _ => False
  end.

(** A computation that ends the run in failure: through [usage] with
    [EXIT_FAILURE], or in an exception. *)
Definition fails {A} (m : M A) : Prop :=
  fst m = Exit EXIT_FAILURE \/ exists e, fst m = Throw e.

(** The complaint of line 156. *)
Definition expected_vdb : string :=
  ("Since the last file has extension .nvdb the remaining input files "
   ++ "were expected to have extensions .vdb") ++ nl ++ nl.

(** An OpenVDB file is opened only if its extension is [vdb]. *)
Definition opens_vdb_only (e : Event) : Prop :=
  forall p, e = EvFileOpen p -> extension p = Some "vdb".

(** The question of line 135. *)
Definition overwrite_question (outputFile : string) : string :=
  "Overwrite the existing output file named " ++ dquote ++ outputFile ++ dquote
  ++ "? [Y]/N: ".

(** What is left of [main] once the arguments are parsed. *)
Definition after_guard (progName : string) (o : Options) (toNanoVDB : bool) : M Z :=
  emit EvInitialize ;;
  try_catch (convert progName o toNanoVDB (last (fileNames o) EmptyString)
               (removelast (fileNames o))).

End Meaning.

(** ** More to say about command lines and traces *)

(** The sixteen spellings that the argument loop knows, lines 53 to 101. *)
Definition option_names : list string :=
  ["-v"; "--verbose"; "-f"; "--force"; "-h"; "--help"; "-b"; "--blosc";
   "-z"; "--zip"; "-c"; "--checksum"; "-s"; "--stats"; "-g"; "--grid"].

Definition is_verbose (it : Item) : bool :=
  match it with
  | Flag n => (n =? "-v") || (n =? "--verbose")
  | _ => false
  end.

(** The verbose flag is among the options of the command line. *)
Definition verbose_given (argv : list string) : bool := existsb is_verbose (items argv).

(** A string fits a [std::string]. *)
Definition fits (s : string) : Prop := (Z.of_nat (String.length s) < size_max)%Z.

(** The computation goes on. *)
Definition is_Ret {A} (r : step A) : Prop :=
  match r with
  | Ret _ => True
  | _ => False
  end.

Section Observers.

Context {L : Library}.

(** The OpenVDB files that the calls of a trace open, in order. *)
Fixpoint files_opened (t : list Event) : list string :=
  match t with
  | [] => []
  | EvFileOpen p :: t' => p :: files_opened t'
  | _ :: t' => files_opened t'
  end.

Definition not_stderr (e : Event) : Prop :=
  match e with
  | Stderr _ => False
  | _ => True
  end.

(** The trace ends with a text on [std::cerr]. *)
Definition ends_in_stderr (t : list Event) : Prop :=
  exists t' text, t = t' ++ [Stderr text].

(** The calls of the overwrite guard that look at the output file or wait
    for the user. *)
Definition is_guard_call (e : Event) : Prop :=
  match e with
  | EvIfstream _ | EvGetline _ => True
  | _ => False
  end.

(** A call that hands over the modes, the codec, the verbosity and the grid
    name does so with the values of the variables [o], and writes to
    [outputFile]. *)
Definition carries (o : Options) (outputFile : string) (e : Event) : Prop :=
  match e with
  | EvOpenToNano _ s c v => s = sMode o /\ c = cMode o /\ v = verbosity o
  | EvWriteGrid p _ c => p = outputFile /\ c = codec o
  | EvFileWrite p _ => p = outputFile
  | EvOfstream p => p = outputFile
  | EvIfstream p => p = outputFile
  | EvNanoReadGrids _ v => v = verbose o
  | EvReadGrid _ n => n = gridName o
  | EvNanoReadGrid _ n => n = gridName o
  | _ => True
  end.

(** With a grid name no file is asked for all its grids, and without one no
    file is asked for a single grid. *)
Definition selects (o : Options) (e : Event) : Prop :=
  match e with
  | EvGetGrids _ | EvNanoReadGrids _ _ => gridName o = EmptyString
  | EvReadGrid _ _ | EvNanoReadGrid _ _ => gridName o <> EmptyString
  | _ => True
  end.

(** The only texts on [std::cout] of a run that is not verbose. *)
Definition quiet (outputFile : string) (e : Event) : Prop :=
  match e with
  | Stdout text =>
    text = overwrite_question outputFile
    \/ text = ("Please specify a different output file" ++ nl)%string
  | _ => True
  end.

(** The calls of the loop from OpenVDB to NanoVDB, and those of the loop
    from NanoVDB to OpenVDB. *)
Definition nano_side (e : Event) : Prop :=
  match e with
  | EvOfstream _ | EvFileOpen _ | EvGetGrids _ | EvReadGrid _ _
  | EvOpenToNano _ _ _ _ | EvWriteGrid _ _ _ => True
  | _ => False
  end.

Definition open_side (e : Event) : Prop :=
  match e with
  | EvNanoReadGrids _ _ | EvNanoReadGrid _ _ | EvNanoToOpen _ | EvFileWrite _ _ => True
  | _ => False
  end.

(** What the files of a list hold together, in order; [None] if one of
    them does not deliver. *)
Fixpoint all_delivered {A} (deliver : string -> option (list A)) (files : list string)
  : option (list A) :=
  match files with
  | [] => Some []
  | f :: files' =>
    match deliver f, all_delivered deliver files' with
    | Some a, Some b => Some (a ++ b)
    | _, _ => None
    end
  end.

(** The handles that the library delivers for a NanoVDB file to a run with
    the variables [o]: those of all the grids of the file, or that of the one
    grid of the name asked for.  [None]: the library throws, or the file has
    no grid of that name. *)
Definition delivered_handles (o : Options) (f : string) : option (list GridHandle) :=
  if empty (gridName o) then
    match readGrids f (verbose o) with
    | Ok handles => Some handles
    | Raise _ => None
    end
  else
    match readGrid f (gridName o) with
    | Ok handle => if handle_bool handle then Some [handle] else None
    | Raise _ => None
    end.

(** The grids that the library delivers for an OpenVDB file: all the grids
    of the file, or the one grid of the name asked for.  [None]: the library
    throws. *)
Definition delivered_grids (o : Options) (f : string) : option (list OpenGrid) :=
  match file_open f with
  | Ok _ =>
    if empty (gridName o) then
      match file_getGrids f with
      | Ok grids => Some grids
      | Raise _ => None
      end
    else
      match file_readGrid f (gridName o) with
      | Ok grid => Some [grid]
      | Raise _ => None
      end
  | Raise _ => None
  end.

(** The OpenVDB grids of a list of handles, as [nanoToOpenVDB] translates
    them; [None] if it throws on one of them. *)
Fixpoint translate_all (handles : list GridHandle) : option (list OpenGrid) :=
  match handles with
  | [] => Some []
  | h :: handles' =>
    match nanoToOpenVDB h, translate_all handles' with
    | Ok g, Some gs => Some (g :: gs)
    | _, _ => None
    end
  end.

(** For each grid of a list, the call that encodes it with the modes of [o]
    and, right after it, the call that writes the handle so obtained to the
    stream on [outputFile] with the codec of [o]; [None] if one of the two
    throws on one of the grids. *)
Fixpoint encode_all (o : Options) (outputFile : string) (grids : list OpenGrid)
  : option (list Event) :=
  match grids with
  | [] => Some []
  | g :: grids' =>
    match openToNanoVDB g (sMode o) (cMode o) false (verbosity o) with
    | Ok h =>
      match writeGrid outputFile h (codec o), encode_all o outputFile grids' with
      | Ok _, Some calls =>
        Some (EvOpenToNano g (sMode o) (cMode o) (verbosity o)
              :: EvWriteGrid outputFile h (codec o) :: calls)
      | _, _ => None
      end
    | Raise _ => None
    end
  end.

(** The handles that the calls of a trace hand to [nanoToOpenVDB], in
    order. *)
Fixpoint handles_translated (t : list Event) : list GridHandle :=
  match t with
  | [] => []
  | EvNanoToOpen h :: t' => h :: handles_translated t'
  | _ :: t' => handles_translated t'
  end.

(** The calls of a trace that encode a grid or write one to the stream, in
    order. *)
Fixpoint stream_calls (t : list Event) : list Event :=
  match t with
  | [] => []
  | EvOpenToNano g s c v :: t' => EvOpenToNano g s c v :: stream_calls t'
  | EvWriteGrid p h c :: t' => EvWriteGrid p h c :: stream_calls t'
  | _ :: t' => stream_calls t'
  end.

(** A computation inside the [try] block that has said nothing on
    [std::cerr] if it goes on, and that exits only with [EXIT_FAILURE] and a
    text on [std::cerr] as its last call. *)
Definition reported {A} (m : M A) : Prop :=
  match fst m with
  | Ret _ => Forall not_stderr (snd m)
  | Exit s => s = EXIT_FAILURE /\ ends_in_stderr (snd m)
  | Throw _ => True
  end.

(** The ways in which [main] can end, and what the trace is like then. *)
Definition settled (argv : list string) (m : M Z) : Prop :=
  match fst m with
  | Ret s => (s = EXIT_SUCCESS /\ Forall not_stderr (snd m))
             \/ (s = EXIT_FAILURE /\ ends_in_stderr (snd m))
  | Exit s => (s = EXIT_FAILURE /\ ends_in_stderr (snd m)) \/ s = EXIT_SUCCESS
  | Throw _ => extension (last (operands argv) EmptyString) = None
  end.

End Observers.

(** ** Runs on the sample installation *)

Module Runs.

Import Sample.

(** The overwrite question for a given output path, ahead of the answer. *)
Definition asked (outputFile answer : string) : list (@Event library) :=
  [EvIfstream outputFile; Stdout (overwrite_question outputFile); EvGetline answer].

Definition declined_text : string := "Please specify a different output file" ++ nl.

(** The calls that convert [a.vdb] into the stream on [out.nvdb]. *)
Definition a_vdb_to_stream (c : checksum) : list (@Event library) :=
  [EvFileOpen "a.vdb"; EvGetGrids "a.vdb";
   EvOpenToNano (L := library) "density" stats_all c 0;
   EvWriteGrid (L := library) "out.nvdb" (Some "density") none;
   EvOpenToNano (L := library) "temperature" stats_all c 0;
   EvWriteGrid (L := library) "out.nvdb" (Some "temperature") none].

(** The variables of [main] after the arguments [-z a.vdb out.nvdb]. *)
Definition zipped : @Options library :=
  push_back_file "out.nvdb"
    (push_back_file "a.vdb" (set_codec (L := library) zip initial)).

End Runs.

(** * Properties *)

(** Case analysis on the name of an argument, and on a lowered word. *)
Ltac by_name arg :=
  repeat match goal with
         | |- context [String.eqb arg ?s] =>
           destruct (String.eqb_spec arg s) as [->|?]
         end.

Ltac by_word w :=
  repeat match goal with
         | |- context [String.eqb w ?s] => destruct (String.eqb w s)
         end.

Ltac resume IH :=
  rewrite IH;
  match goal with
  | |- context [for_each_acc ?l ?f ?a] => destruct (for_each_acc l f a)
  end;
  reflexivity.

Section Properties.

Context {L : Library}.

(** ** The monad *)

Lemma bind_ret_l {A B} (a : A) (k : A -> M B) : bind (ret a) k = k a.
Proof. unfold bind, ret. destruct (k a); reflexivity. Qed.

Lemma bind_Ret_nil {A B} (a : A) (k : A -> M B) : bind (Ret a, []) k = k a.
Proof. exact (bind_ret_l a k). Qed.

Lemma usage_eq {A} (progName : string) (s : Z) :
  @usage L A progName s = (Exit s, [Stderr (usage_text progName)]).
Proof. reflexivity. Qed.

(** ** The argument loop reads the command line item by item *)

(** Induction on an argument vector of which a step may consume one or two
    arguments. *)
Lemma argv_ind (P : list string -> Prop) :
  P [] ->
  (forall arg rest, P rest -> P (tl rest) -> P (arg :: rest)) ->
  forall argv, P argv.
Proof.
  intros Hnil Hstep argv.
  assert (H : P argv /\ P (tl argv)).
  { induction argv as [|arg rest [IH1 IH2]]; simpl; auto. }
  apply H.
Qed.

Lemma parse_items (progName : string) (argv : list string) :
  forall o, parse progName argv o = apply_items progName (items argv) o.
Proof.
  induction argv as [|arg rest IH1 IH2] using argv_ind; intro o.
  - reflexivity.
  - unfold apply_items in *.
    cbn [parse items]. unfold takes_value.
    by_name arg; cbn;
      first [ reflexivity
            | solve [resume IH1]
            | destruct rest as [|value rest']; [reflexivity|];
              cbn in IH2 |- *; try unfold checksum_of_word; try unfold stats_of_word;
              by_word (transform_tolower value); cbn;
              first [reflexivity | solve [resume IH2]]
            | idtac ].
    destruct (first_is_dash arg) eqn:Hdash; cbn.
    + unfold codec_of_flag.
      repeat match goal with
             | H : arg <> ?s |- _ =>
               apply String.eqb_neq in H; rewrite ?H; clear H
             end.
      reflexivity.
    + destruct (empty arg); cbn; resume IH1.
Qed.

Lemma bind_Ret_inv {A B} (m : M A) (k : A -> M B) (b : B) (t : list Event) :
  bind m k = (Ret b, t) ->
  exists a t1 t2, m = (Ret a, t1) /\ k a = (Ret b, t2) /\ t = t1 ++ t2.
Proof.
  destruct m as [[a|s|e] t1]; cbn; try discriminate.
  destruct (k a) as [r t2] eqn:Hk. intros H; inversion H; subst.
  exists a, t1, t2. auto.
Qed.

Lemma apply_items_app (progName : string) (a b : list Item) :
  forall o, apply_items progName (a ++ b) o
            = (o' <- apply_items progName a o ;; apply_items progName b o').
Proof.
  unfold apply_items.
  induction a as [|it a IH]; intro o; cbn [app for_each_acc].
  - now rewrite bind_ret_l.
  - destruct (apply_item progName it o) as [[o1|s|e] t]; cbn; try reflexivity.
    rewrite IH.
    destruct (for_each_acc a _ o1) as [[o2|s|e] t2]; cbn; try reflexivity.
    destruct (for_each_acc b _ o2) as [r t3]. now rewrite app_assoc.
Qed.

(** One item either updates the variables silently, or ends the run through
    [usage]; only the help flag ends it with the success status. *)
Inductive item_outcome (progName : string) (it : Item) (o : Options)
  : M Options -> Prop :=
| item_goes_on o' :
    is_help it = false ->
    fileNames o' = fileNames o ++ operands_of [it] ->
    item_outcome progName it o (Ret o', [])
| item_exits s t :
    Forall is_stderr t ->
    s = EXIT_FAILURE \/ (s = EXIT_SUCCESS /\ is_help it = true) ->
    item_outcome progName it o (Exit s, t ++ [Stderr (usage_text progName)]).

Lemma is_stderr_Stderr (text : string) : is_stderr (Stderr text).
Proof. now exists text. Qed.

Lemma apply_item_outcome (progName : string) (it : Item) (o : Options) :
  item_outcome progName it o (apply_item progName it o).
Proof.
  pose proof is_stderr_Stderr as Herr.
  destruct it as [n|n v|n|p|]; cbn [apply_item].
  - destruct ((n =? "-v") || (n =? "--verbose")) eqn:Hv.
    { apply item_goes_on; cbn; [|now rewrite app_nil_r].
      apply orb_true_iff in Hv as [H|H]; apply String.eqb_eq in H; now subst. }
    destruct ((n =? "-f") || (n =? "--force")) eqn:Hf.
    { apply item_goes_on; cbn; [|now rewrite app_nil_r].
      apply orb_true_iff in Hf as [H|H]; apply String.eqb_eq in H; now subst. }
    destruct ((n =? "-h") || (n =? "--help")) eqn:Hh.
    { apply (item_exits progName _ _ EXIT_SUCCESS []); cbn; auto. }
    destruct (codec_of_flag n).
    + apply item_goes_on; cbn; [assumption|now rewrite app_nil_r].
    + apply (item_exits progName _ _ EXIT_FAILURE [_]); auto.
  - destruct ((n =? "-c") || (n =? "--checksum")).
    { destruct (checksum_of_word _).
      - apply item_goes_on; cbn; [reflexivity|now rewrite app_nil_r].
      - apply (item_exits progName _ _ EXIT_FAILURE [_]); auto. }
    destruct ((n =? "-s") || (n =? "--stats")).
    { destruct (stats_of_word _).
      - apply item_goes_on; cbn; [reflexivity|now rewrite app_nil_r].
      - apply (item_exits progName _ _ EXIT_FAILURE [_]); auto. }
    destruct ((n =? "-g") || (n =? "--grid")).
    + apply item_goes_on; cbn; [reflexivity|now rewrite app_nil_r].
    + apply (item_exits progName _ _ EXIT_FAILURE [_]); auto.
  - destruct ((n =? "-c") || (n =? "--checksum"));
      [|destruct ((n =? "-s") || (n =? "--stats"))];
      apply (item_exits progName _ _ EXIT_FAILURE [_]); auto.
  - apply item_goes_on; reflexivity.
  - apply item_goes_on; cbn; [reflexivity|now rewrite app_nil_r].
Qed.

(** The same for a whole command line. *)
Inductive items_outcome (progName : string) (its : list Item) (o : Options)
  : M Options -> Prop :=
| items_go_on o' :
    existsb is_help its = false ->
    fileNames o' = fileNames o ++ operands_of its ->
    items_outcome progName its o (Ret o', [])
| items_exit s t :
    Forall is_stderr t ->
    s = EXIT_FAILURE \/ (s = EXIT_SUCCESS /\ existsb is_help its = true) ->
    items_outcome progName its o (Exit s, t ++ [Stderr (usage_text progName)]).

Lemma operands_of_app (a b : list Item) :
  operands_of (a ++ b) = operands_of a ++ operands_of b.
Proof.
  induction a as [|it a IH]; [reflexivity|].
  destruct it; cbn; now rewrite ?IH.
Qed.

Lemma apply_items_outcome (progName : string) (its : list Item) :
  forall o, items_outcome progName its o (apply_items progName its o).
Proof.
  unfold apply_items.
  induction its as [|it its IH]; intro o; cbn [for_each_acc].
  - apply items_go_on; cbn; [reflexivity|now rewrite app_nil_r].
  - destruct (apply_item_outcome progName it o) as [o1 Hh Hf|s t Ht Hs].
    + rewrite bind_Ret_nil.
      destruct (IH o1) as [o2 Hh2 Hf2|s t Ht Hs].
      * apply items_go_on; cbn; [now rewrite Hh, Hh2|].
        rewrite Hf2, Hf, <- app_assoc, <- operands_of_app. reflexivity.
      * apply items_exit; [assumption|].
        destruct Hs as [Hs|[Hs Hh2]]; [now left|right].
        cbn. now rewrite Hh2, orb_true_r.
    + cbn. apply items_exit; [assumption|].
      destruct Hs as [Hs|[Hs Hh]]; [now left|right]. cbn. now rewrite Hh.
Qed.

Lemma parse_outcome (progName : string) (argv : list string) (o : Options) :
  items_outcome progName (items argv) o (parse progName argv o).
Proof. rewrite parse_items. apply apply_items_outcome. Qed.

(** A successful parse says nothing on [std::cerr]. *)
Lemma parse_Ret_silent (progName : string) (argv : list string) (o o' : Options)
  (t : list Event) :
  parse progName argv o = (Ret o', t) -> t = [].
Proof.
  intro H. pose proof (parse_outcome progName argv o) as Ho. rewrite H in Ho.
  inversion Ho. reflexivity.
Qed.

Lemma parse_Ret_fileNames (progName : string) (argv : list string) (o : Options)
  (t : list Event) :
  parse progName argv initial = (Ret o, t) -> fileNames o = operands argv.
Proof.
  intro H. pose proof (parse_outcome progName argv initial) as Ho. rewrite H in Ho.
  inversion Ho; subst. assumption.
Qed.

Lemma complain_usage_eq {A} (progName text : string) (s : Z) :
  (complain text ;; @usage L A progName s)
  = (Exit s, [Stderr (text ++ nl ++ nl); Stderr (usage_text progName)]).
Proof. reflexivity. Qed.

(** A complaint followed by [usage] ends the run, whatever was to come. *)
Lemma complain_usage {A B} (progName text : string) (s : Z) (k : A -> M B) :
  bind (complain text ;; usage progName s) k
  = (Exit s, [Stderr (text ++ nl ++ nl); Stderr (usage_text progName)]).
Proof. reflexivity. Qed.

(** ** Too few file names *)

(** C5, as the program has it: with fewer than two file-path operands on the
    command line the run prints the usage text on [std::cerr] and exits; it
    has said nothing but complaints before, and the status is [EXIT_FAILURE]
    unless the help flag is among the options, the only way to the status
    [EXIT_SUCCESS]. *)
Theorem few_operands_end_in_usage (progName : string) (argv : list string) (w : World) :
  (length (operands argv) < 2)%nat ->
  exists s t,
    main progName argv w = (Exit s, t ++ [Stderr (usage_text progName)])
    /\ Forall is_stderr t
    /\ (s = EXIT_FAILURE \/ (s = EXIT_SUCCESS /\ help_given argv = true)).
Proof.
  intro Hfew. unfold main.
  destruct (parse_outcome progName argv initial) as [o Hh Hf|s t Ht Hs].
  - rewrite bind_Ret_nil.
    cbn [fileNames initial app] in Hf. fold (operands argv) in Hf.
    apply Nat.ltb_lt in Hfew. rewrite Hf, Hfew. cbn [when].
    rewrite complain_usage.
    exists EXIT_FAILURE. eexists [_]. split; [reflexivity|].
    split; [|now left]. constructor; [apply is_stderr_Stderr|constructor].
  - exists s, t. repeat split; assumption.
Qed.

End Properties.

Section Options_last_wins.

Context {L : Library}.

Lemma codec_flag_iff (name : string) :
  is_codec_flag (Flag name) = true <-> exists c, codec_of_flag name = Some c.
Proof.
  unfold is_codec_flag, codec_of_flag.
  destruct (name =? "-b"), (name =? "--blosc"), (name =? "-z"), (name =? "--zip");
    cbn; split; intro H; try reflexivity; try discriminate; try (now eexists);
    destruct H as [c H]; discriminate.
Qed.

(** An item leaves alone the variables that are not its own. *)
Lemma apply_item_frame (progName : string) (it : Item) (o o' : Options) (t : list Event) :
  apply_item progName it o = (Ret o', t) ->
  (is_codec_flag it = false -> codec o' = codec o)
  /\ (is_checksum_option it = false -> cMode o' = cMode o)
  /\ (is_stats_option it = false -> sMode o' = sMode o)
  /\ (is_grid_option it = false -> gridName o' = gridName o).
Proof.
  destruct it as [n|n v|n|p|]; cbn [apply_item].
  - destruct ((n =? "-v") || (n =? "--verbose"));
      [intro H; inversion H; subst; cbn; auto|].
    destruct ((n =? "-f") || (n =? "--force"));
      [intro H; inversion H; subst; cbn; auto|].
    destruct ((n =? "-h") || (n =? "--help")); [discriminate|].
    destruct (codec_of_flag n) as [c|] eqn:Hc;
      [|rewrite complain_usage_eq; discriminate].
    intro H; inversion H; subst; cbn [codec cMode sMode gridName set_codec].
    repeat split; try reflexivity.
    intro Hn. assert (Ht : is_codec_flag (Flag n) = true)
      by (apply codec_flag_iff; now exists c).
    rewrite Ht in Hn. discriminate.
  - cbn [is_codec_flag is_checksum_option is_stats_option is_grid_option].
    destruct ((n =? "-c") || (n =? "--checksum")) eqn:Hc.
    { destruct (checksum_of_word _); [|rewrite complain_usage_eq; discriminate].
      intro H; inversion H; subst; cbn. repeat split; auto; discriminate. }
    destruct ((n =? "-s") || (n =? "--stats")) eqn:Hs.
    { destruct (stats_of_word _); [|rewrite complain_usage_eq; discriminate].
      intro H; inversion H; subst; cbn. repeat split; auto; discriminate. }
    destruct ((n =? "-g") || (n =? "--grid")) eqn:Hg;
      [|rewrite complain_usage_eq; discriminate].
    intro H; inversion H; subst; cbn. repeat split; auto; discriminate.
  - intro H. exfalso. revert H.
    destruct ((n =? "-c") || (n =? "--checksum"));
      [|destruct ((n =? "-s") || (n =? "--stats"))]; discriminate.
  - intro H; inversion H; subst; cbn; auto.
  - intro H; inversion H; subst; cbn; auto.
Qed.

Lemma apply_items_frame (progName : string) (its : list Item) :
  forall o o' t,
    apply_items progName its o = (Ret o', t) ->
    (forallb (fun i => negb (is_codec_flag i)) its = true -> codec o' = codec o)
    /\ (forallb (fun i => negb (is_checksum_option i)) its = true -> cMode o' = cMode o)
    /\ (forallb (fun i => negb (is_stats_option i)) its = true -> sMode o' = sMode o)
    /\ (forallb (fun i => negb (is_grid_option i)) its = true -> gridName o' = gridName o).
Proof.
  unfold apply_items.
  induction its as [|it its IH]; intros o o' t H; cbn [for_each_acc forallb] in *.
  - inversion H; subst. auto.
  - apply bind_Ret_inv in H as (o1 & t1 & t2 & H1 & H2 & _).
    apply apply_item_frame in H1 as (Fc & Fk & Fs & Fg).
    apply IH in H2 as (Ic & Ik & Is & Ig).
    repeat split; intro Hall; apply andb_true_iff in Hall as [Hit Hall];
      apply negb_true_iff in Hit.
    + now rewrite Ic, Fc.
    + now rewrite Ik, Fk.
    + now rewrite Is, Fs.
    + now rewrite Ig, Fg.
Qed.

Lemma codec_flag_is_no_other (n : string) (c : Codec) :
  codec_of_flag n = Some c ->
  (n =? "-v") || (n =? "--verbose") = false
  /\ (n =? "-f") || (n =? "--force") = false
  /\ (n =? "-h") || (n =? "--help") = false.
Proof.
  unfold codec_of_flag.
  destruct (String.eqb_spec n "-b") as [->|?]; [now cbn|].
  destruct (String.eqb_spec n "--blosc") as [->|?]; [now cbn|].
  destruct (String.eqb_spec n "-z") as [->|?]; [now cbn|].
  destruct (String.eqb_spec n "--zip") as [->|?]; [now cbn|].
  discriminate.
Qed.

Lemma stats_is_no_checksum (n : string) :
  (n =? "-s") || (n =? "--stats") = true ->
  (n =? "-c") || (n =? "--checksum") = false.
Proof.
  destruct (String.eqb_spec n "-s") as [->|?]; [now cbn|].
  destruct (String.eqb_spec n "--stats") as [->|?]; [now cbn|].
  discriminate.
Qed.

Lemma grid_is_no_mode (n : string) :
  (n =? "-g") || (n =? "--grid") = true ->
  (n =? "-c") || (n =? "--checksum") = false
  /\ (n =? "-s") || (n =? "--stats") = false.
Proof.
  destruct (String.eqb_spec n "-g") as [->|?]; [now cbn|].
  destruct (String.eqb_spec n "--grid") as [->|?]; [now cbn|].
  discriminate.
Qed.

(** What an item sets. *)
Lemma apply_item_sets (progName : string) (it : Item) (o o' : Options) (t : list Event) :
  apply_item progName it o = (Ret o', t) ->
  (forall name c, it = Flag name -> codec_of_flag name = Some c -> codec o' = c)
  /\ (forall name value, it = Valued name value -> is_checksum_option it = true ->
      checksum_of_word (transform_tolower value) = Some (cMode o'))
  /\ (forall name value, it = Valued name value -> is_stats_option it = true ->
      stats_of_word (transform_tolower value) = Some (sMode o'))
  /\ (forall name value, it = Valued name value -> is_grid_option it = true ->
      gridName o' = value).
Proof.
  intro H. split; [|split; [|split]].
  - intros n c E Hc; subst it. cbn [apply_item] in H.
    destruct (codec_flag_is_no_other n c Hc) as (Hv & Hf & Hh).
    rewrite Hv, Hf, Hh, Hc in H. now inversion H.
  - intros n value E Hc; subst it. cbn [apply_item is_checksum_option] in *.
    rewrite Hc in H.
    destruct (checksum_of_word _); [now inversion H|].
    rewrite complain_usage_eq in H. discriminate.
  - intros n value E Hs; subst it. cbn [apply_item is_stats_option] in *.
    rewrite (stats_is_no_checksum n Hs), Hs in H.
    destruct (stats_of_word _); [now inversion H|].
    rewrite complain_usage_eq in H. discriminate.
  - intros n value E Hg; subst it. cbn [apply_item is_grid_option] in *.
    destruct (grid_is_no_mode n Hg) as (Hc & Hs).
    rewrite Hc, Hs, Hg in H. now inversion H.
Qed.

(** C10: the arguments are read from left to right and a later option
    overrides an earlier one.  If the parse goes through, then for the last
    codec flag among the items of the command line (one after which no
    [-b], [--blosc], [-z] or [--zip] follows as a flag) the codec in use is
    the one of that flag; and for the last [-c], the last [-s] and the last
    [-g] option, the checksum mode, the statistics mode and the grid name in
    use are the ones that its value names. *)
Theorem last_option_wins (progName : string) (argv : list string) (o : Options)
  (t : list Event) (before after : list Item) (it : Item) :
  parse progName argv initial = (Ret o, t) ->
  items argv = before ++ it :: after ->
  (forall name c,
      it = Flag name -> codec_of_flag name = Some c ->
      forallb (fun i => negb (is_codec_flag i)) after = true ->
      codec o = c)
  /\ (forall name value,
      it = Valued name value -> is_checksum_option it = true ->
      forallb (fun i => negb (is_checksum_option i)) after = true ->
      checksum_of_word (transform_tolower value) = Some (cMode o))
  /\ (forall name value,
      it = Valued name value -> is_stats_option it = true ->
      forallb (fun i => negb (is_stats_option i)) after = true ->
      stats_of_word (transform_tolower value) = Some (sMode o))
  /\ (forall name value,
      it = Valued name value -> is_grid_option it = true ->
      forallb (fun i => negb (is_grid_option i)) after = true ->
      gridName o = value).
Proof.
  intros Hparse Hitems.
  rewrite parse_items, Hitems, apply_items_app in Hparse.
  apply bind_Ret_inv in Hparse as (o1 & t1 & t2 & _ & H & _).
  unfold apply_items in H. cbn [for_each_acc] in H.
  apply bind_Ret_inv in H as (o2 & t3 & t4 & Hit & Hafter & _).
  apply apply_item_sets in Hit as (Sc & Sk & Ss & Sg).
  apply (apply_items_frame progName after) in Hafter as (Fc & Fk & Fs & Fg).
  split; [|split; [|split]].
  - intros name c E Hc Hlast. rewrite (Fc Hlast). eauto.
  - intros name value E Hk Hlast. rewrite (Fk Hlast). eauto.
  - intros name value E Hs Hlast. rewrite (Fs Hlast). eauto.
  - intros name value E Hg Hlast. rewrite (Fg Hlast). eauto.
Qed.

End Options_last_wins.

Section Mode_words.

Context {L : Library}.

(** ** Letter case of the mode words *)

Lemma same_letter_tolower (a b : ascii) :
  same_letter a b = true -> tolower a = tolower b.
Proof.
  unfold same_letter, is_upper, tolower.
  destruct (Ascii.eqb_spec a b) as [->|_]; [reflexivity|]. cbn [orb].
  intro H. apply orb_true_iff in H as [H|H];
    apply andb_true_iff in H as [Hup H]; apply N.eqb_eq in H;
    rewrite Hup; apply andb_true_iff in Hup as [Hlo Hhi];
    apply N.leb_le in Hlo, Hhi.
  - replace ((65 <=? N_of_ascii b)%N && (N_of_ascii b <=? 90)%N) with false.
    + now rewrite <- H, ascii_N_embedding.
    + symmetry. apply andb_false_iff. right. apply N.leb_gt. lia.
  - replace ((65 <=? N_of_ascii a)%N && (N_of_ascii a <=? 90)%N) with false.
    + now rewrite <- H, ascii_N_embedding.
    + symmetry. apply andb_false_iff. right. apply N.leb_gt. lia.
Qed.

Lemma same_letters_tolower (s u : string) :
  same_letters s u = true -> transform_tolower s = transform_tolower u.
Proof.
  revert u. induction s as [|a s IH]; intros [|b u]; cbn; try discriminate; auto.
  intro H. apply andb_true_iff in H as [Ha Hs].
  now rewrite (same_letter_tolower a b Ha), (IH u Hs).
Qed.

Lemma same_letter_with_tolower (a : ascii) : same_letter a (tolower a) = true.
Proof.
  unfold same_letter, tolower, is_upper.
  destruct ((65 <=? N_of_ascii a)%N && (N_of_ascii a <=? 90)%N) eqn:Hup.
  - apply andb_true_iff in Hup as [Hlo Hhi]. apply N.leb_le in Hlo, Hhi.
    rewrite N_ascii_embedding by lia. rewrite N.eqb_refl. cbn.
    now rewrite orb_true_r.
  - now rewrite Ascii.eqb_refl.
Qed.

Lemma same_letters_with_tolower (s : string) :
  same_letters s (transform_tolower s) = true.
Proof.
  induction s as [|a s IH]; cbn; [reflexivity|].
  now rewrite same_letter_with_tolower, IH.
Qed.

Lemma tolower_is_mode_word (value : string) (words : list string) :
  In (transform_tolower value) words -> is_mode_word value words = true.
Proof.
  intro H. apply existsb_exists. exists (transform_tolower value).
  split; [assumption|apply same_letters_with_tolower].
Qed.

Lemma checksum_of_word_Some (word : string) (m : ChecksumMode) :
  checksum_of_word word = Some m -> In word ["none"; "partial"; "full"].
Proof.
  unfold checksum_of_word.
  destruct (String.eqb_spec word "none"); [subst; cbn; auto|].
  destruct (String.eqb_spec word "partial"); [subst; cbn; auto|].
  destruct (String.eqb_spec word "full"); [subst; cbn; auto|].
  discriminate.
Qed.

Lemma stats_of_word_Some (word : string) (m : StatsMode) :
  stats_of_word word = Some m -> In word ["none"; "bbox"; "extrema"; "all"].
Proof.
  unfold stats_of_word.
  destruct (String.eqb_spec word "none"); [subst; cbn; auto|].
  destruct (String.eqb_spec word "bbox"); [subst; cbn; auto|].
  destruct (String.eqb_spec word "extrema"); [subst; cbn; auto|].
  destruct (String.eqb_spec word "all"); [subst; cbn; auto 6|].
  discriminate.
Qed.

Lemma checksum_of_word_None (word : string) :
  checksum_of_word word = None -> ~ In word ["none"; "partial"; "full"].
Proof.
  intros H [<-|[<-|[<-|[]]]]; discriminate.
Qed.

Lemma stats_of_word_None (word : string) :
  stats_of_word word = None -> ~ In word ["none"; "bbox"; "extrema"; "all"].
Proof.
  intros H [<-|[<-|[<-|[<-|[]]]]]; discriminate.
Qed.

(** The words of the two tables are in lower case already. *)
Lemma mode_word_lower (word : string) :
  In word ["none"; "partial"; "full"; "bbox"; "extrema"; "all"] ->
  transform_tolower word = word.
Proof.
  intros [<-|[<-|[<-|[<-|[<-|[<-|[]]]]]]]; reflexivity.
Qed.

(** One step of the loop on a mode option and its value. *)
Lemma parse_checksum (progName flag value : string) (rest : list string) (o : Options) :
  In flag ["-c"; "--checksum"] ->
  parse progName (flag :: value :: rest) o
  = match checksum_of_word (transform_tolower value) with
    | Some m => parse progName rest (set_cMode m o)
    | None =>
      (Exit EXIT_FAILURE,
       [Stderr ("Expected one of the following checksum modes: {none, partial, full}"
                ++ nl ++ nl);
        Stderr (usage_text progName)])
    end.
Proof.
  unfold checksum_of_word.
  intros [<-|[<-|[]]]; cbn [parse first_is_dash]; cbn -[usage_text parse];
    by_word (transform_tolower value); reflexivity.
Qed.

Lemma parse_stats (progName flag value : string) (rest : list string) (o : Options) :
  In flag ["-s"; "--stats"] ->
  parse progName (flag :: value :: rest) o
  = match stats_of_word (transform_tolower value) with
    | Some m => parse progName rest (set_sMode m o)
    | None =>
      (Exit EXIT_FAILURE,
       [Stderr ("Expected one of the following stats modes: {none, bbox, extrema, all}"
                ++ nl ++ nl);
        Stderr (usage_text progName)])
    end.
Proof.
  unfold stats_of_word.
  intros [<-|[<-|[]]]; cbn [parse first_is_dash]; cbn -[usage_text parse];
    by_word (transform_tolower value); reflexivity.
Qed.

Lemma parse_Ret_frame (progName : string) (argv : list string) (o o' : Options)
  (t : list Event) :
  parse progName argv o = (Ret o', t) ->
  (forallb (fun i => negb (is_checksum_option i)) (items argv) = true ->
   cMode o' = cMode o)
  /\ (forallb (fun i => negb (is_stats_option i)) (items argv) = true ->
      sMode o' = sMode o).
Proof.
  rewrite parse_items. intro H.
  destruct (apply_items_frame _ _ _ _ _ H) as (_ & Fk & Fs & _). auto.
Qed.

(** C9: the value of [-c] and of [-s] is compared after lowering its case.
    For a value that is one of the mode words up to the case of its letters
    ([FULL], [BBox], [None]), there is no usage error: the loop goes on with
    the next argument, and it does so with the variable [cMode], or [sMode],
    holding the mode that the word stands for and with every other variable
    as it was.  That mode is the one in use when the loop is through, unless
    a later [-c], or [-s], replaces it. *)
Theorem mode_value_in_any_case (progName value word : string) (rest : list string)
  (o : Options) :
  same_letters value word = true ->
  (forall m flag,
      In (word, m) [("none", ChecksumMode_Disable); ("partial", ChecksumMode_Partial);
                    ("full", ChecksumMode_Full)] ->
      In flag ["-c"; "--checksum"] ->
      parse progName (flag :: value :: rest) o
      = parse progName rest
          {| codec := codec o; sMode := sMode o; cMode := m; verbose := verbose o;
             overwrite := overwrite o; gridName := gridName o;
             fileNames := fileNames o |}
      /\ forall o' t,
          parse progName (flag :: value :: rest) o = (Ret o', t) ->
          forallb (fun i => negb (is_checksum_option i)) (items rest) = true ->
          cMode o' = m)
  /\ (forall m flag,
      In (word, m) [("none", StatsMode_Disable); ("bbox", StatsMode_BBox);
                    ("extrema", StatsMode_MinMax); ("all", StatsMode_All)] ->
      In flag ["-s"; "--stats"] ->
      parse progName (flag :: value :: rest) o
      = parse progName rest
          {| codec := codec o; sMode := m; cMode := cMode o; verbose := verbose o;
             overwrite := overwrite o; gridName := gridName o;
             fileNames := fileNames o |}
      /\ forall o' t,
          parse progName (flag :: value :: rest) o = (Ret o', t) ->
          forallb (fun i => negb (is_stats_option i)) (items rest) = true ->
          sMode o' = m).
Proof.
  intro Hsame. apply same_letters_tolower in Hsame.
  split; intros m flag Hword Hflag.
  - assert (Hstep : parse progName (flag :: value :: rest) o
                    = parse progName rest (set_cMode m o)).
    { rewrite (parse_checksum _ _ _ _ _ Hflag), Hsame.
      destruct Hword as [Hw|[Hw|[Hw|[]]]]; inversion Hw; subst; reflexivity. }
    split; [exact Hstep|].
    intros o' t Hparse Hlast. rewrite Hstep in Hparse.
    apply parse_Ret_frame in Hparse as [Fk _]. exact (Fk Hlast).
  - assert (Hstep : parse progName (flag :: value :: rest) o
                    = parse progName rest (set_sMode m o)).
    { rewrite (parse_stats _ _ _ _ _ Hflag), Hsame.
      destruct Hword as [Hw|[Hw|[Hw|[Hw|[]]]]]; inversion Hw; subst; reflexivity. }
    split; [exact Hstep|].
    intros o' t Hparse Hlast. rewrite Hstep in Hparse.
    apply parse_Ret_frame in Hparse as [_ Fs]. exact (Fs Hlast).
Qed.

End Mode_words.

Section Unknown_modes.

Context {L : Library}.

(** ** A parse that goes through can be cut at any option *)

Lemma apply_items_Ret_no_dangling (progName : string) (its : list Item) :
  forall o o' t n,
    apply_items progName its o = (Ret o', t) -> ~ In (Dangling n) its.
Proof.
  unfold apply_items.
  induction its as [|it its IH]; intros o o' t n H; [now intros []|].
  cbn [for_each_acc] in H.
  apply bind_Ret_inv in H as (o1 & t1 & t2 & H1 & H2 & _).
  intros [->|Hin].
  - cbn [apply_item] in H1. revert H1.
    destruct ((n =? "-c") || (n =? "--checksum"));
      [|destruct ((n =? "-s") || (n =? "--stats"))]; discriminate.
  - exact (IH _ _ _ n H2 Hin).
Qed.

Lemma items_app (before rest : list string) :
  (forall n, ~ In (Dangling n) (items before)) ->
  items (before ++ rest) = items before ++ items rest.
Proof.
  induction before as [|arg before IH1 IH2] using argv_ind; intro Hno;
    [reflexivity|].
  cbn [app items] in *.
  destruct (first_is_dash arg).
  - destruct (takes_value arg).
    + destruct before as [|value before'].
      * exfalso. apply (Hno arg). now left.
      * cbn [app tl] in *. f_equal. apply IH2.
        intros n Hin. apply (Hno n). now right.
    + cbn [app]. f_equal. apply IH1. intros n Hin. apply (Hno n). now right.
  - destruct (empty arg); cbn [app]; f_equal; apply IH1;
      intros n Hin; apply (Hno n); now right.
Qed.

Lemma parse_app (progName : string) (before rest : list string) (o0 o : Options)
  (t : list Event) :
  parse progName before o0 = (Ret o, t) ->
  parse progName (before ++ rest) o0 = parse progName rest o.
Proof.
  intro H. pose proof (parse_Ret_silent _ _ _ _ _ H) as ->.
  rewrite parse_items in H.
  rewrite !parse_items, items_app, apply_items_app, H.
  - apply bind_Ret_nil.
  - intros n. exact (apply_items_Ret_no_dangling _ _ _ _ _ n H).
Qed.

(** ** Values that are no mode word *)

(** C7, as the program has it: when the argument loop comes to [-c] (or
    [--checksum]) with a value that is, up to the case of its letters, none
    of [none], [partial], [full], or to [-s] (or [--stats]) with a value that
    is, up to the case of its letters, none of [none], [bbox], [extrema],
    [all], the run ends at once: it names the modes it expected, prints the
    usage text and exits with [EXIT_FAILURE].  No mode, default or other, is
    ever put to use.  The loop comes to the option when the arguments before
    it parse without ending the run. *)
Theorem unknown_mode_is_usage_error (progName : string) (before after : list string)
  (flag value : string) (w : World) (o : Options) (t : list Event) :
  parse progName before initial = (Ret o, t) ->
  (In flag ["-c"; "--checksum"] ->
   is_mode_word value ["none"; "partial"; "full"] = false ->
   main progName (before ++ flag :: value :: after) w
   = (Exit EXIT_FAILURE,
      [Stderr ("Expected one of the following checksum modes: {none, partial, full}"
               ++ nl ++ nl);
       Stderr (usage_text progName)]))
  /\ (In flag ["-s"; "--stats"] ->
      is_mode_word value ["none"; "bbox"; "extrema"; "all"] = false ->
      main progName (before ++ flag :: value :: after) w
      = (Exit EXIT_FAILURE,
         [Stderr ("Expected one of the following stats modes: {none, bbox, extrema, all}"
                  ++ nl ++ nl);
          Stderr (usage_text progName)])).
Proof.
  intro Hbefore. split; intros Hflag Hword; unfold main;
    rewrite (parse_app _ _ _ _ _ _ Hbefore).
  - rewrite (parse_checksum _ _ _ _ _ Hflag).
    destruct (checksum_of_word (transform_tolower value)) as [m|] eqn:Hm;
      [|reflexivity].
    apply checksum_of_word_Some, tolower_is_mode_word in Hm. congruence.
  - rewrite (parse_stats _ _ _ _ _ Hflag).
    destruct (stats_of_word (transform_tolower value)) as [m|] eqn:Hm;
      [|reflexivity].
    apply stats_of_word_Some, tolower_is_mode_word in Hm. congruence.
Qed.

End Unknown_modes.

(** ** The extension of a file name *)

Section Extension.

Lemma find_last_of_from_spec (s : string) (c : ascii) :
  forall i found,
    find_last_of_from s c i found
    = match last_index s c with
      | Some k => (i + Z.of_nat k)%Z
      | None => found
      end.
Proof.
  induction s as [|a s IH]; intros i found; cbn [find_last_of_from last_index];
    [reflexivity|].
  rewrite IH. destruct (last_index s c) as [k|].
  - lia.
  - destruct (Ascii.eqb a c); [lia|reflexivity].
Qed.

Lemma last_index_lt (s : string) (c : ascii) (k : nat) :
  last_index s c = Some k -> (k < String.length s)%nat.
Proof.
  revert k. induction s as [|a s IH]; intros k; cbn; [discriminate|].
  destruct (last_index s c) as [j|].
  - intro H; inversion H; subst. specialize (IH j eq_refl). lia.
  - destruct (Ascii.eqb a c); [|discriminate]. intro H; inversion H. lia.
Qed.

(** A name that fits a [std::string] always has an extension, and it is what
    follows the last dot. *)
Lemma extension_spec (f : string) :
  (Z.of_nat (String.length f) < size_max)%Z ->
  extension f = Some (after_last_dot f).
Proof.
  intro Hsize. unfold extension, find_last_of, after_last_dot, substr, wrap.
  rewrite find_last_of_from_spec.
  destruct (last_index f "."%char) as [k|] eqn:Hk.
  - apply last_index_lt in Hk.
    rewrite Z.mod_small by lia.
    destruct (Z.leb_spec (0 + Z.of_nat k + 1) (Z.of_nat (String.length f))); [|lia].
    do 2 f_equal. lia.
  - unfold npos. replace (size_max - 1 + 1)%Z with size_max by lia.
    rewrite Z.mod_same by (unfold size_max; lia).
    destruct (Z.leb_spec 0 (Z.of_nat (String.length f))); [reflexivity|lia].
Qed.

Lemma last_index_after (stem e : string) (c : ascii) :
  last_index e c = None ->
  last_index (stem ++ String c e) c = Some (String.length stem).
Proof.
  intro He. induction stem as [|a stem IH]; cbn.
  - now rewrite He, Ascii.eqb_refl.
  - now rewrite IH.
Qed.

Lemma drop_after (stem e : string) (c : ascii) :
  drop (S (String.length stem)) (stem ++ String c e) = e.
Proof. induction stem as [|a stem IH]; cbn; [reflexivity|exact IH]. Qed.

(** The extension of [stem.e] is [e] when [e] has no dot, and a name without
    any dot is its own extension. *)
Lemma after_last_dot_stem (stem e : string) :
  last_index e "."%char = None -> after_last_dot (stem ++ String "."%char e) = e.
Proof.
  intro He. unfold after_last_dot. rewrite (last_index_after _ _ _ He).
  apply drop_after.
Qed.

Lemma extension_no_dot (f : string) :
  last_index f "."%char = None -> extension f = Some f.
Proof.
  intro Hf. unfold extension, find_last_of, substr, wrap.
  rewrite find_last_of_from_spec, Hf.
  unfold npos. replace (size_max - 1 + 1)%Z with size_max by lia.
  rewrite Z.mod_same by (unfold size_max; lia).
  destruct (Z.leb_spec 0 (Z.of_nat (String.length f))); [reflexivity|lia].
Qed.

Lemma last_index_split (f : string) (c : ascii) :
  forall k,
    last_index f c = Some k ->
    last_index (drop (S k) f) c = None
    /\ exists stem : string, f = (stem ++ String c (drop (S k) f))%string.
Proof.
  induction f as [|a f IH]; intros k; cbn [last_index]; [discriminate|].
  destruct (last_index f c) as [j|] eqn:Hj.
  - intro H; inversion H; subst k. destruct (IH j eq_refl) as [Hnone [stem Hstem]].
    cbn [drop]. split; [exact Hnone|].
    exists (String a stem). cbn [append]. f_equal. exact Hstem.
  - destruct (Ascii.eqb_spec a c) as [->|_]; [|discriminate].
    intro H; inversion H; subst k. cbn [drop]. split; [exact Hj|].
    now exists EmptyString.
Qed.

(** For a name that fits a [std::string], the extension that [main]
    computes is the extension that the name has. *)
Lemma has_extension_extension (f ext : string) :
  fits f -> has_extension f ext -> extension f = Some ext.
Proof.
  intros Hfit [Hno [->|[stem ->]]].
  - now apply extension_no_dot.
  - rewrite (extension_spec _ Hfit). f_equal. now apply after_last_dot_stem.
Qed.

Lemma has_extension_total (f : string) : exists ext, has_extension f ext.
Proof.
  exists (after_last_dot f). unfold has_extension, after_last_dot.
  destruct (last_index f "."%char) as [k|] eqn:Hk.
  - destruct (last_index_split f "."%char k Hk) as [Hnone Hstem]. auto.
  - auto.
Qed.

End Extension.

(** ** After the arguments: direction and overwrite guard *)

Section Guard.

Context {L : Library}.

Lemma apply_item_overwrite (progName : string) (it : Item) (o o' : Options)
  (t : list Event) :
  apply_item progName it o = (Ret o', t) ->
  overwrite o' = overwrite o || is_force it.
Proof.
  destruct it as [n|n v|n|p|]; cbn [apply_item is_force].
  - destruct (String.eqb_spec n "-v") as [->|?];
      [cbn; intro H; inversion H; subst; cbn; now rewrite orb_false_r|].
    destruct (String.eqb_spec n "--verbose") as [->|?];
      [cbn; intro H; inversion H; subst; cbn; now rewrite orb_false_r|].
    cbn [orb].
    destruct ((n =? "-f") || (n =? "--force")).
    { intro H; inversion H; subst; cbn. now rewrite orb_true_r. }
    destruct ((n =? "-h") || (n =? "--help")); [discriminate|].
    destruct (codec_of_flag n); [|rewrite complain_usage_eq; discriminate].
    intro H; inversion H; subst; cbn. now rewrite orb_false_r.
  - destruct ((n =? "-c") || (n =? "--checksum")).
    { destruct (checksum_of_word _); [|rewrite complain_usage_eq; discriminate].
      intro H; inversion H; subst; cbn. now rewrite orb_false_r. }
    destruct ((n =? "-s") || (n =? "--stats")).
    { destruct (stats_of_word _); [|rewrite complain_usage_eq; discriminate].
      intro H; inversion H; subst; cbn. now rewrite orb_false_r. }
    destruct ((n =? "-g") || (n =? "--grid"));
      [|rewrite complain_usage_eq; discriminate].
    intro H; inversion H; subst; cbn. now rewrite orb_false_r.
  - intro H. exfalso. revert H.
    destruct ((n =? "-c") || (n =? "--checksum"));
      [|destruct ((n =? "-s") || (n =? "--stats"))]; discriminate.
  - intro H; inversion H; subst; cbn. now rewrite orb_false_r.
  - intro H; inversion H; subst; cbn. now rewrite orb_false_r.
Qed.

Lemma apply_items_overwrite (progName : string) (its : list Item) :
  forall o o' t,
    apply_items progName its o = (Ret o', t) ->
    overwrite o' = overwrite o || existsb is_force its.
Proof.
  unfold apply_items.
  induction its as [|it its IH]; intros o o' t H; cbn [for_each_acc existsb] in *.
  - inversion H; subst. now rewrite orb_false_r.
  - apply bind_Ret_inv in H as (o1 & t1 & t2 & H1 & H2 & _).
    apply apply_item_overwrite in H1. apply IH in H2.
    now rewrite H2, H1, orb_assoc.
Qed.

(** [overwrite] is set exactly when the force flag is given. *)
Lemma parse_Ret_overwrite (progName : string) (argv : list string) (o : Options)
  (t : list Event) :
  parse progName argv initial = (Ret o, t) -> overwrite o = force_given argv.
Proof.
  rewrite parse_items. intro H. apply apply_items_overwrite in H. exact H.
Qed.

(** Where [main] stands once the arguments are parsed, there are two file
    names at least, and the last one has an extension. *)
Lemma main_parsed (progName : string) (argv : list string) (w : World) (o : Options)
  (t : list Event) (ext : string) :
  parse progName argv initial = (Ret o, t) ->
  (2 <= length (fileNames o))%nat ->
  extension (last (fileNames o) EmptyString) = Some ext ->
  main progName argv w
  = (toNanoVDB <- classify progName ext ;;
     overwrite_guard w o (last (fileNames o) EmptyString) ;;
     after_guard progName o toNanoVDB).
Proof.
  intros Hparse Hlen Hext. unfold main.
  pose proof (parse_Ret_silent _ _ _ _ _ Hparse) as ->.
  rewrite Hparse, bind_Ret_nil.
  destruct (Nat.ltb_spec (length (fileNames o)) 2) as [Hlt|_]; [lia|].
  cbn [when]. rewrite bind_ret_l, Hext, bind_ret_l. reflexivity.
Qed.

End Guard.

Section Overwrite.

Context {L : Library}.

Lemma main_classified (progName : string) (argv : list string) (w : World) (o : Options)
  (t : list Event) (ext : string) (toNanoVDB : bool) :
  parse progName argv initial = (Ret o, t) ->
  (2 <= length (operands argv))%nat ->
  extension (last (operands argv) EmptyString) = Some ext ->
  classify progName ext = ret toNanoVDB ->
  main progName argv w
  = (overwrite_guard w o (last (operands argv) EmptyString) ;;
     after_guard progName o toNanoVDB).
Proof.
  intros Hparse Hlen Hext Hclass.
  rewrite <- (parse_Ret_fileNames _ _ _ _ Hparse) in *.
  rewrite (main_parsed _ _ w _ _ _ Hparse Hlen Hext), Hclass.
  now rewrite bind_ret_l.
Qed.

Lemma classify_known (progName ext : string) :
  In ext ["nvdb"; "vdb"] ->
  classify progName ext = ret (ext =? "nvdb").
Proof. intros [<-|[<-|[]]]; reflexivity. Qed.

Lemma after_guard_starts (progName : string) (o : Options) (toNanoVDB : bool) :
  exists r t, after_guard progName o toNanoVDB = (r, EvInitialize :: t).
Proof.
  unfold after_guard, emit, bind.
  destruct (try_catch _) as [r t].
  exists r, t. reflexivity.
Qed.

(** The answers that line 138 refuses are those outside the list. *)
Lemma refused_spec (answer : string) :
  refused answer = false <-> In answer accepted_answers.
Proof.
  unfold refused, accepted_answers. split.
  - destruct answer as [|c answer]; [cbn; auto|]. cbn [empty negb andb].
    destruct (String.eqb_spec (String c answer) "Y") as [->|?]; [cbn; auto|].
    destruct (String.eqb_spec (String c answer) "y") as [->|?]; [cbn; auto|].
    destruct (String.eqb_spec (String c answer) "yes") as [->|?]; [cbn; auto|].
    destruct (String.eqb_spec (String c answer) "YES") as [->|?]; [cbn; auto 6|].
    discriminate.
  - intros [<-|[<-|[<-|[<-|[<-|[]]]]]]; reflexivity.
Qed.

Lemma refused_true (answer : string) :
  ~ In answer accepted_answers -> refused answer = true.
Proof.
  intro H. destruct (refused answer) eqn:Hr; [reflexivity|].
  apply refused_spec in Hr. contradiction.
Qed.

(** The guard, case by case. *)
Lemma guard_asks (w : World) (o : Options) (outputFile : string) (c : ascii)
  (content : string) :
  overwrite o = false ->
  disk w outputFile = Some (String c content) ->
  overwrite_guard w o outputFile
  = (emit (EvIfstream outputFile) ;;
     emit (Stdout (overwrite_question outputFile)) ;;
     emit (EvGetline (stdin_line w)) ;;
     if refused (stdin_line w) then
       emit (Stdout ("Please specify a different output file" ++ nl)) ;;
       exit EXIT_SUCCESS
     else ret tt).
Proof.
  intros Hforce Hdisk. unfold overwrite_guard, peek_not_eof.
  now rewrite Hforce, Hdisk.
Qed.

Lemma main_asks (progName : string) (argv : list string) (w : World) (o : Options)
  (t : list Event) (ext : string) (c : ascii) (content : string) :
  parse progName argv initial = (Ret o, t) ->
  (2 <= length (operands argv))%nat ->
  extension (last (operands argv) EmptyString) = Some ext ->
  In ext ["nvdb"; "vdb"] ->
  force_given argv = false ->
  disk w (last (operands argv) EmptyString) = Some (String c content) ->
  let outputFile := last (operands argv) EmptyString in
  let asked := [EvIfstream outputFile; Stdout (overwrite_question outputFile);
                EvGetline (stdin_line w)] in
  (In (stdin_line w) accepted_answers ->
   exists r t', main progName argv w = (r, asked ++ EvInitialize :: t'))
  /\ (~ In (stdin_line w) accepted_answers ->
      main progName argv w
      = (Exit EXIT_SUCCESS,
         asked ++ [Stdout ("Please specify a different output file" ++ nl)])).
Proof.
  intros Hparse Hlen Hext Hknown Hforce Hdisk outputFile asked.
  rewrite (main_classified _ _ w _ _ _ _ Hparse Hlen Hext (classify_known _ _ Hknown)).
  rewrite <- (parse_Ret_overwrite _ _ _ _ Hparse) in Hforce.
  rewrite (guard_asks _ _ _ _ _ Hforce Hdisk).
  split; intro Hanswer.
  - apply refused_spec in Hanswer. rewrite Hanswer.
    destruct (after_guard_starts progName o (ext =? "nvdb")) as (r & t' & ->).
    exists r, t'. reflexivity.
  - rewrite (refused_true _ Hanswer). reflexivity.
Qed.

(** C2, as the program has it: without the force flag and with an output
    path that names a file with something in it, the run opens the file,
    asks, and reads a line.  It goes on to the conversion exactly when the
    line is empty or is one of [Y], [y], [yes], [YES]; on any other line,
    [Yes] and [yEs] among them, it says to name another output file and
    exits with [EXIT_SUCCESS]. *)
Theorem overwrite_prompt_answers (progName : string) (argv : list string) (w : World)
  (o : Options) (t : list Event) (ext : string) (c : ascii) (content : string) :
  parse progName argv initial = (Ret o, t) ->
  (2 <= length (operands argv))%nat ->
  extension (last (operands argv) EmptyString) = Some ext ->
  In ext ["nvdb"; "vdb"] ->
  force_given argv = false ->
  disk w (last (operands argv) EmptyString) = Some (String c content) ->
  let outputFile := last (operands argv) EmptyString in
  let asked := [EvIfstream outputFile; Stdout (overwrite_question outputFile);
                EvGetline (stdin_line w)] in
  (In (stdin_line w) [EmptyString; "Y"; "y"; "yes"; "YES"] ->
   exists r t', main progName argv w = (r, asked ++ EvInitialize :: t'))
  /\ (~ In (stdin_line w) [EmptyString; "Y"; "y"; "yes"; "YES"] ->
      main progName argv w
      = (Exit EXIT_SUCCESS,
         asked ++ [Stdout ("Please specify a different output file" ++ nl)])).
Proof. exact (main_asks progName argv w o t ext c content). Qed.

(** ** Traces that write no file leave the disk as it is *)

Lemma disk_after_unwritten (d d' : string -> option string) (tr : list Event) :
  disk_after d tr d' ->
  forall p, (forall e, In e tr -> written_path e <> Some p) -> d' p = d p.
Proof.
  induction 1 as [d|d e tr d' He Hrest IH|d e q d1 tr d' He Hd1 Hrest IH];
    intros p Hp.
  - reflexivity.
  - apply IH. intros e' Hin. apply Hp. now right.
  - rewrite IH by (intros e' Hin; apply Hp; now right).
    apply Hd1. intros ->. apply (Hp e); [now left|assumption].
Qed.

(** C8: with an output file that is there and not empty, and without the
    force flag, the run asks; on an answer that declines ([n], or any line
    other than the empty one, [Y], [y], [yes] and [YES]) it exits with
    status 0 and has made no call that writes a file, so that every file,
    the output file among them, holds the bytes it held before. *)
Theorem declined_overwrite_keeps_output (progName : string) (argv : list string)
  (w : World) (o : Options) (t : list Event) (ext : string) (c : ascii)
  (content : string) :
  parse progName argv initial = (Ret o, t) ->
  (2 <= length (operands argv))%nat ->
  extension (last (operands argv) EmptyString) = Some ext ->
  In ext ["nvdb"; "vdb"] ->
  force_given argv = false ->
  disk w (last (operands argv) EmptyString) = Some (String c content) ->
  ~ In (stdin_line w) [EmptyString; "Y"; "y"; "yes"; "YES"] ->
  let outputFile := last (operands argv) EmptyString in
  exists tr,
    main progName argv w = (Exit 0, tr)
    /\ In (Stdout (overwrite_question outputFile)) tr
    /\ (forall e, In e tr -> written_path e = None)
    /\ (forall d', disk_after (disk w) tr d' ->
                   d' outputFile = Some (String c content)
                   /\ forall p, d' p = disk w p).
Proof.
  intros Hparse Hlen Hext Hknown Hforce Hdisk Hanswer outputFile.
  destruct (main_asks progName argv w o t ext c content
              Hparse Hlen Hext Hknown Hforce Hdisk) as [_ Hmain].
  specialize (Hmain Hanswer). cbn [app] in Hmain.
  eexists. split; [exact Hmain|].
  assert (Hquiet : forall e,
             In e [EvIfstream outputFile; Stdout (overwrite_question outputFile);
                   EvGetline (stdin_line w);
                   Stdout ("Please specify a different output file" ++ nl)] ->
             written_path e = None).
  { intros e [<-|[<-|[<-|[<-|[]]]]]; reflexivity. }
  split; [cbn; auto|]. split; [exact Hquiet|].
  intros d' Hd'.
  assert (Hsame : forall p, d' p = disk w p).
  { intro p. apply (disk_after_unwritten _ _ _ Hd').
    intros e Hin. rewrite (Hquiet e Hin). discriminate. }
  split; [|exact Hsame]. now rewrite Hsame.
Qed.

End Overwrite.

(** ** Properties of every call of a computation *)

Section Traces.

Context {L : Library}.

Variable P : Event -> Prop.

Lemma bind_Forall {A B} (m : M A) (k : A -> M B) :
  Forall P (snd m) -> (forall a, Forall P (snd (k a))) -> Forall P (snd (bind m k)).
Proof.
  destruct m as [[a|s|e] t]; cbn; intros Hm Hk; try assumption.
  specialize (Hk a). destruct (k a) as [r t']. cbn in *.
  apply Forall_app. auto.
Qed.

Lemma for_each_Forall {A} (l : list A) (body : A -> M unit) :
  (forall x, In x l -> Forall P (snd (body x))) -> Forall P (snd (for_each l body)).
Proof.
  induction l as [|x l IH]; intro H; cbn [for_each]; [constructor|].
  apply bind_Forall; [apply H; now left|].
  intros _. apply IH. intros y Hy. apply H. now right.
Qed.

Lemma for_each_acc_Forall {A S} (l : list A) (body : S -> A -> M S) :
  (forall acc x, In x l -> Forall P (snd (body acc x))) ->
  forall acc, Forall P (snd (for_each_acc l body acc)).
Proof.
  induction l as [|x l IH]; intros H acc; cbn [for_each_acc]; [constructor|].
  apply bind_Forall; [apply H; now left|].
  intros acc'. apply IH. intros a y Hy. apply H. now right.
Qed.

Lemma try_catch_Forall (body : M unit) :
  (forall text, P (Stderr text)) ->
  Forall P (snd body) -> Forall P (snd (try_catch body)).
Proof.
  intros Herr. destruct body as [[[]|s|[what|]] t]; cbn; intro H; try assumption;
    apply Forall_app; split; auto.
Qed.

End Traces.

(** Splits a goal on all the calls of a computation into one goal a call. *)
Ltac each_call :=
  repeat match goal with
         | |- Forall _ (snd (bind _ _)) => apply bind_Forall; [|intro]
         | |- Forall _ (snd (for_each _ _)) => apply for_each_Forall; intros
         | |- Forall _ (snd (for_each_acc _ _ _)) => apply for_each_acc_Forall; intros
         | |- Forall _ (snd (try_catch _)) => apply try_catch_Forall; [intro|]
         | |- Forall _ (snd (when ?b _)) => destruct b; cbn [when]
         | |- Forall _ (snd (if ?b then _ else _)) => destruct b
         | |- Forall _ (snd (call _ ?r)) => destruct r; cbn [call snd]
         | |- Forall _ (snd (emit _)) => cbn [emit snd]
         | |- Forall _ (snd (ret _)) => constructor
         | |- Forall _ (snd (exit _)) => constructor
         | |- Forall _ (snd (throw _)) => constructor
         | |- Forall _ (snd (usage _ _)) => rewrite usage_eq; cbn [snd]
         | |- Forall _ (snd (complain _)) => cbn [complain emit snd]
         | |- Forall _ (snd (extension_or_throw ?f)) =>
           unfold extension_or_throw; destruct (extension f); cbn [ret throw snd]
         | |- Forall _ (_ :: _) => constructor
         | |- Forall _ [] => constructor
         end.

Section No_write.

Context {L : Library}.

Lemma overwrite_guard_no_write (w : World) (o : Options) (outputFile : string) :
  Forall no_write (snd (overwrite_guard w o outputFile)).
Proof.
  unfold overwrite_guard. cbv zeta. each_call; reflexivity.
Qed.

Lemma decode_handle_no_write (o : Options) (grids : list OpenGrid) (h : GridHandle) :
  Forall no_write (snd (decode_handle o grids h)).
Proof. unfold decode_handle. each_call; reflexivity. Qed.

Lemma toOpen_file_no_write (progName : string) (o : Options) (grids : list OpenGrid)
  (inputFile : string) :
  Forall no_write (snd (toOpen_file progName o grids inputFile)).
Proof.
  unfold toOpen_file. each_call; try reflexivity;
    try apply decode_handle_no_write.
Qed.

Lemma toOpen_loop_no_write (progName : string) (o : Options) (inputs : list string)
  (grids : list OpenGrid) :
  Forall no_write (snd (for_each_acc inputs (toOpen_file progName o) grids)).
Proof. each_call. apply toOpen_file_no_write. Qed.

Lemma version_note_no_write (o : Options) : Forall no_write (snd (version_note o)).
Proof. unfold version_note. each_call. reflexivity. Qed.

End No_write.

(** ** A grid name that no input file knows *)

Section Unmatched.

Context {L : Library}.

Lemma fails_bind {A B} (m : M A) (k : A -> M B) : fails m -> fails (bind m k).
Proof.
  destruct m as [[a|s|e] t]; intros [H|[e' H]]; cbn in *; try discriminate.
  - left. inversion H; subst. reflexivity.
  - right. now exists e.
Qed.

Lemma fails_after {A B} (a : A) (t : list Event) (k : A -> M B) :
  fails (k a) -> fails (bind (Ret a, t) k).
Proof.
  unfold fails. cbn. destruct (k a) as [r t']. cbn. auto.
Qed.

Lemma try_catch_fails (body : M unit) :
  fails body -> exit_status (fst (try_catch body)) = Some EXIT_FAILURE.
Proof.
  destruct body as [[[]|s|[what|]] t]; intros [H|[e H]]; cbn in *;
    try discriminate; try reflexivity.
  inversion H; subst. reflexivity.
Qed.

Lemma fails_bind_snd {A B} (m : M A) (k : A -> M B) :
  fails m -> snd (bind m k) = snd m.
Proof.
  destruct m as [[a|s|e] t]; intros [H|[e' H]]; cbn in *; try discriminate;
    reflexivity.
Qed.

(** With a grid name, a NanoVDB file without a grid of that name ends the
    loop: lines 185 to 203. *)
Lemma toOpen_file_unmatched (progName : string) (o : Options) (grids : list OpenGrid)
  (inputFile : string) :
  empty (gridName o) = false ->
  (forall h, readGrid inputFile (gridName o) = Ok h -> handle_bool h = false) ->
  fails (toOpen_file progName o grids inputFile).
Proof.
  intros Hname Hnone. unfold toOpen_file, extension_or_throw.
  destruct (extension inputFile) as [ext|]; [|right; now eexists].
  rewrite bind_ret_l.
  destruct (negb (ext =? "nvdb")); cbn [when].
  { rewrite complain_usage. now left. }
  rewrite bind_ret_l.
  destruct (when (verbose o) _) as [r tv] eqn:Hv.
  assert (r = Ret tt) as ->.
  { revert Hv. destruct (verbose o); cbn; intro H; inversion H; reflexivity. }
  apply fails_after. rewrite Hname.
  destruct (readGrid inputFile (gridName o)) as [h|e] eqn:Hread; cbn [call].
  - apply fails_after. rewrite (Hnone h eq_refl). cbn [negb when].
    rewrite complain_usage. now left.
  - right. now eexists.
Qed.

Lemma guard_outcome (w : World) (o : Options) (outputFile : string) :
  (exists tg, overwrite_guard w o outputFile = (Ret tt, tg))
  \/ (exists tg, overwrite_guard w o outputFile = (Exit EXIT_SUCCESS, tg)
                 /\ overwrite o = false
                 /\ (exists c content, disk w outputFile = Some (String c content))
                 /\ ~ In (stdin_line w) accepted_answers).
Proof.
  unfold overwrite_guard, peek_not_eof.
  destruct (overwrite o); [left; now eexists|]. cbn [negb].
  destruct (disk w outputFile) as [[|c content]|]; try (left; now eexists).
  destruct (refused (stdin_line w)) eqn:Hr; [|left; now eexists].
  right. eexists. split; [reflexivity|]. split; [reflexivity|].
  split; [now exists c, content|].
  intro Hin. apply refused_spec in Hin. congruence.
Qed.

Lemma removelast_two {A} (l : list A) :
  (2 <= length l)%nat -> exists x rest, removelast l = x :: rest.
Proof.
  destruct l as [|x [|y l]]; cbn [length]; try lia. intros _.
  exists x, (removelast (y :: l)). reflexivity.
Qed.

(** C4, as the program has it: with a grid name, in the direction from
    NanoVDB to OpenVDB, and with no grid of that name in any input file, the
    run makes no call that writes a file, so that the output file is neither
    written nor overwritten; and it ends with the status [EXIT_FAILURE],
    unless the user has declined at the overwrite prompt, which ends it with
    [EXIT_SUCCESS] before any input is looked at. *)
Theorem unmatched_grid_name (progName : string) (argv : list string) (w : World)
  (o : Options) (t : list Event) :
  parse progName argv initial = (Ret o, t) ->
  (2 <= length (operands argv))%nat ->
  extension (last (operands argv) EmptyString) = Some "vdb" ->
  gridName o <> EmptyString ->
  (forall f h, In f (removelast (operands argv)) ->
               readGrid f (gridName o) = Ok h -> handle_bool h = false) ->
  let outputFile := last (operands argv) EmptyString in
  exists r tr,
    main progName argv w = (r, tr)
    /\ Forall no_write tr
    /\ (forall d', disk_after (disk w) tr d' -> d' outputFile = disk w outputFile)
    /\ (exit_status r = Some EXIT_FAILURE
        \/ (r = Exit EXIT_SUCCESS
            /\ force_given argv = false
            /\ (exists c content, disk w outputFile = Some (String c content))
            /\ ~ In (stdin_line w) [EmptyString; "Y"; "y"; "yes"; "YES"])).
Proof.
  intros Hparse Hlen Hext Hname Hnone outputFile.
  assert (Hmain := main_classified progName argv w o t "vdb" false Hparse Hlen Hext
                     eq_refl).
  fold outputFile in Hmain.
  (* the loop stops in its first round *)
  set (body := convert progName o false (last (fileNames o) EmptyString)
                 (removelast (fileNames o))).
  assert (Hbody : fails body /\ Forall no_write (snd body)).
  { unfold body, convert, toOpen.
    rewrite (parse_Ret_fileNames _ _ _ _ Hparse).
    destruct (removelast_two (operands argv) Hlen) as (f & rest & Hins).
    rewrite Hins in *.
    assert (Hloop : fails (for_each_acc (f :: rest) (toOpen_file progName o) [])).
    { cbn [for_each_acc]. apply fails_bind. apply toOpen_file_unmatched.
      - destruct (gridName o); [congruence|reflexivity].
      - intros h. apply Hnone. now left. }
    split.
    - now apply fails_bind, fails_bind.
    - rewrite !fails_bind_snd
        by first [exact Hloop | apply fails_bind; exact Hloop].
      apply toOpen_loop_no_write. }
  destruct Hbody as [Hfail Hquiet].
  assert (Hafter : exists r1 t1, after_guard progName o false = (r1, t1)
                                 /\ exit_status r1 = Some EXIT_FAILURE
                                 /\ Forall no_write t1).
  { unfold after_guard. fold body.
    pose proof (try_catch_fails body Hfail) as Hstatus.
    pose proof (try_catch_Forall no_write body (fun _ => eq_refl) Hquiet) as Htq.
    destruct (try_catch body) as [r1 t1]. cbn in Hstatus, Htq.
    exists r1, (EvInitialize :: t1). repeat split; [assumption|].
    constructor; [reflexivity|assumption]. }
  destruct Hafter as (r1 & t1 & Hafter & Hstatus & Ht1).
  pose proof (overwrite_guard_no_write w o outputFile) as Hg.
  assert (Hshape : exists r tr,
             main progName argv w = (r, tr) /\ Forall no_write tr
             /\ (exit_status r = Some EXIT_FAILURE
                 \/ (r = Exit EXIT_SUCCESS
                     /\ force_given argv = false
                     /\ (exists c content,
                            disk w outputFile = Some (String c content))
                     /\ ~ In (stdin_line w) [EmptyString; "Y"; "y"; "yes"; "YES"]))).
  { rewrite Hmain, Hafter.
    destruct (guard_outcome w o outputFile)
      as [(tg & Hguard)|(tg & Hguard & Hforce & Hfile & Hanswer)];
      rewrite Hguard in *; cbn in Hg |- *.
    - exists r1, (tg ++ t1). repeat split; [now apply Forall_app|now left].
    - exists (Exit EXIT_SUCCESS), tg. repeat split; [assumption|right].
      rewrite <- (parse_Ret_overwrite _ _ _ _ Hparse). auto. }
  destruct Hshape as (r & tr & Hrun & Htr & Hstat).
  exists r, tr. repeat split; try assumption.
  intros d' Hd'. apply (disk_after_unwritten _ _ _ Hd').
  intros e Hin. rewrite Forall_forall in Htr. rewrite (Htr e Hin). discriminate.
Qed.

End Unmatched.

(** ** An input with the wrong extension, towards NanoVDB *)

Section Mismatch.

Context {L : Library}.

Lemma for_each_app {A} (a b : list A) (body : A -> M unit) :
  for_each (a ++ b) body = (for_each a body ;; for_each b body).
Proof.
  induction a as [|x a IH]; cbn [app for_each].
  - now rewrite bind_ret_l.
  - rewrite IH. destruct (body x) as [[[]|s|e] t]; cbn; try reflexivity.
    destruct (for_each a body) as [[[]|s|e] t1]; cbn; try reflexivity.
    destruct (for_each b body) as [r t2]. now rewrite app_assoc.
Qed.

Lemma toNano_file_mismatch (progName : string) (o : Options)
  (outputFile inputFile ext : string) :
  extension inputFile = Some ext -> ext <> "vdb" ->
  toNano_file progName o outputFile inputFile
  = (Exit EXIT_FAILURE, [Stderr expected_vdb; Stderr (usage_text progName)]).
Proof.
  intros Hext Hne. unfold toNano_file, extension_or_throw.
  rewrite Hext, bind_ret_l.
  apply String.eqb_neq in Hne. rewrite Hne. cbn [negb when].
  now rewrite complain_usage.
Qed.

Lemma encode_grid_opens (o : Options) (outputFile : string) (grid : OpenGrid) :
  Forall opens_vdb_only (snd (encode_grid o outputFile grid)).
Proof. unfold encode_grid. each_call; intros p Hp; discriminate. Qed.

Lemma toNano_file_opens (progName : string) (o : Options)
  (outputFile inputFile : string) :
  Forall opens_vdb_only (snd (toNano_file progName o outputFile inputFile)).
Proof.
  unfold toNano_file, extension_or_throw.
  destruct (extension inputFile) as [ext|] eqn:Hext; [|constructor].
  rewrite bind_ret_l.
  destruct (String.eqb_spec ext "vdb") as [->|Hne]; cbn [negb when].
  - rewrite bind_ret_l.
    each_call; try apply encode_grid_opens; intros p Hp; try discriminate;
      inversion Hp; subst; assumption.
  - rewrite complain_usage. cbn. repeat constructor; intros p Hp; discriminate.
Qed.

Lemma overwrite_guard_opens (w : World) (o : Options) (outputFile : string) :
  Forall opens_vdb_only (snd (overwrite_guard w o outputFile)).
Proof.
  unfold overwrite_guard. cbv zeta. each_call; intros p Hp; discriminate.
Qed.

Lemma toNano_file_Ret_opened (progName : string) (o : Options)
  (outputFile inputFile : string) (t : list Event) :
  toNano_file progName o outputFile inputFile = (Ret tt, t) ->
  In (EvFileOpen inputFile) t.
Proof.
  unfold toNano_file. intro H.
  apply bind_Ret_inv in H as (ext & t1 & t2 & _ & H & ->).
  apply bind_Ret_inv in H as (? & t3 & t4 & _ & H & ->).
  apply bind_Ret_inv in H as (? & t5 & t6 & _ & H & ->).
  apply bind_Ret_inv in H as (? & t7 & t8 & H & _ & ->).
  destruct (file_open inputFile); cbn [call] in H; inversion H; subst.
  rewrite !in_app_iff. right. right. right. left. now left.
Qed.

Lemma toNano_loop_Ret_opened (progName : string) (o : Options) (outputFile : string)
  (inputs : list string) :
  forall t,
    for_each inputs (toNano_file progName o outputFile) = (Ret tt, t) ->
    forall f, In f inputs -> In (EvFileOpen f) t.
Proof.
  induction inputs as [|x inputs IH]; intros t H f Hf; [destruct Hf|].
  cbn [for_each] in H.
  apply bind_Ret_inv in H as ([] & t1 & t2 & Hx & Hrest & ->).
  apply in_app_iff. destruct Hf as [->|Hf].
  - left. exact (toNano_file_Ret_opened _ _ _ _ _ Hx).
  - right. exact (IH _ Hrest f Hf).
Qed.

(** C1, as the program has it.  The output path has the extension [nvdb],
    the overwrite guard lets the run go on, and [bad] is the first input
    file whose extension is not [vdb], the inputs before it being converted
    without an exception.  Then the run ends in the usage error for [bad],
    which is never opened.  But by then the run has opened the output stream,
    which creates or truncates the output file, and has opened every input
    before [bad] and made the calls [tb] that convert its grids and write
    them to the stream. *)
Theorem mismatched_input_stops_the_run (progName : string) (argv : list string)
  (w : World) (o : Options) (t tg tb : list Event) (before after : list string)
  (bad ext : string) :
  parse progName argv initial = (Ret o, t) ->
  (2 <= length (operands argv))%nat ->
  extension (last (operands argv) EmptyString) = Some "nvdb" ->
  let outputFile := last (operands argv) EmptyString in
  overwrite_guard w o outputFile = (Ret tt, tg) ->
  removelast (operands argv) = before ++ bad :: after ->
  for_each before (toNano_file progName o outputFile) = (Ret tt, tb) ->
  extension bad = Some ext -> ext <> "vdb" ->
  let tr := tg ++ EvInitialize :: EvOfstream outputFile :: tb
               ++ [Stderr expected_vdb; Stderr (usage_text progName)] in
  main progName argv w = (Exit EXIT_FAILURE, tr)
  /\ (forall f, In f before -> In (EvFileOpen f) tb)
  /\ ~ In (EvFileOpen bad) tr.
Proof.
  intros Hparse Hlen Hout outputFile Hguard Hinputs Hbefore Hbad Hne tr.
  split; [|split].
  - rewrite (main_classified progName argv w o t "nvdb" true Hparse Hlen Hout eq_refl).
    fold outputFile. rewrite Hguard.
    unfold after_guard, convert, toNano.
    rewrite (parse_Ret_fileNames _ _ _ _ Hparse). fold outputFile.
    rewrite Hinputs, for_each_app, Hbefore. cbn [for_each].
    rewrite (toNano_file_mismatch _ _ _ _ _ Hbad Hne).
    cbn. unfold tr. reflexivity.
  - exact (toNano_loop_Ret_opened _ _ _ _ _ Hbefore).
  - intro Hin. unfold tr in Hin.
    pose proof (overwrite_guard_opens w o outputFile) as Hg.
    rewrite Hguard in Hg. cbn [snd] in Hg.
    assert (Hb : Forall opens_vdb_only tb).
    { change tb with (snd (Ret tt, tb)). rewrite <- Hbefore.
      each_call. apply toNano_file_opens. }
    assert (Hopen : extension bad = Some "vdb").
    { rewrite Forall_forall in Hg, Hb.
      apply in_app_iff in Hin as [Hin|[Hin|[Hin|Hin]]]; try discriminate.
      - exact (Hg _ Hin bad eq_refl).
      - apply in_app_iff in Hin as [Hin|[Hin|[Hin|[]]]]; try discriminate.
        exact (Hb _ Hin bad eq_refl). }
    congruence.
Qed.

End Mismatch.

(** ** The two ways of writing the output *)

Section Strategies.

Context {L : Library}.

Lemma files_read_app (a b : list Event) :
  files_read (a ++ b) = files_read a ++ files_read b.
Proof.
  induction a as [|e a IH]; [reflexivity|].
  destruct e; cbn; now rewrite ?IH.
Qed.

Lemma translated_app (a b : list Event) :
  translated (a ++ b) = translated a ++ translated b.
Proof.
  induction a as [|e a IH]; [reflexivity|].
  destruct e; cbn; rewrite ?IH; try reflexivity.
  destruct (nanoToOpenVDB handle); now rewrite ?IH.
Qed.

Lemma plain_trace (t : list Event) :
  Forall plain t ->
  Forall no_write t /\ files_read t = [] /\ translated t = []
  /\ Forall (fun e => ~ is_encode e) t /\ Forall (fun e => ~ is_file_write e) t.
Proof.
  induction 1 as [|e t He Ht (IH1 & IH2 & IH3 & IH4 & IH5)]; [repeat split; constructor|].
  destruct e; cbn in He; try contradiction; cbn;
    repeat split; try assumption; constructor; try assumption;
    try reflexivity; intros [].
Qed.

Lemma overwrite_guard_plain (w : World) (o : Options) (outputFile : string) :
  Forall plain (snd (overwrite_guard w o outputFile)).
Proof. unfold overwrite_guard. cbv zeta. each_call; exact I. Qed.

Lemma version_note_plain (o : Options) : Forall plain (snd (version_note o)).
Proof. unfold version_note. each_call. exact I. Qed.

(** Two ways to cut a list at an element of a kind that occurs once. *)
Lemma split_unique {A} (Q : A -> Prop) (a b t1 t2 : list A) (x y : A) :
  Forall (fun e => ~ Q e) a -> Forall (fun e => ~ Q e) b -> Q y ->
  a ++ x :: b = t1 ++ y :: t2 ->
  t1 = a /\ y = x /\ t2 = b.
Proof.
  intros Ha Hb Hy. revert t1.
  induction a as [|e a IH]; intros t1 H; cbn in H.
  - destruct t1 as [|e1 t1]; cbn in H; inversion H; subst; [auto|].
    exfalso. rewrite Forall_forall in Hb. apply (Hb y); [|assumption].
    apply in_app_iff. right. now left.
  - inversion Ha as [|? ? He Ha']; subst.
    destruct t1 as [|e1 t1]; cbn in H; inversion H; subst; [contradiction|].
    destruct (IH Ha' t1) as (-> & -> & ->); auto.
Qed.

Lemma no_split {A} (Q : A -> Prop) (t t1 t2 : list A) (y : A) :
  Forall (fun e => ~ Q e) t -> Q y -> t <> t1 ++ y :: t2.
Proof.
  intros Ht Hy ->. rewrite Forall_forall in Ht. apply (Ht y); [|assumption].
  apply in_app_iff. right. now left.
Qed.

(** *** From NanoVDB to OpenVDB: the loop collects, [file.write] comes last *)

Lemma when_verbose_plain (b : bool) (text : string) :
  exists tv, when b (emit (Stdout text)) = (Ret tt, tv) /\ Forall plain tv.
Proof.
  destruct b; cbn; eexists; split; try reflexivity; repeat constructor.
Qed.

Lemma decode_handle_Ret (o : Options) (grids gs : list OpenGrid) (h : GridHandle)
  (t : list Event) :
  decode_handle o grids h = (Ret gs, t) ->
  files_read t = [] /\ gs = grids ++ translated t.
Proof.
  unfold decode_handle.
  destruct (when_verbose_plain (verbose o)
              ("Converting NanoVDB grid named " ++ dquote ++ gridName_of h ++ dquote
               ++ " to OpenVDB" ++ nl)) as (tv & -> & Hv).
  apply plain_trace in Hv as (_ & Hr & Ht & _).
  destruct (nanoToOpenVDB h) as [g|e] eqn:Hg; cbn; intro H; inversion H; subst.
  rewrite files_read_app, translated_app, Hr, Ht. cbn. now rewrite Hg.
Qed.

Lemma decode_loop_Ret (o : Options) (handles : list GridHandle) :
  forall grids gs t,
    for_each_acc handles (decode_handle o) grids = (Ret gs, t) ->
    files_read t = [] /\ gs = grids ++ translated t.
Proof.
  induction handles as [|h handles IH]; intros grids gs t H; cbn [for_each_acc] in H.
  - inversion H; subst. cbn. now rewrite app_nil_r.
  - apply bind_Ret_inv in H as (g1 & t1 & t2 & H1 & H2 & ->).
    apply decode_handle_Ret in H1 as [Hr1 ->].
    apply IH in H2 as [Hr2 ->].
    now rewrite files_read_app, translated_app, Hr1, Hr2, app_assoc.
Qed.

Lemma when_usage_Ret (b : bool) (progName text : string) (t : list Event) :
  when b (complain text ;; usage progName EXIT_FAILURE) = (Ret tt, t) -> t = [].
Proof.
  destruct b; cbn [when]; [rewrite complain_usage_eq; discriminate|].
  intro H; inversion H; reflexivity.
Qed.

Lemma toOpen_file_Ret (progName : string) (o : Options) (grids gs : list OpenGrid)
  (inputFile : string) (t : list Event) :
  toOpen_file progName o grids inputFile = (Ret gs, t) ->
  files_read t = [inputFile] /\ gs = grids ++ translated t.
Proof.
  unfold toOpen_file. intro H.
  apply bind_Ret_inv in H as (ext & t1 & t2 & Hext & H & ->).
  assert (t1 = []) as ->.
  { unfold extension_or_throw in Hext.
    destruct (extension inputFile); inversion Hext; reflexivity. }
  apply bind_Ret_inv in H as ([] & t3 & t4 & Hu & H & ->).
  apply when_usage_Ret in Hu as ->.
  apply bind_Ret_inv in H as ([] & t5 & t6 & Hv & H & ->).
  destruct (when_verbose_plain (verbose o)
              ("Opening NanoVDB file named " ++ dquote ++ inputFile ++ dquote ++ nl))
    as (tv & Hv' & Hplain).
  rewrite Hv' in Hv. inversion Hv; subst t5.
  apply plain_trace in Hplain as (_ & Hr & Ht & _).
  cbn [app]. rewrite files_read_app, translated_app, Hr, Ht. cbn [app].
  destruct (empty (gridName o)).
  - apply bind_Ret_inv in H as (handles & t7 & t8 & Hcall & H & ->).
    destruct (readGrids inputFile (verbose o)); cbn [call] in Hcall;
      inversion Hcall; subst.
    apply decode_loop_Ret in H as [Hr8 ->]. cbn. now rewrite Hr8.
  - apply bind_Ret_inv in H as (h & t7 & t8 & Hcall & H & ->).
    destruct (readGrid inputFile (gridName o)); cbn [call] in Hcall;
      inversion Hcall; subst.
    apply bind_Ret_inv in H as ([] & t9 & t10 & Hu & H & ->).
    apply when_usage_Ret in Hu as ->.
    apply decode_handle_Ret in H as [Hr10 ->]. cbn. now rewrite Hr10.
Qed.

Lemma toOpen_loop_Ret (progName : string) (o : Options) (inputs : list string) :
  forall grids gs t,
    for_each_acc inputs (toOpen_file progName o) grids = (Ret gs, t) ->
    files_read t = inputs /\ gs = grids ++ translated t.
Proof.
  induction inputs as [|f inputs IH]; intros grids gs t H; cbn [for_each_acc] in H.
  - inversion H; subst. cbn. now rewrite app_nil_r.
  - apply bind_Ret_inv in H as (g1 & t1 & t2 & H1 & H2 & ->).
    apply toOpen_file_Ret in H1 as [Hr1 ->].
    apply IH in H2 as [Hr2 ->].
    now rewrite files_read_app, translated_app, Hr1, Hr2, app_assoc.
Qed.

Lemma handles_translated_app (a b : list Event) :
  handles_translated (a ++ b) = handles_translated a ++ handles_translated b.
Proof.
  induction a as [|e a IH]; [reflexivity|].
  destruct e; cbn; now rewrite ?IH.
Qed.

Lemma plain_not_translated (t : list Event) :
  Forall plain t -> handles_translated t = [].
Proof.
  induction 1 as [|e t He Ht IH]; [reflexivity|].
  destruct e; cbn in He; try contradiction; exact IH.
Qed.

Lemma translate_all_app (hs1 hs2 : list GridHandle) (gs1 gs2 : list OpenGrid) :
  translate_all hs1 = Some gs1 -> translate_all hs2 = Some gs2 ->
  translate_all (hs1 ++ hs2) = Some (gs1 ++ gs2).
Proof.
  revert gs1. induction hs1 as [|h hs1 IH]; intros gs1 H1 H2; cbn in *.
  - inversion H1; subst. exact H2.
  - destruct (nanoToOpenVDB h) as [g|e]; [|discriminate].
    destruct (translate_all hs1) as [gs|]; [|discriminate].
    inversion H1; subst. now rewrite (IH gs eq_refl H2).
Qed.

Lemma all_delivered_cons {A} (deliver : string -> option (list A)) (f : string)
  (files : list string) (a b : list A) :
  deliver f = Some a -> all_delivered deliver files = Some b ->
  all_delivered deliver (f :: files) = Some (a ++ b).
Proof. intros Ha Hb. cbn. now rewrite Ha, Hb. Qed.

(** A round of the loop that goes through has translated the handles that
    the file delivers, all of them and in their order, and has added their
    grids to the collection. *)
Lemma decode_handle_delivers (o : Options) (grids gs : list OpenGrid) (h : GridHandle)
  (t : list Event) :
  decode_handle o grids h = (Ret gs, t) ->
  handles_translated t = [h]
  /\ exists gs', translate_all [h] = Some gs' /\ gs = grids ++ gs'.
Proof.
  unfold decode_handle.
  destruct (when_verbose_plain (verbose o)
              ("Converting NanoVDB grid named " ++ dquote ++ gridName_of h ++ dquote
               ++ " to OpenVDB" ++ nl)) as (tv & -> & Hv).
  apply plain_not_translated in Hv.
  destruct (nanoToOpenVDB h) as [g|e] eqn:Hg; cbn; intro H; inversion H; subst.
  rewrite handles_translated_app, Hv. cbn. rewrite Hg. eauto.
Qed.

Lemma decode_loop_delivers (o : Options) (handles : list GridHandle) :
  forall grids gs t,
    for_each_acc handles (decode_handle o) grids = (Ret gs, t) ->
    handles_translated t = handles
    /\ exists gs', translate_all handles = Some gs' /\ gs = grids ++ gs'.
Proof.
  induction handles as [|h handles IH]; intros grids gs t H; cbn [for_each_acc] in H.
  - inversion H; subst. cbn. split; [reflexivity|]. exists []. now rewrite app_nil_r.
  - apply bind_Ret_inv in H as (g1 & t1 & t2 & H1 & H2 & ->).
    apply decode_handle_delivers in H1 as (Hh1 & gs1 & Ht1 & ->).
    apply IH in H2 as (Hh2 & gs2 & Ht2 & ->).
    rewrite handles_translated_app, Hh1, Hh2. split; [reflexivity|].
    exists (gs1 ++ gs2). split; [|now rewrite app_assoc].
    exact (translate_all_app [h] handles gs1 gs2 Ht1 Ht2).
Qed.

Lemma toOpen_file_delivers (progName : string) (o : Options) (grids gs : list OpenGrid)
  (inputFile : string) (t : list Event) :
  toOpen_file progName o grids inputFile = (Ret gs, t) ->
  exists hs gs',
    delivered_handles o inputFile = Some hs /\ handles_translated t = hs
    /\ translate_all hs = Some gs' /\ gs = grids ++ gs'.
Proof.
  unfold toOpen_file, delivered_handles. intro H.
  apply bind_Ret_inv in H as (ext & t1 & t2 & Hext & H & ->).
  assert (t1 = []) as ->.
  { unfold extension_or_throw in Hext.
    destruct (extension inputFile); inversion Hext; reflexivity. }
  apply bind_Ret_inv in H as ([] & t3 & t4 & Hu & H & ->).
  apply when_usage_Ret in Hu as ->.
  apply bind_Ret_inv in H as ([] & t5 & t6 & Hv & H & ->).
  destruct (when_verbose_plain (verbose o)
              ("Opening NanoVDB file named " ++ dquote ++ inputFile ++ dquote ++ nl))
    as (tv & Hv' & Hplain).
  rewrite Hv' in Hv. inversion Hv; subst t5.
  apply plain_not_translated in Hplain.
  cbn [app]. rewrite handles_translated_app, Hplain. cbn [app].
  destruct (empty (gridName o)).
  - apply bind_Ret_inv in H as (handles & t7 & t8 & Hcall & H & ->).
    destruct (readGrids inputFile (verbose o)); cbn [call] in Hcall;
      inversion Hcall; subst.
    apply decode_loop_delivers in H as (Hh & gs' & Ht & ->).
    exists handles, gs'. cbn. auto.
  - apply bind_Ret_inv in H as (h & t7 & t8 & Hcall & H & ->).
    destruct (readGrid inputFile (gridName o)); cbn [call] in Hcall;
      inversion Hcall; subst.
    apply bind_Ret_inv in H as ([] & t9 & t10 & Hu & H & ->).
    destruct (handle_bool h) eqn:Hbool;
      [|cbn [negb when] in Hu; rewrite complain_usage_eq in Hu; discriminate].
    cbn [negb when] in Hu. inversion Hu; subst t9.
    apply decode_handle_delivers in H as (Hh & gs' & Ht & ->).
    exists [h], gs'. cbn [app handles_translated]. auto.
Qed.

Lemma toOpen_loop_delivers (progName : string) (o : Options) (inputs : list string) :
  forall grids gs t,
    for_each_acc inputs (toOpen_file progName o) grids = (Ret gs, t) ->
    exists hs gs',
      all_delivered (delivered_handles o) inputs = Some hs /\ handles_translated t = hs
      /\ translate_all hs = Some gs' /\ gs = grids ++ gs'.
Proof.
  induction inputs as [|f inputs IH]; intros grids gs t H; cbn [for_each_acc] in H.
  - inversion H; subst. exists [], []. cbn. now rewrite app_nil_r.
  - apply bind_Ret_inv in H as (g1 & t1 & t2 & H1 & H2 & ->).
    apply toOpen_file_delivers in H1 as (hs1 & gs1 & Hd1 & Hh1 & Ht1 & ->).
    apply IH in H2 as (hs2 & gs2 & Hd2 & Hh2 & Ht2 & ->).
    exists (hs1 ++ hs2), (gs1 ++ gs2).
    rewrite handles_translated_app, Hh1, Hh2, app_assoc.
    repeat split.
    + exact (all_delivered_cons _ _ _ _ _ Hd1 Hd2).
    + exact (translate_all_app _ _ _ _ Ht1 Ht2).
Qed.

(** The calls of the [try] block in this direction: either no call writes
    and the block does not end well, or the calls are those of the loop,
    then [file.write] with all the grids, then text only. *)
Lemma toOpen_block (progName : string) (o : Options) (outputFile : string)
  (inputs : list string) :
  let run := try_catch (toOpen progName o outputFile inputs ;; version_note o) in
  (Forall no_write (snd run) /\ Forall (fun e => ~ is_file_write e) (snd run)
   /\ fst run <> Ret EXIT_SUCCESS)
  \/ (exists tl gs tail,
        snd run = tl ++ EvFileWrite outputFile gs :: tail
        /\ Forall no_write tl /\ Forall (fun e => ~ is_file_write e) tl
        /\ files_read tl = inputs /\ translated tl = gs
        /\ Forall plain tail
        /\ exists hs,
            all_delivered (delivered_handles o) inputs = Some hs
            /\ handles_translated tl = hs /\ translate_all hs = Some gs).
Proof.
  intro run. subst run. unfold toOpen.
  pose proof (toOpen_loop_no_write progName o inputs []) as Hquiet.
  assert (Hnofw : Forall (fun e => ~ is_file_write e)
                    (snd (for_each_acc inputs (toOpen_file progName o) []))).
  { eapply Forall_impl; [|exact Hquiet].
    intros e He Hw. destruct e; try contradiction. discriminate. }
  destruct (for_each_acc inputs (toOpen_file progName o) []) as [[gs|s|e] tl] eqn:Hloop;
    cbn [snd] in Hquiet, Hnofw.
  - right.
    assert (Hdel : exists hs,
               all_delivered (delivered_handles o) inputs = Some hs
               /\ handles_translated tl = hs /\ translate_all hs = Some gs).
    { destruct (toOpen_loop_delivers _ _ _ _ _ _ Hloop) as (hs & gs' & Hd & Hh & Ht & ->).
      exists hs. auto. }
    apply toOpen_loop_Ret in Hloop as [Hread Hgs]. cbn [app] in Hgs.
    exists tl, gs.
    destruct (file_write outputFile gs) as [[]|e] eqn:Hw.
    + destruct (version_note o) as [rv tv] eqn:Hv.
      pose proof (version_note_plain o) as Hp. rewrite Hv in Hp. cbn [snd] in Hp.
      cbn [bind]. rewrite Hw. cbn [call].
      destruct rv as [[]|s|[what|]]; cbn [bind try_catch snd].
      * exists tv. rewrite <- app_assoc. cbn [app]. repeat split; auto.
      * exists tv. rewrite <- app_assoc. cbn [app]. repeat split; auto.
      * eexists (tv ++ [_]). rewrite <- !app_assoc. cbn [app].
        repeat split; auto. apply Forall_app. split; [assumption|].
        repeat constructor.
      * eexists (tv ++ [_]). rewrite <- !app_assoc. cbn [app].
        repeat split; auto. apply Forall_app. split; [assumption|].
        repeat constructor.
    + cbn [bind]. rewrite Hw. cbn [call bind].
      destruct e as [what|]; cbn [try_catch snd]; eexists [_];
        rewrite <- !app_assoc; cbn [app]; repeat split; auto;
        repeat constructor.
  - left. cbn. repeat split; try assumption. discriminate.
  - left. destruct e as [what|]; cbn; repeat split;
      try (apply Forall_app; split; [assumption|repeat constructor]);
      try discriminate; try (intros []).
Qed.

(** *** From OpenVDB to NanoVDB: every grid goes to the stream at once *)

Lemma streamed_app (outputFile : string) (c : Codec) (a b : list Event) :
  streamed outputFile c a -> streamed outputFile c b -> streamed outputFile c (a ++ b).
Proof.
  intros Ha Hb. induction a as [|e a IH]; [exact Hb|].
  destruct e; cbn [app streamed] in *; try (apply IH; assumption).
  destruct Ha as [Hnext Ha]. split; [|apply IH; assumption].
  destruct (openToNanoVDB grid s c0 false v); [|exact I].
  destruct a; [contradiction|exact Hnext].
Qed.

Lemma streamed_no_encode (outputFile : string) (c : Codec) (t : list Event) :
  Forall (fun e => ~ is_encode e) t -> streamed outputFile c t.
Proof.
  induction 1 as [|e t He Ht IH]; [exact I|].
  destruct e; cbn in *; try assumption. contradiction.
Qed.

Lemma bind_streamed {A B} (outputFile : string) (c : Codec) (m : M A) (k : A -> M B) :
  streamed outputFile c (snd m) -> (forall a, streamed outputFile c (snd (k a))) ->
  streamed outputFile c (snd (bind m k)).
Proof.
  destruct m as [[a|s|e] t]; cbn [bind snd]; intros Hm Hk; try assumption.
  specialize (Hk a). destruct (k a) as [r t']. cbn [snd] in *.
  now apply streamed_app.
Qed.

Lemma for_each_streamed {A} (outputFile : string) (c : Codec) (l : list A)
  (body : A -> M unit) :
  (forall x, streamed outputFile c (snd (body x))) ->
  streamed outputFile c (snd (for_each l body)).
Proof.
  intro H. induction l as [|x l IH]; cbn [for_each]; [exact I|].
  apply bind_streamed; auto.
Qed.

Lemma plain_streamed (outputFile : string) (c : Codec) (t : list Event) :
  Forall plain t -> streamed outputFile c t.
Proof. intro H. apply streamed_no_encode. now apply plain_trace in H. Qed.

Lemma try_catch_streamed (outputFile : string) (c : Codec) (body : M unit) :
  streamed outputFile c (snd body) -> streamed outputFile c (snd (try_catch body)).
Proof.
  destruct body as [[[]|s|[what|]] t]; cbn [try_catch snd]; intro H; try assumption;
    apply streamed_app; auto; exact I.
Qed.

Lemma encode_grid_streamed (o : Options) (outputFile : string) (grid : OpenGrid) :
  streamed outputFile (codec o) (snd (encode_grid o outputFile grid)).
Proof.
  unfold encode_grid. apply bind_streamed.
  { apply plain_streamed. each_call. exact I. }
  intros _.
  destruct (openToNanoVDB grid (sMode o) (cMode o) false (verbosity o)) as [h|e] eqn:Hh;
    cbn [call bind].
  - destruct (writeGrid outputFile h (codec o)); cbn; rewrite Hh; auto.
  - cbn. now rewrite Hh.
Qed.

Lemma toNano_file_streamed (progName : string) (o : Options)
  (outputFile inputFile : string) :
  streamed outputFile (codec o) (snd (toNano_file progName o outputFile inputFile)).
Proof.
  unfold toNano_file.
  apply bind_streamed.
  { apply plain_streamed. each_call. }
  intro ext. apply bind_streamed.
  { apply plain_streamed. each_call; exact I. }
  intros _. apply bind_streamed.
  { apply plain_streamed. each_call; exact I. }
  intros _. apply bind_streamed.
  { destruct (file_open inputFile); exact I. }
  intros _. destruct (empty (gridName o)).
  - apply bind_streamed.
    { destruct (file_getGrids inputFile); exact I. }
    intro grids. apply for_each_streamed. intro g. apply encode_grid_streamed.
  - apply bind_streamed.
    { destruct (file_readGrid inputFile (gridName o)); exact I. }
    intro g. apply encode_grid_streamed.
Qed.

Lemma streamed_cut (outputFile : string) (c : Codec) (t1 t2 : list Event)
  (g : OpenGrid) (s : StatsMode) (k : ChecksumMode) (v : Z) (h : GridHandle) :
  streamed outputFile c (t1 ++ EvOpenToNano g s k v :: t2) ->
  openToNanoVDB g s k false v = Ok h ->
  exists t3, t2 = EvWriteGrid outputFile h c :: t3.
Proof.
  intros H Hh. induction t1 as [|e t1 IH].
  - cbn in H. rewrite Hh in H. destruct H as [H _].
    destruct t2 as [|e t3]; [contradiction|]. subst e. now exists t3.
  - apply IH. destruct e; cbn [app streamed] in H; try assumption. apply H.
Qed.

Lemma encode_grid_no_file_write (o : Options) (outputFile : string) (grid : OpenGrid) :
  Forall (fun e => ~ is_file_write e) (snd (encode_grid o outputFile grid)).
Proof. unfold encode_grid. each_call; intros []. Qed.

Lemma toNano_file_no_file_write (progName : string) (o : Options)
  (outputFile inputFile : string) :
  Forall (fun e => ~ is_file_write e) (snd (toNano_file progName o outputFile inputFile)).
Proof.
  unfold toNano_file. each_call; try apply encode_grid_no_file_write; intros [].
Qed.

(** The element after a prefix that holds none of a kind comes before the
    first element of that kind. *)
Lemma before_first {A} (Q : A -> Prop) (a rest t1 t2 : list A) (x y : A) :
  Forall (fun e => ~ Q e) a -> ~ Q x -> Q y ->
  a ++ x :: rest = t1 ++ y :: t2 -> In x t1.
Proof.
  intros Ha Hx Hy. revert t1.
  induction a as [|e a IH]; intros t1 H; cbn in H.
  - destruct t1 as [|e1 t1]; cbn in H; inversion H; subst; [contradiction|now left].
  - inversion Ha as [|? ? He Ha']; subst.
    destruct t1 as [|e1 t1]; cbn in H; inversion H; subst; [contradiction|].
    right. now apply IH.
Qed.

Lemma toNano_block_starts (progName : string) (o : Options) (outputFile : string)
  (inputs : list string) :
  exists rest,
    snd (try_catch (toNano progName o outputFile inputs ;; version_note o))
    = EvOfstream outputFile :: rest.
Proof.
  unfold toNano, emit. cbn [bind].
  destruct (for_each inputs _) as [[[]|s|[what|]] tl]; cbn [bind app try_catch snd];
    try (eexists; reflexivity).
  destruct (version_note o) as [[[]|s|[what|]] tv]; cbn; eexists; reflexivity.
Qed.

Lemma stream_calls_app (a b : list Event) :
  stream_calls (a ++ b) = stream_calls a ++ stream_calls b.
Proof.
  induction a as [|e a IH]; [reflexivity|].
  destruct e; cbn; now rewrite ?IH.
Qed.

Lemma plain_no_stream_calls (t : list Event) : Forall plain t -> stream_calls t = [].
Proof.
  induction 1 as [|e t He Ht IH]; [reflexivity|].
  destruct e; cbn in He; try contradiction; exact IH.
Qed.

Lemma encode_all_app (o : Options) (outputFile : string) (gs1 gs2 : list OpenGrid)
  (c1 c2 : list Event) :
  encode_all o outputFile gs1 = Some c1 -> encode_all o outputFile gs2 = Some c2 ->
  encode_all o outputFile (gs1 ++ gs2) = Some (c1 ++ c2).
Proof.
  revert c1. induction gs1 as [|g gs1 IH]; intros c1 H1 H2; cbn in *.
  - inversion H1; subst. exact H2.
  - destruct (openToNanoVDB g (sMode o) (cMode o) false (verbosity o)) as [h|e];
      [|discriminate].
    destruct (writeGrid outputFile h (codec o)) as [u|e]; [|discriminate].
    destruct (encode_all o outputFile gs1) as [c|]; [|discriminate].
    inversion H1; subst. now rewrite (IH c eq_refl H2).
Qed.

(** A round of the loop that goes through has encoded the grids that the
    file delivers, all of them and in their order, and has written each of
    them to the stream right after encoding it; it has made no other call on
    a grid. *)
Lemma encode_grid_delivers (o : Options) (outputFile : string) (g : OpenGrid)
  (t : list Event) :
  encode_grid o outputFile g = (Ret tt, t) ->
  encode_all o outputFile [g] = Some (stream_calls t).
Proof.
  unfold encode_grid.
  destruct (when_verbose_plain (verbose o)
              ("Converting OpenVDB grid named " ++ dquote ++ getName g ++ dquote
               ++ " to NanoVDB" ++ nl)) as (tv & -> & Hv).
  apply plain_no_stream_calls in Hv. cbn [encode_all].
  destruct (openToNanoVDB g (sMode o) (cMode o) false (verbosity o)) as [h|e];
    cbn [call bind]; [|discriminate].
  destruct (writeGrid outputFile h (codec o)) as [[]|e]; cbn [call]; [|discriminate].
  intro H; inversion H; subst.
  rewrite stream_calls_app, Hv. reflexivity.
Qed.

Lemma encode_loop_delivers (o : Options) (outputFile : string) (grids : list OpenGrid) :
  forall t,
    for_each grids (encode_grid o outputFile) = (Ret tt, t) ->
    encode_all o outputFile grids = Some (stream_calls t).
Proof.
  induction grids as [|g grids IH]; intros t H; cbn [for_each] in H.
  - inversion H; subst. reflexivity.
  - apply bind_Ret_inv in H as ([] & t1 & t2 & H1 & H2 & ->).
    apply encode_grid_delivers in H1. apply IH in H2.
    rewrite stream_calls_app.
    exact (encode_all_app o outputFile [g] grids _ _ H1 H2).
Qed.

Lemma toNano_file_delivers (progName : string) (o : Options)
  (outputFile inputFile : string) (t : list Event) :
  toNano_file progName o outputFile inputFile = (Ret tt, t) ->
  exists gs,
    delivered_grids o inputFile = Some gs
    /\ encode_all o outputFile gs = Some (stream_calls t).
Proof.
  unfold toNano_file, delivered_grids. intro H.
  apply bind_Ret_inv in H as (ext & t1 & t2 & Hext & H & ->).
  assert (t1 = []) as ->.
  { unfold extension_or_throw in Hext.
    destruct (extension inputFile); inversion Hext; reflexivity. }
  apply bind_Ret_inv in H as ([] & t3 & t4 & Hu & H & ->).
  apply when_usage_Ret in Hu as ->.
  apply bind_Ret_inv in H as ([] & t5 & t6 & Hv & H & ->).
  destruct (when_verbose_plain (verbose o)
              ("Opening OpenVDB file named " ++ dquote ++ inputFile ++ dquote ++ nl))
    as (tv & Hv' & Hplain).
  rewrite Hv' in Hv. inversion Hv; subst t5.
  apply plain_no_stream_calls in Hplain.
  cbn [app]. rewrite stream_calls_app, Hplain. cbn [app].
  apply bind_Ret_inv in H as ([] & t7 & t8 & Hopen & H & ->).
  destruct (file_open inputFile) as [[]|e]; cbn [call] in Hopen;
    inversion Hopen; subst.
  cbn [app stream_calls].
  destruct (empty (gridName o)).
  - apply bind_Ret_inv in H as (grids & t9 & t10 & Hcall & H & ->).
    destruct (file_getGrids inputFile); cbn [call] in Hcall; inversion Hcall; subst.
    apply encode_loop_delivers in H. exists grids. cbn. auto.
  - apply bind_Ret_inv in H as (g & t9 & t10 & Hcall & H & ->).
    destruct (file_readGrid inputFile (gridName o)); cbn [call] in Hcall;
      inversion Hcall; subst.
    apply encode_grid_delivers in H. exists [g]. cbn [app stream_calls]. auto.
Qed.

Lemma toNano_loop_delivers (progName : string) (o : Options) (outputFile : string)
  (inputs : list string) :
  forall t,
    for_each inputs (toNano_file progName o outputFile) = (Ret tt, t) ->
    exists gs,
      all_delivered (delivered_grids o) inputs = Some gs
      /\ encode_all o outputFile gs = Some (stream_calls t).
Proof.
  induction inputs as [|f inputs IH]; intros t H; cbn [for_each] in H.
  - inversion H; subst. exists []. auto.
  - apply bind_Ret_inv in H as ([] & t1 & t2 & H1 & H2 & ->).
    apply toNano_file_delivers in H1 as (gs1 & Hd1 & He1).
    apply IH in H2 as (gs2 & Hd2 & He2).
    exists (gs1 ++ gs2). rewrite stream_calls_app. split.
    + exact (all_delivered_cons _ _ _ _ _ Hd1 Hd2).
    + exact (encode_all_app _ _ _ _ _ _ He1 He2).
Qed.

(** The calls of the [try] block towards NanoVDB: the stream is opened, the
    loop runs, and text may follow. *)
Lemma toNano_block_trace (progName : string) (o : Options) (outputFile : string)
  (inputs : list string) :
  let loop := for_each inputs (toNano_file progName o outputFile) in
  let run := try_catch (toNano progName o outputFile inputs ;; version_note o) in
  exists extra,
    snd run = EvOfstream outputFile :: snd loop ++ extra
    /\ Forall plain extra
    /\ (fst run = Ret EXIT_SUCCESS -> is_Ret (fst loop)).
Proof.
  intros loop run. subst loop run. unfold toNano, emit. cbn [bind].
  destruct (for_each inputs _) as [[[]|s|[what|]] tl]; cbn [bind app try_catch fst snd].
  - pose proof (version_note_plain o) as Hv.
    destruct (version_note o) as [[[]|s|[what|]] tv]; cbn [try_catch fst snd] in *.
    + exists tv. repeat split; auto.
    + exists tv. repeat split; auto.
    + eexists (tv ++ [_]). rewrite app_assoc. repeat split; auto.
      apply Forall_app. split; [assumption|repeat constructor].
    + eexists (tv ++ [_]). rewrite app_assoc. repeat split; auto.
      apply Forall_app. split; [assumption|repeat constructor].
  - exists []. rewrite app_nil_r. repeat split; [constructor|discriminate].
  - eexists [_]. repeat split; [repeat constructor|discriminate].
  - eexists [_]. repeat split; [repeat constructor|discriminate].
Qed.

(** *** The two directions side by side *)

Lemma main_toOpen (progName : string) (argv : list string) (w : World) (o : Options)
  (t : list Event) :
  parse progName argv initial = (Ret o, t) ->
  (2 <= length (operands argv))%nat ->
  extension (last (operands argv) EmptyString) = Some "vdb" ->
  let outputFile := last (operands argv) EmptyString in
  let inputs := removelast (operands argv) in
  let run := try_catch (toOpen progName o outputFile inputs ;; version_note o) in
  exists tg,
    Forall plain tg
    /\ (main progName argv w = (fst run, tg ++ EvInitialize :: snd run)
        \/ exists r, main progName argv w = (r, tg) /\ r <> Ret EXIT_SUCCESS).
Proof.
  intros Hparse Hlen Hext outputFile inputs run.
  rewrite (main_classified progName argv w o t "vdb" false Hparse Hlen Hext eq_refl).
  fold outputFile. unfold after_guard, convert.
  rewrite (parse_Ret_fileNames _ _ _ _ Hparse). fold outputFile inputs run.
  pose proof (overwrite_guard_plain w o outputFile) as Hg.
  destruct (overwrite_guard w o outputFile) as [[[]|s|e] tg]; cbn [snd] in Hg;
    exists tg; (split; [assumption|]).
  - left. unfold emit. cbn [bind]. destruct run as [r tc]. reflexivity.
  - right. exists (Exit s). split; [reflexivity|discriminate].
  - right. exists (Throw e). split; [reflexivity|discriminate].
Qed.

Lemma main_toNano (progName : string) (argv : list string) (w : World) (o : Options)
  (t : list Event) :
  parse progName argv initial = (Ret o, t) ->
  (2 <= length (operands argv))%nat ->
  extension (last (operands argv) EmptyString) = Some "nvdb" ->
  let outputFile := last (operands argv) EmptyString in
  let inputs := removelast (operands argv) in
  let run := try_catch (toNano progName o outputFile inputs ;; version_note o) in
  exists tg,
    Forall plain tg
    /\ (main progName argv w = (fst run, tg ++ EvInitialize :: snd run)
        \/ exists r, main progName argv w = (r, tg) /\ r <> Ret EXIT_SUCCESS).
Proof.
  intros Hparse Hlen Hext outputFile inputs run.
  rewrite (main_classified progName argv w o t "nvdb" true Hparse Hlen Hext eq_refl).
  fold outputFile. unfold after_guard, convert.
  rewrite (parse_Ret_fileNames _ _ _ _ Hparse). fold outputFile inputs run.
  pose proof (overwrite_guard_plain w o outputFile) as Hg.
  destruct (overwrite_guard w o outputFile) as [[[]|s|e] tg]; cbn [snd] in Hg;
    exists tg; (split; [assumption|]).
  - left. unfold emit. cbn [bind]. destruct run as [r tc]. reflexivity.
  - right. exists (Exit s). split; [reflexivity|discriminate].
  - right. exists (Throw e). split; [reflexivity|discriminate].
Qed.

(** C3.  In the direction from NanoVDB to OpenVDB, [file.write] is the only
    call that writes a file, and wherever it stands in the calls of a run it
    writes the output file, it comes after the reads of all the input files,
    in their order, and nothing but text follows it: so it is called once,
    and a run that returns [EXIT_SUCCESS] has called it.  What it is handed
    is the one collection of all the grids: every input file has delivered
    its handles, every handle that the files deliver has been handed to
    [nanoToOpenVDB] before, in the order of the files and of the handles in
    them, and the grids written are the translations of these handles, all
    of them and in that order.  In the direction from OpenVDB to NanoVDB,
    there is no [file.write]; every grid that is encoded is encoded after the
    output stream was opened, and it is written to that stream, with the
    codec chosen, in the very next call; and in a run that returns
    [EXIT_SUCCESS] every input file has delivered its grids, and the calls on
    grids are, for each grid that the files deliver, in the order of the
    files and of the grids in them, the call that encodes it and right after
    it the call that writes it to the stream. *)
Theorem batch_then_write_and_append_at_once (progName : string) (argv : list string)
  (w : World) (o : Options) (t : list Event) :
  parse progName argv initial = (Ret o, t) ->
  (2 <= length (operands argv))%nat ->
  let outputFile := last (operands argv) EmptyString in
  let inputs := removelast (operands argv) in
  let r := fst (main progName argv w) in
  let tr := snd (main progName argv w) in
  (extension outputFile = Some "vdb" ->
   (forall t1 p gs t2,
       tr = t1 ++ EvFileWrite p gs :: t2 ->
       p = outputFile
       /\ files_read t1 = inputs /\ translated t1 = gs
       /\ Forall no_write t1
       /\ Forall no_write t2 /\ files_read t2 = [] /\ translated t2 = []
       /\ exists hs,
           all_delivered (delivered_handles o) inputs = Some hs
           /\ handles_translated t1 = hs
           /\ translate_all hs = Some gs
           /\ handles_translated t2 = [])
   /\ (r = Ret EXIT_SUCCESS -> exists t1 gs t2, tr = t1 ++ EvFileWrite outputFile gs :: t2)
   /\ (forall e, In e tr -> no_write e \/ is_file_write e))
  /\ (extension outputFile = Some "nvdb" ->
      (forall t1 g s k v t2,
          tr = t1 ++ EvOpenToNano g s k v :: t2 ->
          In (EvOfstream outputFile) t1
          /\ forall h, openToNanoVDB g s k false v = Ok h ->
                       exists t3, t2 = EvWriteGrid outputFile h (codec o) :: t3)
      /\ (forall p gs, ~ In (EvFileWrite p gs) tr)
      /\ (r = Ret EXIT_SUCCESS ->
          exists gs calls,
            all_delivered (delivered_grids o) inputs = Some gs
            /\ encode_all o outputFile gs = Some calls
            /\ stream_calls tr = calls)).
Proof.
  intros Hparse Hlen outputFile inputs r tr. split; intro Hext.
  - destruct (main_toOpen progName argv w o t Hparse Hlen Hext) as (tg & Hg & Hmain).
    fold outputFile inputs in Hmain.
    pose proof (plain_not_translated tg Hg) as Hgh.
    destruct (plain_trace tg Hg) as (Hgw & Hgr & Hgt & _ & Hgf).
    destruct Hmain as [Hmain|(r' & Hmain & Hr')].
    + destruct (toOpen_block progName o outputFile inputs)
        as [(Hw & Hf & Hres)
           |(tl & gs0 & tail & Htc & Hlw & Hlf & Hread & Htrans & Htail & Hdel)].
      * (* the loop or the write went wrong before any file was written *)
        assert (Hnone : Forall (fun e => ~ is_file_write e) tr).
        { subst tr. rewrite Hmain. cbn [snd]. apply Forall_app. split; [assumption|].
          constructor; [intros []|assumption]. }
        split; [|split].
        -- intros t1 p gs t2 Hcut. exfalso.
           exact (no_split is_file_write tr t1 t2 (EvFileWrite p gs) Hnone I Hcut).
        -- subst r. rewrite Hmain. cbn [fst]. intro H. contradiction.
        -- intros e Hin. left. subst tr. rewrite Hmain in Hin. cbn [snd] in Hin.
           apply in_app_iff in Hin as [Hin|[<-|Hin]].
           ++ rewrite Forall_forall in Hgw. auto.
           ++ reflexivity.
           ++ rewrite Forall_forall in Hw. auto.
      * (* the loop went through: its calls, then file.write, then text *)
        pose proof (plain_not_translated tail Htail) as Hth.
        destruct (plain_trace tail Htail) as (Htw & Htr & Htt & _ & Htf).
        assert (Htr' : tr = (tg ++ EvInitialize :: tl)
                            ++ EvFileWrite outputFile gs0 :: tail).
        { subst tr. rewrite Hmain. cbn [snd]. rewrite Htc, <- app_assoc. reflexivity. }
        split; [|split].
        -- intros t1 p gs t2 Hcut. rewrite Htr' in Hcut.
           apply (split_unique is_file_write) in Hcut as (-> & Heq & ->);
             [|apply Forall_app; split; [assumption|constructor; [intros []|assumption]]
              |assumption|exact I].
           inversion Heq; subst p gs.
           rewrite files_read_app, translated_app, handles_translated_app, Hgr, Hgt, Hgh.
           cbn [app files_read translated handles_translated].
           destruct Hdel as (hs & Hd & Hh & Ht).
           split; [reflexivity|]. split; [assumption|]. split; [assumption|].
           split.
           { apply Forall_app. split; [assumption|].
             constructor; [reflexivity|assumption]. }
           split; [assumption|]. split; [assumption|]. split; [assumption|].
           exists hs. auto.
        -- intros _. eauto.
        -- intros e Hin. rewrite Htr' in Hin.
           apply in_app_iff in Hin as [Hin|[<-|Hin]].
           ++ left. apply in_app_iff in Hin as [Hin|[<-|Hin]].
              ** rewrite Forall_forall in Hgw. auto.
              ** reflexivity.
              ** rewrite Forall_forall in Hlw. auto.
           ++ right. exact I.
           ++ left. rewrite Forall_forall in Htw. auto.
    + (* the user declined at the prompt *)
      assert (Hnone : Forall (fun e => ~ is_file_write e) tr)
        by (subst tr; rewrite Hmain; assumption).
      split; [|split].
      * intros t1 p gs t2 Hcut. exfalso.
        exact (no_split is_file_write tr t1 t2 (EvFileWrite p gs) Hnone I Hcut).
      * subst r. rewrite Hmain. cbn [fst]. intro H. contradiction.
      * intros e Hin. left. subst tr. rewrite Hmain in Hin.
        rewrite Forall_forall in Hgw. auto.
  - destruct (main_toNano progName argv w o t Hparse Hlen Hext) as (tg & Hg & Hmain).
    fold outputFile inputs in Hmain.
    pose proof (plain_no_stream_calls tg Hg) as Hgs.
    destruct (plain_trace tg Hg) as (_ & _ & _ & Hge & Hgf).
    set (run := try_catch (toNano progName o outputFile inputs ;; version_note o)) in *.
    assert (Hstream : streamed outputFile (codec o) (snd run)).
    { apply try_catch_streamed, bind_streamed.
      - unfold toNano. apply bind_streamed; [exact I|]. intros _.
        apply for_each_streamed. intro f. apply toNano_file_streamed.
      - intros _. apply plain_streamed, version_note_plain. }
    assert (Hnofw : Forall (fun e => ~ is_file_write e) (snd run)).
    { unfold run, toNano. each_call; try (intros []).
      - apply toNano_file_no_file_write.
      - apply (plain_trace _ (version_note_plain o)). }
    destruct Hmain as [Hmain|(r' & Hmain & Hr')].
    + destruct (toNano_block_starts progName o outputFile inputs) as (rest & Hrest).
      fold run in Hrest.
      split; [|split].
      * intros t1 g s k v t2 Hcut. subst tr. rewrite Hmain in Hcut. cbn [snd] in Hcut.
        split.
        -- rewrite Hrest in Hcut.
           change (tg ++ EvInitialize :: EvOfstream outputFile :: rest)
             with (tg ++ [EvInitialize] ++ EvOfstream outputFile :: rest) in Hcut.
           rewrite app_assoc in Hcut.
           apply (before_first is_encode) in Hcut; auto; try exact I.
           apply Forall_app. split; [assumption|]. constructor; [intros []|constructor].
        -- intros h Hh.
           assert (Hall : streamed outputFile (codec o) (tg ++ EvInitialize :: snd run)).
           { apply streamed_app; [now apply plain_streamed|exact Hstream]. }
           rewrite Hcut in Hall. exact (streamed_cut _ _ _ _ _ _ _ _ _ Hall Hh).
      * intros p gs Hin. subst tr. rewrite Hmain in Hin. cbn [snd] in Hin.
        apply in_app_iff in Hin as [Hin|[Hin|Hin]]; [|discriminate|].
        -- rewrite Forall_forall in Hgf. exact (Hgf _ Hin I).
        -- rewrite Forall_forall in Hnofw. exact (Hnofw _ Hin I).
      * intro Hr. subst r tr. rewrite Hmain in Hr |- *. cbn [fst snd] in Hr |- *.
        destruct (toNano_block_trace progName o outputFile inputs)
          as (extra & Hrun & Hextra & Hret).
        fold run in Hrun, Hret. specialize (Hret Hr).
        destruct (for_each inputs (toNano_file progName o outputFile))
          as [[[]|s|e] tl] eqn:Hloop; cbn [fst snd] in Hret, Hrun; try contradiction.
        destruct (toNano_loop_delivers _ _ _ _ _ Hloop) as (gs & Hd & He).
        exists gs, (stream_calls tl). split; [assumption|]. split; [assumption|].
        rewrite Hrun, stream_calls_app, Hgs. cbn [app stream_calls].
        rewrite stream_calls_app, (plain_no_stream_calls _ Hextra).
        now rewrite app_nil_r.
    + split; [|split].
      * intros t1 g s k v t2 Hcut. exfalso. subst tr. rewrite Hmain in Hcut.
        exact (no_split is_encode tg t1 t2 (EvOpenToNano g s k v) Hge I Hcut).
      * intros p gs Hin. subst tr. rewrite Hmain in Hin.
        rewrite Forall_forall in Hgf. exact (Hgf _ Hin I).
      * intro Hr. subst r. rewrite Hmain in Hr. contradiction.
Qed.

End Strategies.

(** ** The direction of the conversion *)

Section Direction.

Context {L : Library}.

Lemma overwrite_guard_before_initialize (w : World) (o : Options) (outputFile : string) :
  Forall (fun e => e <> EvInitialize) (snd (overwrite_guard w o outputFile)).
Proof. unfold overwrite_guard. cbv zeta. each_call; discriminate. Qed.

Lemma toNano_block_one_way (progName : string) (o : Options) (outputFile : string)
  (inputs : list string) :
  Forall (fun e => ~ open_side e)
    (snd (try_catch (toNano progName o outputFile inputs ;; version_note o))).
Proof.
  unfold toNano, toNano_file, encode_grid, version_note.
  each_call; intros [].
Qed.

Lemma toOpen_block_one_way (progName : string) (o : Options) (outputFile : string)
  (inputs : list string) :
  Forall (fun e => ~ nano_side e)
    (snd (try_catch (toOpen progName o outputFile inputs ;; version_note o))).
Proof.
  unfold toOpen, toOpen_file, decode_handle, version_note.
  each_call; intros [].
Qed.

(** C6: the direction of the conversion is a function of the extension of
    the output path, the last file name, alone; and the extension is what
    follows the last dot of the name, or the whole name if it has no dot.
    When the output path is [nvdb] or ends in [.nvdb], the run goes on,
    behind the overwrite guard, with the loop from OpenVDB to NanoVDB: it
    makes no call of the other loop, and it opens the output stream if it
    gets past the guard.  When the output path is [vdb] or ends in [.vdb],
    the run goes on with the loop from NanoVDB to OpenVDB: it makes no call
    of the other loop, and it has called [file.write] on the output path if
    [main] returns [EXIT_SUCCESS].  With any other extension the run ends at
    once in a complaint that names the extension, the usage text and
    [EXIT_FAILURE].  Every output path has an extension, so that there is no
    fourth case. *)
Theorem direction_from_extension (progName : string) (argv : list string) (w : World)
  (o : Options) (t : list Event) :
  parse progName argv initial = (Ret o, t) ->
  (2 <= length (operands argv))%nat ->
  let outputFile := last (operands argv) EmptyString in
  let inputs := removelast (operands argv) in
  let r := fst (main progName argv w) in
  let tr := snd (main progName argv w) in
  fits outputFile ->
  (has_extension outputFile "nvdb" ->
   main progName argv w
   = (overwrite_guard w o outputFile ;;
      emit EvInitialize ;;
      try_catch (toNano progName o outputFile inputs ;; version_note o))
   /\ Forall (fun e => ~ open_side e) tr
   /\ (In EvInitialize tr -> In (EvOfstream outputFile) tr))
  /\ (has_extension outputFile "vdb" ->
      main progName argv w
      = (overwrite_guard w o outputFile ;;
         emit EvInitialize ;;
         try_catch (toOpen progName o outputFile inputs ;; version_note o))
      /\ Forall (fun e => ~ nano_side e) tr
      /\ (r = Ret EXIT_SUCCESS -> exists gs, In (EvFileWrite outputFile gs) tr))
  /\ (forall ext,
      has_extension outputFile ext -> ext <> "nvdb" -> ext <> "vdb" ->
      main progName argv w
      = (Exit EXIT_FAILURE,
         [Stderr (("Unrecognized file extension: " ++ dquote ++ ext ++ dquote) ++ nl ++ nl);
          Stderr (usage_text progName)]))
  /\ (exists ext, has_extension outputFile ext).
Proof.
  intros Hparse Hlen outputFile inputs r tr Hfit.
  assert (Hmain : forall ext,
             has_extension outputFile ext ->
             main progName argv w
             = (toNanoVDB <- classify progName ext ;;
                overwrite_guard w o outputFile ;;
                emit EvInitialize ;;
                try_catch (convert progName o toNanoVDB outputFile inputs))).
  { intros ext Hext. apply (has_extension_extension _ _ Hfit) in Hext.
    subst outputFile inputs.
    rewrite <- (parse_Ret_fileNames _ _ _ _ Hparse) in *.
    exact (main_parsed _ _ w _ _ _ Hparse Hlen Hext). }
  pose proof (overwrite_guard_plain w o outputFile) as Hplain.
  pose proof (overwrite_guard_before_initialize w o outputFile) as Hbefore.
  split; [|split; [|split]].
  - intro Hext. specialize (Hmain _ Hext).
    change (classify progName "nvdb") with (@ret L bool true) in Hmain.
    rewrite bind_ret_l in Hmain. unfold convert in Hmain.
    pose proof (toNano_block_one_way progName o outputFile inputs) as Hway.
    destruct (toNano_block_starts progName o outputFile inputs) as (rest & Hrest).
    split; [exact Hmain|]. subst r tr. rewrite Hmain.
    destruct (guard_outcome w o outputFile) as [(tg & Hg)|(tg & Hg & _)];
      rewrite Hg in *; cbn [snd] in Hplain, Hbefore.
    + unfold emit. cbn [bind].
      destruct (try_catch _) as [r1 t1]. cbn [fst snd] in *. subst t1. split.
      * apply Forall_app. split.
        -- eapply Forall_impl; [|exact Hplain]. intros e He Ho.
           destruct e; contradiction.
        -- constructor; [intros []|exact Hway].
      * intros _. apply in_app_iff. right. right. now left.
    + cbn [bind snd]. split.
      * eapply Forall_impl; [|exact Hplain]. intros e He Ho. destruct e; contradiction.
      * intro Hin. exfalso. rewrite Forall_forall in Hbefore.
        exact (Hbefore _ Hin eq_refl).
  - intro Hext. specialize (Hmain _ Hext).
    change (classify progName "vdb") with (@ret L bool false) in Hmain.
    rewrite bind_ret_l in Hmain. unfold convert in Hmain.
    pose proof (toOpen_block_one_way progName o outputFile inputs) as Hway.
    split; [exact Hmain|]. subst r tr. rewrite Hmain.
    destruct (guard_outcome w o outputFile) as [(tg & Hg)|(tg & Hg & _)];
      rewrite Hg in *; cbn [snd] in Hplain.
    + unfold emit. cbn [bind].
      destruct (toOpen_block progName o outputFile inputs)
        as [(_ & _ & Hres)|(tl & gs & tail & Htc & _)].
      * destruct (try_catch _) as [r1 t1]. cbn [fst snd] in *. split.
        -- apply Forall_app. split.
           ++ eapply Forall_impl; [|exact Hplain]. intros e He Ho.
              destruct e; contradiction.
           ++ constructor; [intros []|exact Hway].
        -- intro Hr. contradiction.
      * destruct (try_catch _) as [r1 t1]. cbn [fst snd] in *. split.
        -- apply Forall_app. split.
           ++ eapply Forall_impl; [|exact Hplain]. intros e He Ho.
              destruct e; contradiction.
           ++ constructor; [intros []|exact Hway].
        -- intros _. exists gs. rewrite Htc. apply in_or_app. right. right.
           apply in_elt.
    + cbn [bind fst snd]. split.
      * eapply Forall_impl; [|exact Hplain]. intros e He Ho. destruct e; contradiction.
      * discriminate.
  - intros ext Hext Hn Hv. rewrite (Hmain _ Hext). unfold classify.
    apply String.eqb_neq in Hn, Hv. rewrite Hn, Hv. cbn [negb].
    now rewrite complain_usage.
  - apply has_extension_total.
Qed.

End Direction.

(** * Beyond the claims: more of what the program does *)

(** ** Arguments that end the run in the loop *)

Section Argument_errors.

Context {L : Library}.

Lemma parse_unknown (progName arg : string) (rest : list string) (o : Options) :
  first_is_dash arg = true -> ~ In arg option_names ->
  parse progName (arg :: rest) o
  = (Exit EXIT_FAILURE,
     [Stderr (("Unrecognized option: " ++ dquote ++ arg ++ dquote) ++ nl ++ nl);
      Stderr (usage_text progName)]).
Proof.
  intros Hdash Hnot. cbn [parse]. rewrite Hdash.
  assert (Hne : forall n, In n option_names -> (arg =? n) = false).
  { intros n Hn. apply String.eqb_neq. intros ->. contradiction. }
  rewrite !Hne by (cbn; tauto). cbn [orb].
  now rewrite complain_usage_eq.
Qed.

(** X1: an argument that starts with a dash and is none of the sixteen
    option names ends the run as soon as the loop comes to it: the run names
    the argument, prints the usage text and exits with [EXIT_FAILURE],
    whatever follows on the command line.  [-] alone is such an argument. *)
Theorem unknown_option_is_usage_error (progName : string) (before after : list string)
  (arg : string) (w : World) (o : Options) (t : list Event) :
  parse progName before initial = (Ret o, t) ->
  first_is_dash arg = true ->
  ~ In arg option_names ->
  main progName (before ++ arg :: after) w
  = (Exit EXIT_FAILURE,
     [Stderr (("Unrecognized option: " ++ dquote ++ arg ++ dquote) ++ nl ++ nl);
      Stderr (usage_text progName)]).
Proof.
  intros Hbefore Hdash Hnot. unfold main.
  rewrite (parse_app _ _ _ _ _ _ Hbefore), (parse_unknown _ _ _ _ Hdash Hnot).
  reflexivity.
Qed.

(** X2: [-c], [-s] or [-g] as the last argument, with no value after it,
    ends the run: it says what it expected to follow, prints the usage text
    and exits with [EXIT_FAILURE]. *)
Theorem missing_value_is_usage_error (progName : string) (before : list string)
  (flag : string) (w : World) (o : Options) (t : list Event) :
  parse progName before initial = (Ret o, t) ->
  (In flag ["-c"; "--checksum"] ->
   main progName (before ++ [flag]) w
   = (Exit EXIT_FAILURE,
      [Stderr ("Expected a mode to follow the -c,--checksum option" ++ nl ++ nl);
       Stderr (usage_text progName)]))
  /\ (In flag ["-s"; "--stats"] ->
      main progName (before ++ [flag]) w
      = (Exit EXIT_FAILURE,
         [Stderr ("Expected a mode to follow the -s,--stats option" ++ nl ++ nl);
          Stderr (usage_text progName)]))
  /\ (In flag ["-g"; "--grid"] ->
      main progName (before ++ [flag]) w
      = (Exit EXIT_FAILURE,
         [Stderr ("Expected a grid name to follow the -g,--grid option" ++ nl ++ nl);
          Stderr (usage_text progName)])).
Proof.
  intro Hbefore. unfold main. rewrite (parse_app _ _ _ _ _ _ Hbefore).
  split; [|split]; intros [<-|[<-|[]]]; reflexivity.
Qed.

(** X3: the help flag ends the run as soon as the loop comes to it: the run
    prints the usage text and exits with [EXIT_SUCCESS], whatever follows on
    the command line, be it no file name at all or an option that is not
    known, and whatever the files are. *)
Theorem help_ends_the_run (progName : string) (before after : list string)
  (flag : string) (w : World) (o : Options) (t : list Event) :
  parse progName before initial = (Ret o, t) ->
  In flag ["-h"; "--help"] ->
  main progName (before ++ flag :: after) w
  = (Exit EXIT_SUCCESS, [Stderr (usage_text progName)]).
Proof.
  intros Hbefore Hflag. unfold main. rewrite (parse_app _ _ _ _ _ _ Hbefore).
  destruct Hflag as [<-|[<-|[]]]; reflexivity.
Qed.

(** X4: an empty argument is passed over: where an option or a file name
    could stand, it changes nothing in the run. *)
Theorem empty_argument_is_skipped (progName : string) (before after : list string)
  (w : World) (o : Options) (t : list Event) :
  parse progName before initial = (Ret o, t) ->
  main progName (before ++ EmptyString :: after) w = main progName (before ++ after) w.
Proof.
  intro Hbefore. unfold main. now rewrite !(parse_app _ _ _ _ _ _ Hbefore).
Qed.

End Argument_errors.

(** ** What the argument loop leaves in the variables *)

Section Variables_of_main.

Context {L : Library}.

Lemma apply_item_verbose (progName : string) (it : Item) (o o' : Options)
  (t : list Event) :
  apply_item progName it o = (Ret o', t) ->
  verbose o' = verbose o || is_verbose it.
Proof.
  destruct it as [n|n v|n|p|]; cbn [apply_item is_verbose].
  - destruct ((n =? "-v") || (n =? "--verbose")).
    { intro H; inversion H; subst; cbn. now rewrite orb_true_r. }
    destruct ((n =? "-f") || (n =? "--force")).
    { intro H; inversion H; subst; cbn. now rewrite orb_false_r. }
    destruct ((n =? "-h") || (n =? "--help")); [discriminate|].
    destruct (codec_of_flag n); [|rewrite complain_usage_eq; discriminate].
    intro H; inversion H; subst; cbn. now rewrite orb_false_r.
  - destruct ((n =? "-c") || (n =? "--checksum")).
    { destruct (checksum_of_word _); [|rewrite complain_usage_eq; discriminate].
      intro H; inversion H; subst; cbn. now rewrite orb_false_r. }
    destruct ((n =? "-s") || (n =? "--stats")).
    { destruct (stats_of_word _); [|rewrite complain_usage_eq; discriminate].
      intro H; inversion H; subst; cbn. now rewrite orb_false_r. }
    destruct ((n =? "-g") || (n =? "--grid"));
      [|rewrite complain_usage_eq; discriminate].
    intro H; inversion H; subst; cbn. now rewrite orb_false_r.
  - intro H. exfalso. revert H.
    destruct ((n =? "-c") || (n =? "--checksum"));
      [|destruct ((n =? "-s") || (n =? "--stats"))]; discriminate.
  - intro H; inversion H; subst; cbn. now rewrite orb_false_r.
  - intro H; inversion H; subst; cbn. now rewrite orb_false_r.
Qed.

Lemma apply_items_verbose (progName : string) (its : list Item) :
  forall o o' t,
    apply_items progName its o = (Ret o', t) ->
    verbose o' = verbose o || existsb is_verbose its.
Proof.
  unfold apply_items.
  induction its as [|it its IH]; intros o o' t H; cbn [for_each_acc existsb] in *.
  - inversion H; subst. now rewrite orb_false_r.
  - apply bind_Ret_inv in H as (o1 & t1 & t2 & H1 & H2 & _).
    apply apply_item_verbose in H1. apply IH in H2.
    now rewrite H2, H1, orb_assoc.
Qed.

(** X5: an option that is not on the command line leaves its variable at
    the value it has at the top of [main]: no codec, the default statistics
    and checksum modes, no grid name; and the run is verbose, and overwrites
    without asking, exactly when the flag for it is given. *)
Theorem absent_options_keep_defaults (progName : string) (argv : list string)
  (o : Options) (t : list Event) :
  parse progName argv initial = (Ret o, t) ->
  (forallb (fun i => negb (is_codec_flag i)) (items argv) = true ->
   codec o = Codec_NONE)
  /\ (forallb (fun i => negb (is_checksum_option i)) (items argv) = true ->
      cMode o = ChecksumMode_Default)
  /\ (forallb (fun i => negb (is_stats_option i)) (items argv) = true ->
      sMode o = StatsMode_Default)
  /\ (forallb (fun i => negb (is_grid_option i)) (items argv) = true ->
      gridName o = EmptyString)
  /\ verbose o = verbose_given argv
  /\ overwrite o = force_given argv.
Proof.
  intro Hparse. rewrite parse_items in Hparse.
  destruct (apply_items_frame _ _ _ _ _ Hparse) as (Fc & Fk & Fs & Fg).
  repeat split; try assumption.
  - exact (apply_items_verbose _ _ _ _ _ Hparse).
  - exact (apply_items_overwrite _ _ _ _ _ Hparse).
Qed.

(** X6: the file names that the loop collects are, in the order of the
    command line, the arguments that are not empty, do not start with a dash,
    and are not the value of [-c], [-s] or [-g]; the loop says nothing on the
    way. *)
Theorem file_names_are_the_operands (progName : string) (argv : list string)
  (o : Options) (t : list Event) :
  parse progName argv initial = (Ret o, t) ->
  fileNames o = operands argv /\ t = [].
Proof.
  intro Hparse. split.
  - exact (parse_Ret_fileNames _ _ _ _ Hparse).
  - exact (parse_Ret_silent _ _ _ _ _ Hparse).
Qed.

End Variables_of_main.

(** ** The ways through [main] *)

(** Like [each_call], and makes use of what is known of a condition. *)
Ltac all_calls :=
  repeat match goal with
         | |- Forall _ (snd (when true _)) => cbn [when]
         | |- Forall _ (snd (when false _)) => cbn [when]
         | |- Forall _ (snd (if true then _ else _)) => cbv iota
         | |- Forall _ (snd (if false then _ else _)) => cbv iota
         | H : ?b = _ |- Forall _ (snd (when ?b _)) => rewrite H
         | H : ?b = _ |- Forall _ (snd (if ?b then _ else _)) => rewrite H
         | |- Forall _ (snd (bind _ _)) => apply bind_Forall; [|intro]
         | |- Forall _ (snd (for_each _ _)) => apply for_each_Forall; intros
         | |- Forall _ (snd (for_each_acc _ _ _)) => apply for_each_acc_Forall; intros
         | |- Forall _ (snd (try_catch _)) => apply try_catch_Forall; [intro|]
         | |- Forall _ (snd (when ?b _)) => destruct b; cbn [when]
         | |- Forall _ (snd (if ?b then _ else _)) => destruct b
         | |- Forall _ (snd (call _ ?r)) => destruct r; cbn [call snd]
         | |- Forall _ (snd (emit _)) => cbn [emit snd]
         | |- Forall _ (snd (ret _)) => constructor
         | |- Forall _ (snd (exit _)) => constructor
         | |- Forall _ (snd (throw _)) => constructor
         | |- Forall _ (snd (usage _ _)) => rewrite usage_eq; cbn [snd]
         | |- Forall _ (snd (complain _)) => cbn [complain emit snd]
         | |- Forall _ (snd (extension_or_throw ?f)) =>
           unfold extension_or_throw; destruct (extension f); cbn [ret throw snd]
         | |- Forall _ (_ :: _) => constructor
         | |- Forall _ [] => constructor
         end.

Section Ways.

Context {L : Library}.

(** All the calls of [main] have a property that all texts on [std::cerr]
    have, if the calls of the guard and of the [try] block have it for the
    variables that the loop has set. *)
Lemma main_Forall (P : Event -> Prop) (progName : string) (argv : list string)
  (w : World) :
  (forall text, P (Stderr text)) ->
  (forall o t toNanoVDB,
      parse progName argv initial = (Ret o, t) ->
      (2 <= length (operands argv))%nat ->
      Forall P (snd (overwrite_guard w o (last (operands argv) EmptyString)))
      /\ P EvInitialize
      /\ Forall P (snd (convert progName o toNanoVDB (last (operands argv) EmptyString)
                         (removelast (operands argv))))) ->
  Forall P (snd (main progName argv w)).
Proof.
  intros Herr Hrun. unfold main.
  pose proof (parse_outcome progName argv initial) as Ho.
  destruct (parse progName argv initial) as [r t] eqn:Hparse.
  inversion Ho as [o Hh Hf|s t' Ht Hs]; subst.
  - rewrite bind_Ret_nil. cbn [fileNames initial app] in Hf.
    fold (operands argv) in Hf. rewrite Hf.
    destruct (Nat.ltb_spec (length (operands argv)) 2) as [Hlt|Hlen]; cbn [when].
    { rewrite complain_usage. cbn [snd]. repeat constructor; apply Herr. }
    rewrite bind_ret_l.
    destruct (extension (last (operands argv) EmptyString)) as [ext|];
      [|constructor].
    rewrite bind_ret_l. unfold classify.
    destruct (ext =? "nvdb").
    { rewrite bind_ret_l.
      destruct (Hrun o [] true eq_refl Hlen) as (Hg & Hi & Hc).
      all_calls; try assumption; apply Herr. }
    destruct (negb (ext =? "vdb")).
    { rewrite complain_usage. cbn [snd]. repeat constructor; apply Herr. }
    rewrite bind_ret_l.
    destruct (Hrun o [] false eq_refl Hlen) as (Hg & Hi & Hc).
    all_calls; try assumption; apply Herr.
  - cbn [bind snd]. apply Forall_app. split.
    + eapply Forall_impl; [|exact Ht]. intros e [text ->]. apply Herr.
    + repeat constructor. apply Herr.
Qed.

End Ways.

(** ** What holds of every call of a run *)

Ltac open_convert :=
  unfold convert, toNano, toOpen, toNano_file, toOpen_file, encode_grid,
    decode_handle, version_note.

Section Every_call.

Context {L : Library}.

(** X7: the values of the command line are the values at work.  In a run
    whose arguments parse, every grid is encoded with the statistics mode,
    the checksum mode and the verbosity that the loop has set, every grid is
    written with the codec that it has set, a single grid is asked for by
    the grid name that it has set, and the output stream, [file.write] and the
    look at the output file are all on the last file name. *)
Theorem options_reach_the_library (progName : string) (argv : list string) (w : World)
  (o : Options) (t : list Event) :
  parse progName argv initial = (Ret o, t) ->
  Forall (carries o (last (operands argv) EmptyString)) (snd (main progName argv w)).
Proof.
  intro Hparse. apply main_Forall; [intro; exact I|].
  intros o' t' b Hparse' Hlen. rewrite Hparse in Hparse'. inversion Hparse'; subst o' t'.
  split; [|split].
  - unfold overwrite_guard. cbv zeta. all_calls; cbn; auto.
  - exact I.
  - open_convert. destruct b; all_calls; cbn; auto.
Qed.

(** X8: the grid name decides how the files are read.  In a run whose
    arguments parse, a file is asked for all its grids only if there is no
    grid name, and for a single named grid only if there is one. *)
Theorem grid_name_selects_the_read (progName : string) (argv : list string) (w : World)
  (o : Options) (t : list Event) :
  parse progName argv initial = (Ret o, t) ->
  Forall (selects o) (snd (main progName argv w)).
Proof.
  intro Hparse. apply main_Forall; [intro; exact I|].
  intros o' t' b Hparse' Hlen. rewrite Hparse in Hparse'. inversion Hparse'; subst o' t'.
  split; [|split].
  - unfold overwrite_guard. cbv zeta. all_calls; exact I.
  - exact I.
  - assert (Hyes : empty (gridName o) = true -> gridName o = EmptyString)
      by (destruct (gridName o); [reflexivity|discriminate]).
    assert (Hno : empty (gridName o) = false -> gridName o <> EmptyString)
      by (destruct (gridName o); [discriminate|intros _; discriminate]).
    open_convert.
    destruct (empty (gridName o)); destruct b; all_calls; cbn; auto.
Qed.

(** X9: a run that is not verbose says nothing on [std::cout] but the
    overwrite question and the request to name another output file. *)
Theorem quiet_unless_verbose (progName : string) (argv : list string) (w : World) :
  verbose_given argv = false ->
  Forall (quiet (last (operands argv) EmptyString)) (snd (main progName argv w)).
Proof.
  intro Hquiet. apply main_Forall; [intro; exact I|].
  intros o t b Hparse Hlen.
  assert (Hv : verbose o = false).
  { rewrite parse_items in Hparse. apply apply_items_verbose in Hparse.
    rewrite Hparse. exact Hquiet. }
  split; [|split].
  - unfold overwrite_guard. cbv zeta. all_calls; cbn; auto.
  - exact I.
  - open_convert. rewrite Hv.
    destruct b; all_calls; exact I.
Qed.

(** X10: a run never waits for the user without need.  With the force flag
    it neither looks at the output file nor reads [std::cin]; and when the
    output file cannot be opened or is empty, it does not read [std::cin]. *)
Theorem no_question_without_need (progName : string) (argv : list string) (w : World) :
  (force_given argv = true ->
   Forall (fun e => ~ is_guard_call e) (snd (main progName argv w)))
  /\ (disk w (last (operands argv) EmptyString) = None
      \/ disk w (last (operands argv) EmptyString) = Some EmptyString ->
      Forall (fun e => forall line, e <> EvGetline line) (snd (main progName argv w))).
Proof.
  split.
  - intro Hforce. apply main_Forall; [intros text []|].
    intros o t b Hparse Hlen.
    assert (Hf : overwrite o = true)
      by (rewrite (parse_Ret_overwrite _ _ _ _ Hparse); exact Hforce).
    split; [|split].
    + unfold overwrite_guard. rewrite Hf. constructor.
    + intros [].
    + open_convert. destruct b; all_calls; intros [].
  - intro Hdisk. apply main_Forall; [intros text line; discriminate|].
    intros o t b Hparse Hlen.
    split; [|split].
    + unfold overwrite_guard, peek_not_eof.
      destruct Hdisk as [-> | ->]; all_calls; intros line; discriminate.
    + intros line; discriminate.
    + open_convert. destruct b; all_calls; intros line; discriminate.
Qed.

End Every_call.

(** ** How a run ends *)

Section Endings.

Context {L : Library}.

Lemma ends_in_stderr_app (a b : list Event) :
  ends_in_stderr b -> ends_in_stderr (a ++ b).
Proof.
  intros (t' & text & ->). exists (a ++ t'), text. now rewrite app_assoc.
Qed.

Lemma reported_bind {A B} (m : M A) (k : A -> M B) :
  reported m -> (forall a, reported (k a)) -> reported (bind m k).
Proof.
  unfold reported. destruct m as [[a|s|e] t]; cbn [bind fst snd]; intros Hm Hk;
    try assumption.
  specialize (Hk a). destruct (k a) as [[b|s|e] t']; cbn [fst snd] in *.
  - apply Forall_app. auto.
  - destruct Hk as [-> Hk]. split; [reflexivity|now apply ends_in_stderr_app].
  - exact I.
Qed.

Lemma reported_for_each {A} (l : list A) (body : A -> M unit) :
  (forall x, reported (body x)) -> reported (for_each l body).
Proof.
  intro H. induction l as [|x l IH]; cbn [for_each]; [constructor|].
  apply reported_bind; auto.
Qed.

Lemma reported_for_each_acc {A S} (l : list A) (body : S -> A -> M S) :
  (forall acc x, reported (body acc x)) ->
  forall acc, reported (for_each_acc l body acc).
Proof.
  intro H. induction l as [|x l IH]; intro acc; cbn [for_each_acc]; [constructor|].
  apply reported_bind; auto.
Qed.

Lemma reported_call {A} (e : Event) (r : thrown A) :
  not_stderr e -> reported (call e r).
Proof.
  intro He. destruct r; cbn; [|exact I]. unfold reported. cbn. now constructor.
Qed.

Lemma reported_say (b : bool) (text : string) :
  reported (when b (emit (Stdout text))).
Proof. destruct b; unfold reported; cbn; repeat constructor. Qed.

Lemma reported_usage (b : bool) (progName text : string) :
  reported (when b (complain text ;; usage progName EXIT_FAILURE)).
Proof.
  destruct b; cbn [when]; [|constructor].
  rewrite complain_usage_eq. unfold reported. cbn [fst snd].
  split; [reflexivity|]. now exists [Stderr (text ++ nl ++ nl)], (usage_text progName).
Qed.

Lemma reported_extension (f : string) : reported (extension_or_throw f).
Proof. unfold extension_or_throw. destruct (extension f); [constructor|exact I]. Qed.

Lemma reported_ret {A} (a : A) : reported (ret a).
Proof. constructor. Qed.

Ltac reporting :=
  repeat first
    [ apply reported_bind; [|intro]
    | apply reported_for_each; intro
    | apply reported_for_each_acc; intros
    | apply reported_call; exact I
    | apply reported_say
    | apply reported_usage
    | apply reported_extension
    | apply reported_ret ].

Lemma convert_reported (progName : string) (o : Options) (toNanoVDB : bool)
  (outputFile : string) (inputs : list string) :
  reported (convert progName o toNanoVDB outputFile inputs).
Proof.
  open_convert. unfold emit.
  destruct toNanoVDB, (empty (gridName o)); reporting.
  all: try (unfold reported; cbn; repeat constructor).
Qed.

Lemma try_catch_settled (argv : list string) (body : M unit) :
  reported body -> settled argv (try_catch body).
Proof.
  unfold reported, settled.
  destruct body as [[[]|s|[what|]] t]; cbn [try_catch fst snd]; intro H.
  - left. auto.
  - left. exact H.
  - right. split; [reflexivity|]. now eexists t, _.
  - right. split; [reflexivity|]. now eexists t, _.
Qed.

Lemma overwrite_guard_not_stderr (w : World) (o : Options) (outputFile : string) :
  Forall not_stderr (snd (overwrite_guard w o outputFile)).
Proof. unfold overwrite_guard. cbv zeta. each_call; exact I. Qed.

Lemma main_settled (progName : string) (argv : list string) (w : World) :
  settled argv (main progName argv w).
Proof.
  unfold main.
  pose proof (parse_outcome progName argv initial) as Ho.
  destruct (parse progName argv initial) as [r t] eqn:Hparse.
  inversion Ho as [o Hh Hf|s t' Ht Hs]; subst.
  - rewrite bind_Ret_nil. cbn [fileNames initial app] in Hf.
    fold (operands argv) in Hf. rewrite Hf.
    destruct (Nat.ltb_spec (length (operands argv)) 2) as [Hlt|Hlen]; cbn [when].
    { rewrite complain_usage. left. split; [reflexivity|]. now eexists [_], _. }
    rewrite bind_ret_l.
    destruct (extension (last (operands argv) EmptyString)) as [ext|] eqn:Hext;
      [|exact Hext].
    rewrite bind_ret_l.
    assert (Hgo : forall b,
               settled argv
                 (overwrite_guard w o (last (operands argv) EmptyString) ;;
                  emit EvInitialize ;;
                  try_catch (convert progName o b (last (operands argv) EmptyString)
                               (removelast (operands argv))))).
    { intro b.
      pose proof (overwrite_guard_not_stderr w o (last (operands argv) EmptyString))
        as Hquiet.
      pose proof (try_catch_settled argv _
                    (convert_reported progName o b (last (operands argv) EmptyString)
                       (removelast (operands argv)))) as Hrun.
      destruct (guard_outcome w o (last (operands argv) EmptyString))
        as [(tg & Hg)|(tg & Hg & _)]; rewrite Hg in *; cbn [snd] in Hquiet.
      - unfold emit. cbn [bind].
        destruct (try_catch _) as [[s|s|e] tc]; unfold settled in *;
          cbn [fst snd app] in *.
        + destruct Hrun as [[-> Hrun]|[-> Hrun]]; [left|right]; split; auto.
          * apply Forall_app. split; [assumption|]. now constructor.
          * apply ends_in_stderr_app. now apply (ends_in_stderr_app [EvInitialize]).
        + destruct Hrun as [[-> Hrun]|Hrun]; [left|now right].
          split; [reflexivity|].
          apply ends_in_stderr_app. now apply (ends_in_stderr_app [EvInitialize]).
        + rewrite Hext in Hrun. discriminate.
      - right. reflexivity. }
    unfold classify. destruct (ext =? "nvdb").
    { rewrite bind_ret_l. apply Hgo. }
    destruct (negb (ext =? "vdb")).
    { rewrite complain_usage. left. split; [reflexivity|]. now eexists [_], _. }
    rewrite bind_ret_l. apply Hgo.
  - unfold settled. cbn [bind fst snd].
    destruct Hs as [->|[-> _]]; [left|now right].
    split; [reflexivity|]. now exists t', (usage_text progName).
Qed.

(** X11: no failure without a word.  A run that ends with the status
    [EXIT_FAILURE], by [exit] or by the [return] of [main], has a text on
    [std::cerr] as its last call; and a run in which [main] returns
    [EXIT_SUCCESS] has written nothing on [std::cerr]. *)
Theorem every_failure_is_reported (progName : string) (argv : list string) (w : World) :
  (exit_status (fst (main progName argv w)) = Some EXIT_FAILURE ->
   ends_in_stderr (snd (main progName argv w)))
  /\ (fst (main progName argv w) = Ret EXIT_SUCCESS ->
      Forall not_stderr (snd (main progName argv w))).
Proof.
  pose proof (main_settled progName argv w) as H. unfold settled in H.
  destruct (main progName argv w) as [[s|s|e] tr]; cbn [fst snd exit_status] in *.
  - split; intro Hs; inversion Hs; subst;
      destruct H as [[H1 H2]|[H1 H2]]; try assumption; discriminate.
  - split; [|discriminate]. intro Hs; inversion Hs; subst.
    destruct H as [[_ H]|H]; [assumption|discriminate].
  - split; discriminate.
Qed.

End Endings.

(** ** Exceptions that leave [main] *)

Section Exit_status.

Context {L : Library}.

Lemma operands_incl (argv : list string) :
  forall p, In p (operands argv) -> In p argv.
Proof.
  unfold operands.
  induction argv as [|arg rest IH1 IH2] using argv_ind; intros p; [intros []|].
  cbn [items]. destruct (first_is_dash arg).
  - destruct (takes_value arg).
    + destruct rest as [|value rest']; cbn; [intros []|].
      intro H. right. right. exact (IH2 p H).
    + cbn. intro H. right. exact (IH1 p H).
  - destruct (empty arg); cbn.
    + intro H. right. exact (IH1 p H).
    + intros [->|H]; [now left|right; exact (IH1 p H)].
Qed.

Lemma last_in {A} (l : list A) (d : A) : l = [] \/ In (last l d) l.
Proof.
  induction l as [|x l IH]; [now left|right].
  destruct IH as [->|IH]; [now left|].
  destruct l as [|y l]; [now left|]. right. exact IH.
Qed.

Lemma fits_output (argv : list string) :
  Forall fits argv -> fits (last (operands argv) EmptyString).
Proof.
  intro Hfit. destruct (last_in (operands argv) EmptyString) as [->|Hin].
  - unfold fits, size_max. cbn. lia.
  - rewrite Forall_forall in Hfit. apply Hfit, operands_incl, Hin.
Qed.

Lemma main_init_returns (progName : string) (argv : list string) (w : World) :
  main_init (Ok tt) progName argv w = main progName argv w.
Proof. reflexivity. Qed.

(** The ways through [main] when [openvdb::initialize()] throws [e]: the run
    has ended before the call, or the exception of [substr] is in flight, or
    [e] is. *)
Lemma main_init_thrown (progName : string) (argv : list string) (w : World) (e : Exn) :
  let m := main_init (Raise e) progName argv w in
  (exists s, fst m = Exit s /\ (s = EXIT_SUCCESS \/ s = EXIT_FAILURE)
             /\ ~ In EvInitialize (snd m))
  \/ (exists e', fst m = Throw e'
                 /\ extension (last (operands argv) EmptyString) = None)
  \/ (fst m = Throw e /\ Forall plain (snd m)
      /\ exists t', snd m = t' ++ [EvInitialize] /\ ~ In EvInitialize t').
Proof.
  intro m. subst m. unfold main_init.
  pose proof (parse_outcome progName argv initial) as Ho.
  destruct (parse progName argv initial) as [r t] eqn:Hparse.
  inversion Ho as [o Hh Hf|s t' Ht Hs]; subst.
  - rewrite bind_Ret_nil. cbn [fileNames initial app] in Hf.
    fold (operands argv) in Hf. rewrite Hf.
    destruct (Nat.ltb_spec (length (operands argv)) 2) as [Hlt|Hlen]; cbn [when].
    { rewrite complain_usage. left. exists EXIT_FAILURE. cbn [fst snd].
      repeat split; auto. intros [H|[H|[]]]; discriminate. }
    rewrite bind_ret_l.
    destruct (extension (last (operands argv) EmptyString)) as [ext|] eqn:Hext;
      [|right; left; eexists; split; reflexivity].
    rewrite bind_ret_l.
    assert (Hgo : forall b,
               let m := (overwrite_guard w o (last (operands argv) EmptyString) ;;
                         call EvInitialize (@Raise unit e) ;;
                         try_catch (convert progName o b (last (operands argv) EmptyString)
                                      (removelast (operands argv)))) in
               (exists s, fst m = Exit s /\ (s = EXIT_SUCCESS \/ s = EXIT_FAILURE)
                          /\ ~ In EvInitialize (snd m))
               \/ (exists e', fst m = Throw e' /\ Some ext = None)
               \/ (fst m = Throw e /\ Forall plain (snd m)
                   /\ exists t', snd m = t' ++ [EvInitialize] /\ ~ In EvInitialize t')).
    { intro b.
      pose proof (overwrite_guard_plain w o (last (operands argv) EmptyString)) as Hp.
      pose proof (overwrite_guard_before_initialize w o (last (operands argv) EmptyString))
        as Hb.
      assert (Hno : forall tg, Forall (fun e0 : Event => e0 <> EvInitialize) tg ->
                               ~ In EvInitialize tg).
      { intros tg H Hin. rewrite Forall_forall in H. exact (H _ Hin eq_refl). }
      destruct (guard_outcome w o (last (operands argv) EmptyString))
        as [(tg & Hg)|(tg & Hg & _)]; rewrite Hg in *; cbn [snd] in Hp, Hb; cbn.
      - right. right. split; [reflexivity|]. split.
        + apply Forall_app. split; [assumption|repeat constructor].
        + exists tg. split; [reflexivity|auto].
      - left. exists EXIT_SUCCESS. repeat split; auto. }
    unfold classify. destruct (ext =? "nvdb").
    { rewrite bind_ret_l. apply Hgo. }
    destruct (negb (ext =? "vdb")).
    { rewrite complain_usage. left. exists EXIT_FAILURE. cbn [fst snd].
      repeat split; auto. intros [H|[H|[]]]; discriminate. }
    rewrite bind_ret_l. apply Hgo.
  - cbn [bind fst snd]. left. exists s. split; [reflexivity|]. split.
    + destruct Hs as [->|[-> _]]; auto.
    + intro Hin. apply in_app_iff in Hin as [Hin|[Hin|[]]]; [|discriminate].
      rewrite Forall_forall in Ht. destruct (Ht _ Hin) as [text Htext]. discriminate.
Qed.

(** X12: the one exception that can leave [main].  [openvdb::initialize()]
    is called outside the [try] block, and what it throws is caught by
    nothing: the exception leaves [main] right after that call, which is then
    the only call of its kind and the last one, after nothing but text, the
    look at the output file and the answer of the user.  That apart, a run on
    arguments that fit a [std::string] always comes to an exit status, and it
    is [EXIT_SUCCESS] or [EXIT_FAILURE]: the exceptions of the library calls
    inside the [try] block are all caught, and the [substr] of line 121 never
    throws.  So it is in every run in which [openvdb::initialize()] returns,
    and in every run that ends before line 145. *)
Theorem only_initialize_throws_out_of_main (progName : string) (argv : list string)
  (w : World) (init : thrown unit) :
  Forall fits argv ->
  let r := fst (main_init init progName argv w) in
  let tr := snd (main_init init progName argv w) in
  ((exists s, exit_status r = Some s /\ (s = EXIT_SUCCESS \/ s = EXIT_FAILURE))
   \/ (exists e t',
          init = Raise e /\ r = Throw e /\ tr = t' ++ [EvInitialize]
          /\ ~ In EvInitialize t' /\ Forall plain tr))
  /\ (forall e, init = Raise e -> In EvInitialize tr -> r = Throw e)
  /\ (forall u, init = Ok u ->
      main_init init progName argv w = main progName argv w
      /\ exists s, exit_status r = Some s /\ (s = EXIT_SUCCESS \/ s = EXIT_FAILURE)).
Proof.
  intros Hfit r tr.
  pose proof (extension_spec _ (fits_output argv Hfit)) as Hext.
  assert (Hok : exists s,
             exit_status (fst (main progName argv w)) = Some s
             /\ (s = EXIT_SUCCESS \/ s = EXIT_FAILURE)).
  { pose proof (main_settled progName argv w) as H. unfold settled in H.
    destruct (main progName argv w) as [[s|s|e] t]; cbn [fst snd exit_status] in *.
    - exists s. split; [reflexivity|]. destruct H as [[-> _]|[-> _]]; auto.
    - exists s. split; [reflexivity|]. destruct H as [[-> _]| ->]; auto.
    - rewrite Hext in H. discriminate. }
  subst r tr. destruct init as [[]|e].
  - rewrite main_init_returns.
    split; [left; exact Hok|]. split; [discriminate|].
    intros _ _. split; [reflexivity|exact Hok].
  - pose proof (main_init_thrown progName argv w e) as Hways. cbv zeta in Hways.
    destruct Hways
      as [(s & Hs & Hstat & Hnot)|[(e' & _ & Hnone)|(Hthrow & Hplain & t' & Htr & Hnot)]];
      [| rewrite Hext in Hnone; discriminate |].
    + split; [|split; [|discriminate]].
      * left. exists s. rewrite Hs. auto.
      * intros e0 _ Hin. contradiction.
    + split; [|split; [|discriminate]].
      * right. exists e, t'. auto.
      * intros e0 He0 _. inversion He0; subst. exact Hthrow.
Qed.

End Exit_status.

(** ** The extension of a file name, once more *)

Section Extension_shape.

(** X13: the index arithmetic of [f.substr(f.find_last_of(".") + 1)] gives
    the part of the name after its last dot.  Every name that fits a
    [std::string] has an extension; the extension holds no dot; and the name
    is the extension itself, when the name has no dot, or some stem, a dot,
    and the extension.  So [a.b.vdb] has the extension [vdb], a name that ends
    in a dot has the empty extension, and the name [vdb] is its own
    extension. *)
Theorem extension_is_after_the_last_dot (f : string) :
  fits f ->
  exists ext,
    extension f = Some ext
    /\ last_index ext "."%char = None
    /\ ((last_index f "."%char = None /\ f = ext)
        \/ exists stem : string, f = (stem ++ String "."%char ext)%string).
Proof.
  intro Hfit. exists (after_last_dot f).
  split; [exact (extension_spec f Hfit)|].
  unfold after_last_dot.
  destruct (last_index f "."%char) as [k|] eqn:Hk.
  - destruct (last_index_split f "."%char k Hk) as [Hnone Hstem]. auto.
  - auto.
Qed.

End Extension_shape.

(** ** The input files are taken in the order of the command line *)

Section Order.

Context {L : Library}.

Lemma bind_after {A B} (a : A) (t : list Event) (k : A -> M B) :
  fst (bind (Ret a, t) k) = fst (k a) /\ snd (bind (Ret a, t) k) = t ++ snd (k a).
Proof. cbn [bind]. destruct (k a). auto. Qed.

Lemma bind_stops {A B} (m : M A) (k : A -> M B) :
  ~ is_Ret (fst m) -> ~ is_Ret (fst (bind m k)) /\ snd (bind m k) = snd m.
Proof.
  destruct m as [[a|s|e] t]; cbn; intro H; [contradiction| |]; auto.
Qed.

(** A loop whose rounds each leave the mark of their element, or leave no
    mark and end the loop, has left the marks of a prefix of its list, and
    of the whole list if it comes to its end. *)
Section Marks.

Variable mark : list Event -> list string.
Hypothesis mark_app : forall a b, mark (a ++ b) = mark a ++ mark b.
Hypothesis mark_nil : mark [] = [].

Lemma for_each_marks (l : list string) (body : string -> M unit) :
  (forall x, mark (snd (body x)) = [x]
             \/ (mark (snd (body x)) = [] /\ ~ is_Ret (fst (body x)))) ->
  exists k,
    mark (snd (for_each l body)) = firstn k l
    /\ (is_Ret (fst (for_each l body)) -> mark (snd (for_each l body)) = l).
Proof.
  intro Hbody. induction l as [|x l (k & Hk & Hall)]; cbn [for_each].
  - exists 0%nat. cbn. auto.
  - specialize (Hbody x). destruct (body x) as [[[]|s|e] t1]; cbn [fst snd] in Hbody.
    + destruct Hbody as [Hx|[_ Hx]]; [|exfalso; exact (Hx I)].
      destruct (bind_after tt t1 (fun _ => for_each l body)) as [-> ->].
      cbv beta. rewrite mark_app, Hx. exists (S k). cbn [firstn app].
      split; [f_equal; exact Hk|]. intro Hret. f_equal. exact (Hall Hret).
    + cbn. destruct Hbody as [Hx|[Hx _]]; rewrite Hx;
        [exists 1%nat|exists 0%nat]; cbn; split; try reflexivity; intros [].
    + cbn. destruct Hbody as [Hx|[Hx _]]; rewrite Hx;
        [exists 1%nat|exists 0%nat]; cbn; split; try reflexivity; intros [].
Qed.

Lemma for_each_acc_marks {St} (l : list string) (body : St -> string -> M St) :
  (forall acc x, mark (snd (body acc x)) = [x]
                 \/ (mark (snd (body acc x)) = [] /\ ~ is_Ret (fst (body acc x)))) ->
  forall acc,
  exists k,
    mark (snd (for_each_acc l body acc)) = firstn k l
    /\ (is_Ret (fst (for_each_acc l body acc)) ->
        mark (snd (for_each_acc l body acc)) = l).
Proof.
  intro Hbody. induction l as [|x l IH]; intro acc; cbn [for_each_acc].
  - exists 0%nat. cbn. auto.
  - specialize (Hbody acc x).
    destruct (body acc x) as [[acc'|s|e] t1]; cbn [fst snd] in Hbody.
    + destruct Hbody as [Hx|[_ Hx]]; [|exfalso; exact (Hx I)].
      destruct (IH acc') as (k & Hk & Hall).
      destruct (bind_after acc' t1 (fun a => for_each_acc l body a)) as [-> ->].
      cbv beta. rewrite mark_app, Hx. exists (S k). cbn [firstn app].
      split; [f_equal; exact Hk|]. intro Hret. f_equal. exact (Hall Hret).
    + cbn. destruct Hbody as [Hx|[Hx _]]; rewrite Hx;
        [exists 1%nat|exists 0%nat]; cbn; split; try reflexivity; intros [].
    + cbn. destruct Hbody as [Hx|[Hx _]]; rewrite Hx;
        [exists 1%nat|exists 0%nat]; cbn; split; try reflexivity; intros [].
Qed.

End Marks.

Lemma files_opened_app (a b : list Event) :
  files_opened (a ++ b) = files_opened a ++ files_opened b.
Proof.
  induction a as [|e a IH]; [reflexivity|]. destruct e; cbn; now rewrite ?IH.
Qed.

Lemma files_opened_none (t : list Event) :
  Forall (fun e => forall p, e <> EvFileOpen p) t -> files_opened t = [].
Proof.
  induction 1 as [|e t He Ht IH]; [reflexivity|].
  destruct e; cbn; try assumption. exfalso. exact (He path eq_refl).
Qed.

Lemma files_read_none (t : list Event) :
  Forall (fun e => files_read [e] = []) t -> files_read t = [].
Proof.
  induction 1 as [|e t He Ht IH]; [reflexivity|].
  change (e :: t) with ([e] ++ t). now rewrite files_read_app, He, IH.
Qed.

Lemma toNano_file_marks (progName : string) (o : Options) (outputFile f : string) :
  files_opened (snd (toNano_file progName o outputFile f)) = [f]
  \/ (files_opened (snd (toNano_file progName o outputFile f)) = []
      /\ ~ is_Ret (fst (toNano_file progName o outputFile f))).
Proof.
  unfold toNano_file, extension_or_throw.
  destruct (extension f) as [ext|]; [|right; cbn; auto].
  rewrite bind_ret_l.
  destruct (negb (ext =? "vdb")); cbn [when].
  { rewrite complain_usage. right. cbn. auto. }
  rewrite bind_ret_l.
  destruct (when_verbose_plain (verbose o)
              ("Opening OpenVDB file named " ++ dquote ++ f ++ dquote ++ nl))
    as (tv & -> & Hv).
  assert (Htv : files_opened tv = []).
  { apply files_opened_none. eapply Forall_impl; [|exact Hv].
    intros e He p ->. exact He. }
  left. match goal with |- context [bind (Ret tt, tv) ?k] =>
    destruct (bind_after tt tv k) as [_ ->] end.
  cbv beta. rewrite files_opened_app, Htv. cbn [app].
  destruct (file_open f) as [[]|e]; cbn [call]; [|reflexivity].
  match goal with |- context [bind (Ret tt, ?t) ?k] =>
    destruct (bind_after tt t k) as [_ ->] end.
  cbv beta. rewrite files_opened_app. cbn [files_opened app]. f_equal.
  apply files_opened_none.
  unfold encode_grid. destruct (empty (gridName o)); each_call; intros p; discriminate.
Qed.

Lemma toOpen_file_marks (progName : string) (o : Options) (grids : list OpenGrid)
  (f : string) :
  files_read (snd (toOpen_file progName o grids f)) = [f]
  \/ (files_read (snd (toOpen_file progName o grids f)) = []
      /\ ~ is_Ret (fst (toOpen_file progName o grids f))).
Proof.
  unfold toOpen_file, extension_or_throw.
  destruct (extension f) as [ext|]; [|right; cbn; auto].
  rewrite bind_ret_l.
  destruct (negb (ext =? "nvdb")); cbn [when].
  { rewrite complain_usage. right. cbn. auto. }
  rewrite bind_ret_l.
  destruct (when_verbose_plain (verbose o)
              ("Opening NanoVDB file named " ++ dquote ++ f ++ dquote ++ nl))
    as (tv & -> & Hv).
  apply plain_trace in Hv as (_ & Htv & _).
  left. match goal with |- context [bind (Ret tt, tv) ?k] =>
    destruct (bind_after tt tv k) as [_ ->] end.
  cbv beta. rewrite files_read_app, Htv. cbn [app].
  destruct (empty (gridName o)).
  - destruct (readGrids f (verbose o)) as [handles|e]; cbn [call]; [|reflexivity].
    match goal with |- context [bind (Ret handles, ?t) ?k] =>
      destruct (bind_after handles t k) as [_ ->] end.
    cbv beta. rewrite files_read_app. cbn [files_read app]. f_equal.
    apply files_read_none. unfold decode_handle. each_call; reflexivity.
  - destruct (readGrid f (gridName o)) as [h|e]; cbn [call]; [|reflexivity].
    match goal with |- context [bind (Ret h, ?t) ?k] =>
      destruct (bind_after h t k) as [_ ->] end.
    cbv beta. rewrite files_read_app. cbn [files_read app]. f_equal.
    apply files_read_none. unfold decode_handle. each_call; reflexivity.
Qed.

Lemma plain_not_opened (t : list Event) : Forall plain t -> files_opened t = [].
Proof.
  intro H. apply files_opened_none. eapply Forall_impl; [|exact H].
  intros e He p ->. exact He.
Qed.

(** The calls of the [try] block towards OpenVDB: the loop runs, and what
    follows reads no file. *)
Lemma toOpen_block_trace (progName : string) (o : Options) (outputFile : string)
  (inputs : list string) :
  let loop := for_each_acc inputs (toOpen_file progName o) [] in
  let run := try_catch (toOpen progName o outputFile inputs ;; version_note o) in
  exists extra,
    snd run = snd loop ++ extra
    /\ files_read extra = []
    /\ (fst run = Ret EXIT_SUCCESS -> is_Ret (fst loop)).
Proof.
  intros loop run. subst loop run. unfold toOpen.
  destruct (for_each_acc inputs _ []) as [[gs|s|[what|]] tl]; cbn [bind fst snd].
  - pose proof (version_note_plain o) as Hv.
    apply plain_trace in Hv as (_ & Hv & _).
    destruct (file_write outputFile gs) as [[]|[what|]]; cbn [call bind].
    + destruct (version_note o) as [[[]|s|[what|]] tv]; cbn [try_catch fst snd] in *;
        rewrite <- ?app_assoc; eexists; (split; [reflexivity|]);
        rewrite ?files_read_app; cbn; rewrite ?Hv; auto.
    + cbn [try_catch fst snd]. rewrite <- app_assoc. eexists. split; [reflexivity|].
      cbn. auto.
    + cbn [try_catch fst snd]. rewrite <- app_assoc. eexists. split; [reflexivity|].
      cbn. auto.
  - cbn. exists []. rewrite app_nil_r. repeat split. discriminate.
  - cbn. eexists [_]. repeat split. discriminate.
  - cbn. eexists [_]. repeat split. discriminate.
Qed.

(** X14: the input files are taken in the order of the command line, none
    is skipped and none is taken twice.  Towards NanoVDB, the OpenVDB files
    that a run opens are the first so many of its inputs, and all of them if
    [main] returns [EXIT_SUCCESS]; towards OpenVDB, the same holds of the
    NanoVDB files that a run reads. *)
Theorem inputs_in_order (progName : string) (argv : list string) (w : World)
  (o : Options) (t : list Event) :
  parse progName argv initial = (Ret o, t) ->
  (2 <= length (operands argv))%nat ->
  let outputFile := last (operands argv) EmptyString in
  let inputs := removelast (operands argv) in
  let r := fst (main progName argv w) in
  let tr := snd (main progName argv w) in
  (extension outputFile = Some "nvdb" ->
   exists k, files_opened tr = firstn k inputs
             /\ (r = Ret EXIT_SUCCESS -> files_opened tr = inputs))
  /\ (extension outputFile = Some "vdb" ->
      exists k, files_read tr = firstn k inputs
                /\ (r = Ret EXIT_SUCCESS -> files_read tr = inputs)).
Proof.
  intros Hparse Hlen outputFile inputs r tr.
  pose proof (overwrite_guard_plain w o outputFile) as Hg.
  split; intro Hext.
  - pose proof (main_classified progName argv w o t "nvdb" true Hparse Hlen Hext eq_refl)
      as Hmain.
    fold outputFile in Hmain. unfold after_guard, convert in Hmain.
    rewrite (parse_Ret_fileNames _ _ _ _ Hparse) in Hmain. fold outputFile inputs in Hmain.
    destruct (toNano_block_trace progName o outputFile inputs)
      as (extra & Hrun & Hextra & Hret).
    destruct (for_each_marks files_opened files_opened_app eq_refl inputs
                (toNano_file progName o outputFile)
                (toNano_file_marks progName o outputFile)) as (k & Hk & Hall).
    subst r tr. rewrite Hmain.
    destruct (guard_outcome w o outputFile) as [(tg & Hguard)|(tg & Hguard & _)];
      rewrite Hguard in *; cbn [snd] in Hg.
    + unfold emit. cbn [bind].
      destruct (try_catch _) as [rr tc]. cbn [fst snd app] in *. subst tc.
      exists k. rewrite files_opened_app, (plain_not_opened _ Hg).
      cbn [app files_opened]. rewrite files_opened_app, (plain_not_opened _ Hextra).
      rewrite app_nil_r. split; [exact Hk|]. intro Hs. exact (Hall (Hret Hs)).
    + cbn. exists 0%nat. rewrite (plain_not_opened _ Hg). split; [reflexivity|].
      discriminate.
  - pose proof (main_classified progName argv w o t "vdb" false Hparse Hlen Hext eq_refl)
      as Hmain.
    fold outputFile in Hmain. unfold after_guard, convert in Hmain.
    rewrite (parse_Ret_fileNames _ _ _ _ Hparse) in Hmain. fold outputFile inputs in Hmain.
    destruct (toOpen_block_trace progName o outputFile inputs)
      as (extra & Hrun & Hextra & Hret).
    destruct (for_each_acc_marks files_read files_read_app eq_refl inputs
                (toOpen_file progName o)
                (toOpen_file_marks progName o) []) as (k & Hk & Hall).
    apply plain_trace in Hg as (_ & Hg & _).
    subst r tr. rewrite Hmain.
    destruct (guard_outcome w o outputFile) as [(tg & Hguard)|(tg & Hguard & _)];
      rewrite Hguard in *; cbn [snd] in Hg.
    + unfold emit. cbn [bind].
      destruct (try_catch _) as [rr tc]. cbn [fst snd app] in *. subst tc.
      exists k. rewrite files_read_app, Hg.
      cbn [app files_read]. rewrite files_read_app, Hextra.
      rewrite app_nil_r. split; [exact Hk|]. intro Hs. exact (Hall (Hret Hs)).
    + cbn. exists 0%nat. rewrite Hg. split; [reflexivity|]. discriminate.
Qed.

(** X15: towards NanoVDB, a run that gets past the overwrite guard opens the
    output stream before it looks at any input: the output file is created
    or truncated even if the very first input then has the wrong extension,
    cannot be opened, or lacks the grid that was asked for. *)
Theorem output_is_opened_first (progName : string) (argv : list string) (w : World)
  (o : Options) (t tg : list Event) :
  parse progName argv initial = (Ret o, t) ->
  (2 <= length (operands argv))%nat ->
  let outputFile := last (operands argv) EmptyString in
  extension outputFile = Some "nvdb" ->
  overwrite_guard w o outputFile = (Ret tt, tg) ->
  exists r rest,
    main progName argv w = (r, tg ++ EvInitialize :: EvOfstream outputFile :: rest)
    /\ files_opened tg = []
    /\ Forall no_write tg.
Proof.
  intros Hparse Hlen outputFile Hext Hguard.
  pose proof (overwrite_guard_plain w o outputFile) as Hg.
  rewrite Hguard in Hg. cbn [snd] in Hg.
  rewrite (main_classified progName argv w o t "nvdb" true Hparse Hlen Hext eq_refl).
  fold outputFile. rewrite Hguard. unfold after_guard, convert, emit.
  rewrite (parse_Ret_fileNames _ _ _ _ Hparse). fold outputFile.
  destruct (toNano_block_starts progName o outputFile (removelast (operands argv)))
    as (rest & Hrest).
  cbn [bind]. destruct (try_catch _) as [r tc]. cbn [snd] in Hrest. subst tc.
  exists r, rest. split; [reflexivity|].
  split; [exact (plain_not_opened _ Hg)|exact (proj1 (plain_trace _ Hg))].
Qed.

End Order.

(** ** Inputs that stop the loop *)

Section Stops.

Context {L : Library}.

Lemma for_each_acc_Ret_all {A St} (l : list A) (body : St -> A -> M St) :
  forall acc r t,
    for_each_acc l body acc = (Ret r, t) ->
    forall x, In x l -> exists acc' r' t', body acc' x = (Ret r', t').
Proof.
  induction l as [|y l IH]; intros acc r t H x Hx; [destruct Hx|].
  cbn [for_each_acc] in H.
  apply bind_Ret_inv in H as (a1 & t1 & t2 & H1 & H2 & _).
  destruct Hx as [->|Hx]; [now exists acc, a1, t1|].
  exact (IH _ _ _ H2 x Hx).
Qed.

Lemma toOpen_file_Ret_extension (progName : string) (o : Options)
  (grids gs : list OpenGrid) (f : string) (t : list Event) :
  toOpen_file progName o grids f = (Ret gs, t) -> extension f = Some "nvdb".
Proof.
  unfold toOpen_file, extension_or_throw. intro H.
  destruct (extension f) as [ext|]; [|discriminate].
  rewrite bind_ret_l in H.
  destruct (ext =? "nvdb") eqn:E; [apply String.eqb_eq in E; now subst|].
  cbn [negb when] in H. rewrite complain_usage in H. discriminate.
Qed.

(** X16: towards OpenVDB, one input whose extension is not [nvdb] is enough
    for the output file never to be written, whatever the other inputs hold:
    the run makes no call that writes a file, so that the output file is on
    every disk that the run may leave what it was; and the run ends with
    [EXIT_FAILURE], unless the user has declined at the overwrite prompt.
    That is the only way for such a run to end with [EXIT_SUCCESS]: the
    force flag is absent, the output file is there and not empty, the answer
    is none of the accepted ones, [exit] is called, and the run has made no
    call that touches a grid or reads an input. *)
Theorem wrong_input_keeps_vdb_unwritten (progName : string) (argv : list string)
  (w : World) (o : Options) (t : list Event) (bad : string) :
  parse progName argv initial = (Ret o, t) ->
  (2 <= length (operands argv))%nat ->
  extension (last (operands argv) EmptyString) = Some "vdb" ->
  In bad (removelast (operands argv)) ->
  extension bad <> Some "nvdb" ->
  let outputFile := last (operands argv) EmptyString in
  exists r tr,
    main progName argv w = (r, tr)
    /\ Forall no_write tr
    /\ (forall d', disk_after (disk w) tr d' -> d' outputFile = disk w outputFile)
    /\ (exit_status r = Some EXIT_FAILURE
        \/ (r = Exit EXIT_SUCCESS
            /\ force_given argv = false
            /\ (exists c content, disk w outputFile = Some (String c content))
            /\ ~ In (stdin_line w) [EmptyString; "Y"; "y"; "yes"; "YES"]
            /\ Forall plain tr)).
Proof.
  intros Hparse Hlen Hext Hin Hbad outputFile.
  set (inputs := removelast (operands argv)) in *.
  assert (Hshape : exists r tr,
             main progName argv w = (r, tr) /\ Forall no_write tr
             /\ (exit_status r = Some EXIT_FAILURE
                 \/ (r = Exit EXIT_SUCCESS
                     /\ force_given argv = false
                     /\ (exists c content,
                            disk w outputFile = Some (String c content))
                     /\ ~ In (stdin_line w) [EmptyString; "Y"; "y"; "yes"; "YES"]
                     /\ Forall plain tr))).
  { rewrite (main_classified progName argv w o t "vdb" false Hparse Hlen Hext eq_refl).
    fold outputFile. unfold after_guard.
    rewrite (parse_Ret_fileNames _ _ _ _ Hparse). fold outputFile inputs.
    set (body := convert progName o false outputFile inputs).
    assert (Hloop : ~ is_Ret (fst (for_each_acc inputs (toOpen_file progName o) []))).
    { destruct (for_each_acc inputs (toOpen_file progName o) []) as [[gs|s|e] tl] eqn:E;
        cbn; auto.
      intros _. destruct (for_each_acc_Ret_all _ _ _ _ _ E bad Hin) as (a & g & t' & Hb).
      apply toOpen_file_Ret_extension in Hb. contradiction. }
    assert (Hbody : ~ is_Ret (fst body)
                    /\ snd body = snd (for_each_acc inputs (toOpen_file progName o) [])).
    { unfold body, convert, toOpen.
      destruct (bind_stops _ (fun grids =>
                  call (EvFileWrite outputFile grids) (file_write outputFile grids))
                  Hloop) as [H1 H2].
      destruct (bind_stops _ (fun _ => version_note o) H1) as [H3 H4].
      split; [exact H3|]. now rewrite H4, H2. }
    destruct Hbody as [Hstop Htrace].
    assert (Hquiet : Forall no_write (snd body))
      by (rewrite Htrace; apply toOpen_loop_no_write).
    assert (Hfail : fails body).
    { pose proof (convert_reported progName o false outputFile inputs) as Hr.
      fold body in Hr. unfold reported in Hr. unfold fails.
      destruct (fst body) as [[]|s|e]; [exfalso; exact (Hstop I)| |].
      - left. now destruct Hr as [-> _].
      - right. now exists e. }
    pose proof (try_catch_fails body Hfail) as Hstatus.
    pose proof (try_catch_Forall no_write body (fun _ => eq_refl) Hquiet) as Htq.
    pose proof (overwrite_guard_no_write w o outputFile) as Hg.
    pose proof (overwrite_guard_plain w o outputFile) as Hp.
    destruct (try_catch body) as [r1 t1]. cbn [fst snd] in Hstatus, Htq.
    destruct (guard_outcome w o outputFile)
      as [(tg & Hguard)|(tg & Hguard & Hforce & Hfile & Hanswer)];
      rewrite Hguard in *; cbn [snd] in Hg, Hp; cbn.
    - exists r1, (tg ++ EvInitialize :: t1). repeat split; [|now left].
      apply Forall_app. split; [assumption|]. constructor; [reflexivity|assumption].
    - exists (Exit EXIT_SUCCESS), tg. repeat split; [assumption|right].
      rewrite <- (parse_Ret_overwrite _ _ _ _ Hparse). auto. }
  destruct Hshape as (r & tr & Hrun & Htr & Hstat).
  exists r, tr. repeat split; try assumption.
  intros d' Hd'. apply (disk_after_unwritten _ _ _ Hd').
  intros e He. rewrite Forall_forall in Htr. rewrite (Htr e He). discriminate.
Qed.

(** X17: an input that the library cannot open is no usage error.  Towards
    NanoVDB, when [file.open] throws on the first input, the exception is
    caught: the run reports it on [std::cerr] and [main] returns
    [EXIT_FAILURE].  The output stream is open by then, and no other input
    is looked at. *)
Theorem unreadable_input_is_caught (progName : string) (argv : list string) (w : World)
  (o : Options) (t tg : list Event) (f what : string) (rest : list string) :
  parse progName argv initial = (Ret o, t) ->
  (2 <= length (operands argv))%nat ->
  let outputFile := last (operands argv) EmptyString in
  extension outputFile = Some "nvdb" ->
  overwrite_guard w o outputFile = (Ret tt, tg) ->
  removelast (operands argv) = f :: rest ->
  extension f = Some "vdb" ->
  file_open f = Raise (StdException what) ->
  main progName argv w
  = (Ret EXIT_FAILURE,
     tg ++ EvInitialize :: EvOfstream outputFile
        :: (if verbose o
            then [Stdout ("Opening OpenVDB file named " ++ dquote ++ f ++ dquote ++ nl)]
            else [])
        ++ [EvFileOpen f;
            Stderr ("An exception occurred: " ++ dquote ++ what ++ dquote ++ nl)]).
Proof.
  intros Hparse Hlen outputFile Hext Hguard Hinputs Hf Hopen.
  rewrite (main_classified progName argv w o t "nvdb" true Hparse Hlen Hext eq_refl).
  fold outputFile. rewrite Hguard. unfold after_guard, convert, toNano.
  rewrite (parse_Ret_fileNames _ _ _ _ Hparse). fold outputFile.
  rewrite Hinputs. cbn [for_each]. unfold toNano_file, extension_or_throw.
  rewrite Hf, Hopen. destruct (verbose o); reflexivity.
Qed.

End Stops.

(** * The program at work on the sample installation *)

(** ** Where the wording of a claim and the program part *)

(** C1 as it is worded fails: [b.txt] does not end in [.vdb] and the output
    ends in [.nvdb], yet before the mismatch is reported the run has opened
    the output stream, opened the input [a.vdb] and written its two grids. *)
Lemma mismatch_is_found_after_writing :
  extension "out.nvdb" = Some "nvdb"
  /\ extension "b.txt" = Some "txt"
  /\ main (L := Sample.library) "nanovdb_convert"
          ["-f"; "a.vdb"; "b.txt"; "out.nvdb"] Sample.fresh
     = (Exit EXIT_FAILURE,
        EvInitialize :: EvOfstream "out.nvdb"
          :: Runs.a_vdb_to_stream Sample.checksum_partial
          ++ [Stderr expected_vdb; Stderr (usage_text "nanovdb_convert")]).
Proof. repeat split. Qed.

(** C2 as it is worded fails: [Yes] is [yes] up to the case of its letters,
    and the run takes it for a refusal. *)
Lemma answer_Yes_is_refused :
  affirmative "Yes" = true
  /\ force_given ["a.nvdb"; "out.vdb"] = false
  /\ disk (Sample.occupied "Yes") "out.vdb" = Some "data"
  /\ main (L := Sample.library) "nanovdb_convert" ["a.nvdb"; "out.vdb"]
          (Sample.occupied "Yes")
     = (Exit EXIT_SUCCESS,
        Runs.asked "out.vdb" "Yes" ++ [Stdout Runs.declined_text]).
Proof. repeat split. Qed.

(** C4 as it is worded fails: no grid of [a.nvdb] is named [pressure], the
    direction is from NanoVDB to OpenVDB, and the run exits with status 0
    when the user declines to overwrite [out.vdb]. *)
Lemma unmatched_grid_declined_exits_0 :
  readGrid (Library := Sample.library) "a.nvdb" "pressure" = Ok None
  /\ handle_bool (Library := Sample.library) None = false
  /\ operands ["-g"; "pressure"; "a.nvdb"; "out.vdb"] = ["a.nvdb"; "out.vdb"]
  /\ extension "out.vdb" = Some "vdb"
  /\ main (L := Sample.library) "nanovdb_convert"
          ["-g"; "pressure"; "a.nvdb"; "out.vdb"] (Sample.occupied "n")
     = (Exit 0, Runs.asked "out.vdb" "n" ++ [Stdout Runs.declined_text]).
Proof. repeat split. Qed.

(** C5 as it is worded fails on the help flag: [--help] alone is a command
    line with no operand at all, and the run exits with status 0. *)
Lemma help_without_operands_exits_0 :
  operands ["--help"] = []
  /\ main (L := Sample.library) "nanovdb_convert" ["--help"] Sample.fresh
     = (Exit 0, [Stderr (usage_text "nanovdb_convert")]).
Proof. repeat split. Qed.

(** C7 as it is worded fails: [FULL] is none of the three words [none],
    [partial], [full], and the run takes it for the mode [full]. *)
Lemma checksum_FULL_is_taken :
  ~ In "FULL" ["none"; "partial"; "full"]
  /\ main (L := Sample.library) "nanovdb_convert"
          ["-f"; "-c"; "FULL"; "a.vdb"; "out.nvdb"] Sample.fresh
     = (Ret EXIT_SUCCESS,
        EvInitialize :: EvOfstream "out.nvdb"
          :: Runs.a_vdb_to_stream Sample.checksum_full).
Proof.
  split; [|reflexivity].
  intros [H|[H|[H|[]]]]; discriminate.
Qed.

(** ** The theorems at work *)

Lemma mismatched_input_stops_the_run_witness :
  exists tb,
    main (L := Sample.library) "nanovdb_convert"
         ["-f"; "a.vdb"; "b.txt"; "out.nvdb"] Sample.fresh
    = (Exit EXIT_FAILURE,
       [] ++ EvInitialize :: EvOfstream "out.nvdb" :: tb
          ++ [Stderr expected_vdb; Stderr (usage_text "nanovdb_convert")])
    /\ (forall f, In f ["a.vdb"] -> In (EvFileOpen f) tb)
    /\ ~ In (EvFileOpen "b.txt")
           ([] ++ EvInitialize :: EvOfstream "out.nvdb" :: tb
               ++ [Stderr expected_vdb; Stderr (usage_text "nanovdb_convert")]).
Proof.
  eexists.
  eapply (mismatched_input_stops_the_run (L := Sample.library) "nanovdb_convert"
            ["-f"; "a.vdb"; "b.txt"; "out.nvdb"] Sample.fresh
            _ [] [] _ ["a.vdb"] [] "b.txt" "txt").
  - reflexivity.
  - vm_compute. lia.
  - reflexivity.
  - reflexivity.
  - reflexivity.
  - reflexivity.
  - reflexivity.
  - discriminate.
Defined.

Lemma overwrite_prompt_answers_witness :
  (exists r t',
      main (L := Sample.library) "nanovdb_convert" ["a.nvdb"; "out.vdb"]
           (Sample.occupied "y")
      = (r, Runs.asked "out.vdb" "y" ++ EvInitialize :: t'))
  /\ main (L := Sample.library) "nanovdb_convert" ["a.nvdb"; "out.vdb"]
          (Sample.occupied "yEs")
     = (Exit EXIT_SUCCESS, Runs.asked "out.vdb" "yEs" ++ [Stdout Runs.declined_text]).
Proof.
  split.
  - apply (proj1 (overwrite_prompt_answers (L := Sample.library) "nanovdb_convert"
                    ["a.nvdb"; "out.vdb"] (Sample.occupied "y")
                    _ [] "vdb" "d"%char "ata"
                    eq_refl ltac:(vm_compute; lia) eq_refl
                    ltac:(right; left; reflexivity) eq_refl eq_refl)).
    right. right. left. reflexivity.
  - apply (proj2 (overwrite_prompt_answers (L := Sample.library) "nanovdb_convert"
                    ["a.nvdb"; "out.vdb"] (Sample.occupied "yEs")
                    _ [] "vdb" "d"%char "ata"
                    eq_refl ltac:(vm_compute; lia) eq_refl
                    ltac:(right; left; reflexivity) eq_refl eq_refl)).
    intros [H|[H|[H|[H|[H|[]]]]]]; discriminate.
Defined.

Lemma batch_then_write_and_append_at_once_witness :
  (forall t1 p (gs : list (@OpenGrid Sample.library)) t2,
      snd (main (L := Sample.library) "nanovdb_convert"
             ["-f"; "a.nvdb"; "a.nvdb"; "out.vdb"] Sample.fresh)
      = t1 ++ EvFileWrite p gs :: t2 ->
      p = "out.vdb"
      /\ gs = ["density"; "temperature"; "density"; "temperature"]
      /\ handles_translated t1
         = [Some "density"; Some "temperature"; Some "density"; Some "temperature"])
  /\ (exists t1 gs t2,
         snd (main (L := Sample.library) "nanovdb_convert"
                ["-f"; "a.nvdb"; "a.nvdb"; "out.vdb"] Sample.fresh)
         = t1 ++ EvFileWrite "out.vdb" gs :: t2)
  /\ stream_calls
       (snd (main (L := Sample.library) "nanovdb_convert"
               ["-f"; "b.vdb"; "a.vdb"; "out.nvdb"] Sample.fresh))
     = [EvOpenToNano (L := Sample.library) "velocity" Sample.stats_all
          Sample.checksum_partial 0;
        EvWriteGrid (L := Sample.library) "out.nvdb" (Some "velocity") Sample.none;
        EvOpenToNano (L := Sample.library) "density" Sample.stats_all
          Sample.checksum_partial 0;
        EvWriteGrid (L := Sample.library) "out.nvdb" (Some "density") Sample.none;
        EvOpenToNano (L := Sample.library) "temperature" Sample.stats_all
          Sample.checksum_partial 0;
        EvWriteGrid (L := Sample.library) "out.nvdb" (Some "temperature") Sample.none]
  /\ (forall p gs,
         ~ In (EvFileWrite p gs)
              (snd (main (L := Sample.library) "nanovdb_convert"
                      ["-f"; "b.vdb"; "a.vdb"; "out.nvdb"] Sample.fresh))).
Proof.
  pose proof (batch_then_write_and_append_at_once (L := Sample.library)
                "nanovdb_convert" ["-f"; "a.nvdb"; "a.nvdb"; "out.vdb"] Sample.fresh
                _ [] eq_refl ltac:(vm_compute; lia)) as [Hopen _].
  pose proof (batch_then_write_and_append_at_once (L := Sample.library)
                "nanovdb_convert" ["-f"; "b.vdb"; "a.vdb"; "out.nvdb"] Sample.fresh
                _ [] eq_refl ltac:(vm_compute; lia)) as [_ Hnano].
  destruct (Hopen eq_refl) as (Hwrite & Hdone & _).
  destruct (Hnano eq_refl) as (_ & Hnone & Hall).
  split; [|split; [|split]].
  - intros t1 p gs t2 Hcut.
    destruct (Hwrite t1 p gs t2 Hcut)
      as (Hp & _ & _ & _ & _ & _ & _ & hs & Hd & Hh & Ht & _).
    vm_compute in Hd. injection Hd as Hd. rewrite <- Hd in Ht, Hh.
    vm_compute in Ht. injection Ht as Ht.
    split; [exact Hp|]. split; [symmetry; exact Ht|exact Hh].
  - exact (Hdone eq_refl).
  - destruct (Hall eq_refl) as (gs & calls & Hd & He & Hc).
    vm_compute in Hd. injection Hd as Hd. rewrite <- Hd in He.
    vm_compute in He. injection He as He. rewrite <- He in Hc.
    exact Hc.
  - exact Hnone.
Defined.

Lemma unmatched_grid_name_witness :
  exists r tr,
    main (L := Sample.library) "nanovdb_convert"
         ["-f"; "-g"; "pressure"; "a.nvdb"; "out.vdb"] Sample.fresh = (r, tr)
    /\ Forall no_write tr
    /\ (forall d', disk_after (disk Sample.fresh) tr d' ->
                   d' "out.vdb" = disk Sample.fresh "out.vdb")
    /\ (exit_status r = Some EXIT_FAILURE
        \/ (r = Exit EXIT_SUCCESS
            /\ force_given ["-f"; "-g"; "pressure"; "a.nvdb"; "out.vdb"] = false
            /\ (exists c content,
                   disk Sample.fresh "out.vdb" = Some (String c content))
            /\ ~ In (stdin_line Sample.fresh) [EmptyString; "Y"; "y"; "yes"; "YES"])).
Proof.
  apply (unmatched_grid_name (L := Sample.library) "nanovdb_convert"
           ["-f"; "-g"; "pressure"; "a.nvdb"; "out.vdb"] Sample.fresh _ [] eq_refl).
  - vm_compute. lia.
  - reflexivity.
  - discriminate.
  - intros f h [<-|[]] H. vm_compute in H. inversion H. reflexivity.
Defined.

Lemma few_operands_end_in_usage_witness :
  (length (operands ["-v"; "a.vdb"]) < 2)%nat
  /\ exists s t,
      main (L := Sample.library) "nanovdb_convert" ["-v"; "a.vdb"] Sample.fresh
      = (Exit s, t ++ [Stderr (usage_text "nanovdb_convert")])
      /\ Forall is_stderr t
      /\ (s = EXIT_FAILURE \/ (s = EXIT_SUCCESS /\ help_given ["-v"; "a.vdb"] = true)).
Proof.
  split; [vm_compute; lia|].
  apply (few_operands_end_in_usage (L := Sample.library)). vm_compute. lia.
Defined.

Lemma direction_from_extension_witness :
  (main (L := Sample.library) "nanovdb_convert" ["-z"; "a.vdb"; "out.nvdb"] Sample.fresh
   = (overwrite_guard Sample.fresh Runs.zipped "out.nvdb" ;;
      emit EvInitialize ;;
      try_catch (toNano "nanovdb_convert" Runs.zipped "out.nvdb" ["a.vdb"] ;;
                 version_note Runs.zipped))
   /\ Forall (fun e => ~ open_side e)
        (snd (main (L := Sample.library) "nanovdb_convert" ["-z"; "a.vdb"; "out.nvdb"]
                Sample.fresh))
   /\ (In EvInitialize
         (snd (main (L := Sample.library) "nanovdb_convert" ["-z"; "a.vdb"; "out.nvdb"]
                 Sample.fresh)) ->
       In (EvOfstream "out.nvdb")
         (snd (main (L := Sample.library) "nanovdb_convert" ["-z"; "a.vdb"; "out.nvdb"]
                 Sample.fresh))))
  /\ main (L := Sample.library) "nanovdb_convert" ["a.vdb"; "out.nvdb.gz"] Sample.fresh
     = (Exit EXIT_FAILURE,
        [Stderr (("Unrecognized file extension: " ++ dquote ++ "gz" ++ dquote) ++ nl ++ nl);
         Stderr (usage_text "nanovdb_convert")]).
Proof.
  split.
  - apply (proj1 (direction_from_extension (L := Sample.library) "nanovdb_convert"
                    ["-z"; "a.vdb"; "out.nvdb"] Sample.fresh Runs.zipped []
                    eq_refl ltac:(vm_compute; lia) eq_refl)).
    split; [reflexivity|]. right. now exists "out".
  - apply (proj1 (proj2 (proj2 (direction_from_extension (L := Sample.library)
                                  "nanovdb_convert" ["a.vdb"; "out.nvdb.gz"] Sample.fresh
                                  _ [] eq_refl ltac:(vm_compute; lia) eq_refl)))
             "gz").
    + split; [reflexivity|]. right. now exists "out.nvdb".
    + discriminate.
    + discriminate.
Defined.

Lemma unknown_mode_is_usage_error_witness :
  main (L := Sample.library) "nanovdb_convert"
       (["-v"] ++ "--stats" :: "most" :: ["a.vdb"; "out.nvdb"]) Sample.fresh
  = (Exit EXIT_FAILURE,
     [Stderr ("Expected one of the following stats modes: {none, bbox, extrema, all}"
              ++ nl ++ nl);
      Stderr (usage_text "nanovdb_convert")]).
Proof.
  apply (proj2 (unknown_mode_is_usage_error (L := Sample.library) "nanovdb_convert"
                  ["-v"] ["a.vdb"; "out.nvdb"] "--stats" "most" Sample.fresh _ []
                  eq_refl)).
  - right. left. reflexivity.
  - reflexivity.
Defined.

Lemma declined_overwrite_keeps_output_witness :
  exists tr,
    main (L := Sample.library) "nanovdb_convert" ["a.vdb"; "out.nvdb"]
         (Sample.occupied "n") = (Exit 0, tr)
    /\ In (Stdout (overwrite_question "out.nvdb")) tr
    /\ (forall e, In e tr -> written_path e = None)
    /\ (forall d', disk_after (disk (Sample.occupied "n")) tr d' ->
                   d' "out.nvdb" = Some "data"
                   /\ forall p, d' p = disk (Sample.occupied "n") p).
Proof.
  apply (declined_overwrite_keeps_output (L := Sample.library) "nanovdb_convert"
           ["a.vdb"; "out.nvdb"] (Sample.occupied "n") _ [] "nvdb" "d"%char "ata"
           eq_refl ltac:(vm_compute; lia) eq_refl ltac:(left; reflexivity)
           eq_refl eq_refl).
  intros [H|[H|[H|[H|[H|[]]]]]]; discriminate.
Defined.

Lemma mode_value_in_any_case_witness :
  (exists o',
      parse (L := Sample.library) "nanovdb_convert" ["-c"; "FULL"; "a.vdb"; "o.nvdb"]
        initial = (Ret o', [])
      /\ cMode o' = Sample.checksum_full
      /\ cMode (L := Sample.library) initial = Sample.checksum_partial)
  /\ parse (L := Sample.library) "nanovdb_convert" ["--stats"; "BBox"] initial
     = (Ret (@Build_Options Sample.library Sample.none Sample.stats_bbox
               Sample.checksum_partial false false EmptyString []), []).
Proof.
  split.
  - eexists. split; [reflexivity|]. split; [|reflexivity].
    apply (proj2 (proj1 (mode_value_in_any_case (L := Sample.library) "nanovdb_convert"
                           "FULL" "full" ["a.vdb"; "o.nvdb"] initial eq_refl)
                    Sample.checksum_full "-c"
                    ltac:(right; right; left; reflexivity) ltac:(left; reflexivity))
             _ [] eq_refl eq_refl).
  - apply (proj1 (proj2 (mode_value_in_any_case (L := Sample.library) "nanovdb_convert"
                           "BBox" "bbox" [] initial eq_refl)
                    Sample.stats_bbox "--stats"
                    ltac:(right; left; reflexivity) ltac:(right; left; reflexivity))).
Defined.

Lemma last_option_wins_witness :
  codec (L := Sample.library)
    (push_back_file "o.nvdb"
       (push_back_file "a.vdb"
          (set_gridName "density"
             (set_cMode (L := Sample.library) Sample.checksum_full
                (set_codec (L := Sample.library) Sample.zip initial)))))
  = Sample.zip.
Proof.
  apply (proj1 (last_option_wins (L := Sample.library) "nanovdb_convert"
                  ["-z"; "-b"; "-c"; "none"; "-z"; "-c"; "FULL"; "-g"; "-b";
                   "-g"; "density"; "a.vdb"; "o.nvdb"]
                  _ []
                  [Flag "-z"; Flag "-b"; Valued "-c" "none"]
                  [Valued "-c" "FULL"; Valued "-g" "-b"; Valued "-g" "density";
                   Operand "a.vdb"; Operand "o.nvdb"]
                  (Flag "-z") eq_refl eq_refl)
               "-z" Sample.zip eq_refl eq_refl eq_refl).
Defined.

(** ** More theorems at work *)

Lemma unknown_option_is_usage_error_witness :
  main (L := Sample.library) "nanovdb_convert"
       (["-v"; "a.vdb"] ++ "-" :: ["out.nvdb"]) Sample.fresh
  = (Exit EXIT_FAILURE,
     [Stderr (("Unrecognized option: " ++ dquote ++ "-" ++ dquote) ++ nl ++ nl);
      Stderr (usage_text "nanovdb_convert")]).
Proof.
  apply (unknown_option_is_usage_error (L := Sample.library) "nanovdb_convert"
           ["-v"; "a.vdb"] ["out.nvdb"] "-" Sample.fresh _ [] eq_refl eq_refl).
  vm_compute. intuition discriminate.
Defined.

Lemma missing_value_is_usage_error_witness :
  main (L := Sample.library) "nanovdb_convert" (["a.vdb"; "out.nvdb"] ++ ["--grid"])
       Sample.fresh
  = (Exit EXIT_FAILURE,
     [Stderr ("Expected a grid name to follow the -g,--grid option" ++ nl ++ nl);
      Stderr (usage_text "nanovdb_convert")]).
Proof.
  apply (proj2 (proj2 (missing_value_is_usage_error (L := Sample.library)
                         "nanovdb_convert" ["a.vdb"; "out.nvdb"] "--grid"
                         Sample.fresh _ [] eq_refl))).
  right. left. reflexivity.
Defined.

Lemma help_ends_the_run_witness :
  main (L := Sample.library) "nanovdb_convert" (["-z"] ++ "-h" :: ["--what"; "-c"])
       (Sample.occupied "n")
  = (Exit EXIT_SUCCESS, [Stderr (usage_text "nanovdb_convert")]).
Proof.
  apply (help_ends_the_run (L := Sample.library) "nanovdb_convert" ["-z"]
           ["--what"; "-c"] "-h" (Sample.occupied "n") _ [] eq_refl).
  left. reflexivity.
Defined.

Lemma empty_argument_is_skipped_witness :
  main (L := Sample.library) "nanovdb_convert"
       (["-f"; "a.vdb"] ++ EmptyString :: ["out.nvdb"]) Sample.fresh
  = main "nanovdb_convert" (["-f"; "a.vdb"] ++ ["out.nvdb"]) Sample.fresh.
Proof.
  apply (empty_argument_is_skipped (L := Sample.library) "nanovdb_convert"
           ["-f"; "a.vdb"] ["out.nvdb"] Sample.fresh _ [] eq_refl).
Defined.

Lemma absent_options_keep_defaults_witness :
  codec (L := Sample.library) Runs.zipped = Sample.zip
  /\ cMode (L := Sample.library) Runs.zipped = Sample.checksum_partial
  /\ gridName (L := Sample.library) Runs.zipped = EmptyString.
Proof.
  destruct (absent_options_keep_defaults (L := Sample.library) "nanovdb_convert"
              ["-z"; "a.vdb"; "out.nvdb"] Runs.zipped [] eq_refl)
    as (_ & Hk & _ & Hg & _).
  split; [reflexivity|]. split; [exact (Hk eq_refl)|exact (Hg eq_refl)].
Defined.

Lemma file_names_are_the_operands_witness :
  fileNames (L := Sample.library)
    (push_back_file "out.vdb"
       (push_back_file "a.nvdb" (set_gridName (L := Sample.library) "b.nvdb" initial)))
  = operands ["-g"; "b.nvdb"; "a.nvdb"; EmptyString; "out.vdb"].
Proof.
  apply (proj1 (file_names_are_the_operands (L := Sample.library) "nanovdb_convert"
                  ["-g"; "b.nvdb"; "a.nvdb"; EmptyString; "out.vdb"] _ [] eq_refl)).
Defined.

Lemma options_reach_the_library_witness :
  Forall (carries (L := Sample.library) Runs.zipped "out.nvdb")
    (snd (main "nanovdb_convert" ["-z"; "a.vdb"; "out.nvdb"] Sample.fresh)).
Proof.
  apply (options_reach_the_library (L := Sample.library) "nanovdb_convert"
           ["-z"; "a.vdb"; "out.nvdb"] Sample.fresh Runs.zipped [] eq_refl).
Defined.

Lemma grid_name_selects_the_read_witness :
  Forall (selects (L := Sample.library) Runs.zipped)
    (snd (main "nanovdb_convert" ["-z"; "a.vdb"; "out.nvdb"] Sample.fresh)).
Proof.
  apply (grid_name_selects_the_read (L := Sample.library) "nanovdb_convert"
           ["-z"; "a.vdb"; "out.nvdb"] Sample.fresh Runs.zipped [] eq_refl).
Defined.

Lemma quiet_unless_verbose_witness :
  Forall (quiet (L := Sample.library) "out.nvdb")
    (snd (main "nanovdb_convert" ["-z"; "a.vdb"; "out.nvdb"] (Sample.occupied "y"))).
Proof.
  apply (quiet_unless_verbose (L := Sample.library) "nanovdb_convert"
           ["-z"; "a.vdb"; "out.nvdb"] (Sample.occupied "y") eq_refl).
Defined.

Lemma no_question_without_need_witness :
  Forall (fun e => ~ is_guard_call e)
    (snd (main (L := Sample.library) "nanovdb_convert" ["-f"; "a.vdb"; "out.nvdb"]
            (Sample.occupied "n")))
  /\ Forall (fun e => forall line, e <> EvGetline line)
       (snd (main (L := Sample.library) "nanovdb_convert" ["a.vdb"; "out.nvdb"]
               Sample.fresh)).
Proof.
  split.
  - apply (proj1 (no_question_without_need (L := Sample.library) "nanovdb_convert"
                    ["-f"; "a.vdb"; "out.nvdb"] (Sample.occupied "n"))).
    reflexivity.
  - apply (proj2 (no_question_without_need (L := Sample.library) "nanovdb_convert"
                    ["a.vdb"; "out.nvdb"] Sample.fresh)).
    left. reflexivity.
Defined.

Lemma every_failure_is_reported_witness :
  ends_in_stderr
    (snd (main (L := Sample.library) "nanovdb_convert" ["-f"; "c.vdb"; "out.nvdb"]
            Sample.fresh))
  /\ Forall not_stderr
       (snd (main (L := Sample.library) "nanovdb_convert" ["-f"; "a.vdb"; "out.nvdb"]
               Sample.fresh)).
Proof.
  split.
  - apply (proj1 (every_failure_is_reported (L := Sample.library) "nanovdb_convert"
                    ["-f"; "c.vdb"; "out.nvdb"] Sample.fresh)).
    reflexivity.
  - apply (proj2 (every_failure_is_reported (L := Sample.library) "nanovdb_convert"
                    ["-f"; "a.vdb"; "out.nvdb"] Sample.fresh)).
    reflexivity.
Defined.

Lemma only_initialize_throws_out_of_main_witness :
  fst (main_init (L := Sample.library) (Raise OtherException) "nanovdb_convert"
         ["a.nvdb"; "out.vdb"] (Sample.occupied "y"))
  = Throw OtherException
  /\ snd (main_init (L := Sample.library) (Raise OtherException) "nanovdb_convert"
            ["a.nvdb"; "out.vdb"] (Sample.occupied "y"))
     = Runs.asked "out.vdb" "y" ++ [EvInitialize]
  /\ exists s,
      exit_status
        (fst (main_init (L := Sample.library) (Ok tt) "nanovdb_convert"
                ["a.nvdb"; "out.vdb"] (Sample.occupied "no")))
      = Some s
      /\ (s = EXIT_SUCCESS \/ s = EXIT_FAILURE).
Proof.
  split; [|split; [reflexivity|]].
  - apply (proj1 (proj2 (only_initialize_throws_out_of_main (L := Sample.library)
                           "nanovdb_convert" ["a.nvdb"; "out.vdb"] (Sample.occupied "y")
                           (Raise OtherException) ltac:(repeat constructor)))
             OtherException eq_refl).
    vm_compute. tauto.
  - apply (proj2 (proj2 (only_initialize_throws_out_of_main (L := Sample.library)
                           "nanovdb_convert" ["a.nvdb"; "out.vdb"] (Sample.occupied "no")
                           (Ok tt) ltac:(repeat constructor)))
             tt eq_refl).
Defined.

Lemma extension_is_after_the_last_dot_witness :
  exists ext,
    extension "a.b.vdb" = Some ext
    /\ last_index ext "."%char = None
    /\ ((last_index "a.b.vdb" "."%char = None /\ "a.b.vdb" = ext)
        \/ exists stem : string, "a.b.vdb" = (stem ++ String "."%char ext)%string).
Proof.
  apply (extension_is_after_the_last_dot "a.b.vdb"). reflexivity.
Defined.

Lemma inputs_in_order_witness :
  files_opened
    (snd (main (L := Sample.library) "nanovdb_convert"
            ["-f"; "b.vdb"; "a.vdb"; "out.nvdb"] Sample.fresh))
  = ["b.vdb"; "a.vdb"].
Proof.
  destruct (proj1 (inputs_in_order (L := Sample.library) "nanovdb_convert"
                     ["-f"; "b.vdb"; "a.vdb"; "out.nvdb"] Sample.fresh _ []
                     eq_refl ltac:(vm_compute; lia)) eq_refl)
    as (k & _ & Hall).
  exact (Hall eq_refl).
Defined.

Lemma output_is_opened_first_witness :
  exists r rest,
    main (L := Sample.library) "nanovdb_convert" ["-f"; "b.txt"; "out.nvdb"] Sample.fresh
    = (r, [] ++ EvInitialize :: EvOfstream "out.nvdb" :: rest)
    /\ files_opened (L := Sample.library) [] = []
    /\ Forall (no_write (L := Sample.library)) [].
Proof.
  apply (output_is_opened_first (L := Sample.library) "nanovdb_convert"
           ["-f"; "b.txt"; "out.nvdb"] Sample.fresh _ [] []
           eq_refl ltac:(vm_compute; lia) eq_refl eq_refl).
Defined.

Lemma wrong_input_keeps_vdb_unwritten_witness :
  exists r tr,
    main (L := Sample.library) "nanovdb_convert"
         ["a.nvdb"; "b.vdb"; "out.vdb"] (Sample.occupied "y") = (r, tr)
    /\ Forall no_write tr
    /\ (forall d', disk_after (disk (Sample.occupied "y")) tr d' ->
                   d' "out.vdb" = disk (Sample.occupied "y") "out.vdb")
    /\ (exit_status r = Some EXIT_FAILURE
        \/ (r = Exit EXIT_SUCCESS
            /\ force_given ["a.nvdb"; "b.vdb"; "out.vdb"] = false
            /\ (exists c content,
                   disk (Sample.occupied "y") "out.vdb" = Some (String c content))
            /\ ~ In (stdin_line (Sample.occupied "y"))
                    [EmptyString; "Y"; "y"; "yes"; "YES"]
            /\ Forall plain tr)).
Proof.
  apply (wrong_input_keeps_vdb_unwritten (L := Sample.library) "nanovdb_convert"
           ["a.nvdb"; "b.vdb"; "out.vdb"] (Sample.occupied "y") _ [] "b.vdb"
           eq_refl ltac:(vm_compute; lia) eq_refl).
  - right. left. reflexivity.
  - discriminate.
Defined.

Lemma unreadable_input_is_caught_witness :
  main (L := Sample.library) "nanovdb_convert" ["-f"; "c.vdb"; "a.vdb"; "out.nvdb"]
       Sample.fresh
  = (Ret EXIT_FAILURE,
     [] ++ EvInitialize :: EvOfstream "out.nvdb"
        :: []
        ++ [EvFileOpen "c.vdb";
            Stderr ("An exception occurred: " ++ dquote ++ "Unable to open file c.vdb"
                    ++ dquote ++ nl)]).
Proof.
  apply (unreadable_input_is_caught (L := Sample.library) "nanovdb_convert"
           ["-f"; "c.vdb"; "a.vdb"; "out.nvdb"] Sample.fresh _ [] []
           "c.vdb" "Unable to open file c.vdb" ["a.vdb"]
           eq_refl ltac:(vm_compute; lia) eq_refl eq_refl eq_refl eq_refl eq_refl).
Defined.
